(** * HDRezka stream-extraction worker: a shallow embedding and its properties

    The development follows the worker script function by function:
    [clearTrash], [parseVideoUrls], [parseSubtitles], [getContentInfo],
    [getStream], [searchContent] and the request handler, here [handle]
    (the name [fetch] is kept for the outbound call).

    Modelling conventions.
    - A JavaScript string is a [string]: a sequence of code units, restricted
      to U+0000..U+00FF.
    - A regular-expression literal is a value of [regex]; it is run by a
      backtracking matcher written in continuation-passing style, the way
      ECMA-262 specifies matching.
    - [atob] is the forgiving-base64 decoder of the WHATWG Infra standard.
    - A Number is a [number]: an integer-valued double, an infinity or NaN.
    - A plain object used as a dictionary is an [obj]: its own properties in
      creation order, enumerated the way [OrdinaryOwnPropertyKeys] does.
    - An outbound [fetch] is an input of the model: the outcome the network
      gave.  A thrown exception is the [Throw] case of [result].
    - Console output is not modelled. *)

From Stdlib Require Import String Ascii List ZArith NArith Arith Bool Lia.
From Stdlib Require Import ZifyNat.
From Stdlib Require Import Sorting.Sorted Sorting.Permutation.
Import ListNotations.
Open Scope string_scope.
Open Scope nat_scope.

Set Implicit Arguments.
Set Warnings "-register-all".

(** ** Strings *)

Module Str.

Fixpoint mem (c : ascii) (s : string) : bool :=
  match s with
  | EmptyString => false
  | String d s' => Ascii.eqb c d || mem c s'
  end.

(** [s.startsWith(p)] *)
Fixpoint startsWith (p s : string) : bool :=
  match p, s with
  | EmptyString, _ => true
  | String a p', String b s' => Ascii.eqb a b && startsWith p' s'
  | String _ _, EmptyString => false
  end.

(** [s.includes(p)] *)
Fixpoint includes (p s : string) : bool :=
  startsWith p s ||
  match s with
  | EmptyString => false
  | String _ s' => includes p s'
  end.

Fixpoint rev_acc (s acc : string) : string :=
  match s with
  | EmptyString => acc
  | String c s' => rev_acc s' (String c acc)
  end.

Definition rev (s : string) : string := rev_acc s EmptyString.

(** [s.endsWith(p)] *)
Definition endsWith (p s : string) : bool := startsWith (rev p) (rev s).

Fixpoint drop (n : nat) (s : string) : string :=
  match n, s with
  | O, _ => s
  | S n', String _ s' => drop n' s'
  | S _, EmptyString => EmptyString
  end.

Fixpoint take (n : nat) (s : string) : string :=
  match n, s with
  | O, _ => EmptyString
  | S n', String c s' => String c (take n' s')
  | S _, EmptyString => EmptyString
  end.

(** [s.split(sep)] for a non-empty separator: the pieces between the
    leftmost non-overlapping occurrences of [sep].  [cur] holds the piece
    being read, reversed; [skip] counts the characters of an occurrence
    still to be passed over. *)
Fixpoint split_go (sep : string) (s : string) (cur : string) (skip : nat)
  : list string :=
  match skip with
  | S k =>
      match s with
      | EmptyString => [rev cur]
      | String _ s' => split_go sep s' cur k
      end
  | O =>
      match s with
      | EmptyString => [rev cur]
      | String c s' =>
          if startsWith sep s
          then rev cur :: split_go sep s' EmptyString (String.length sep - 1)
          else split_go sep s' (String c cur) 0
      end
  end.

Definition split (sep s : string) : list string :=
  split_go sep s EmptyString 0.

(** White space in the sense of [String.prototype.trim] and [parseInt],
    within U+0000..U+00FF. *)
Definition isWhiteSpace (c : ascii) : bool :=
  let n := nat_of_ascii c in
  ((9 <=? n) && (n <=? 13)) || (n =? 32) || (n =? 160).

Fixpoint trimStart (s : string) : string :=
  match s with
  | EmptyString => EmptyString
  | String c s' => if isWhiteSpace c then trimStart s' else s
  end.

Definition trim (s : string) : string := rev (trimStart (rev (trimStart s))).

Definition isDigit (c : ascii) : bool :=
  let n := nat_of_ascii c in (48 <=? n) && (n <=? 57).

Definition isEmpty (s : string) : bool :=
  match s with EmptyString => true | _ => false end.

End Str.

(** ** Regular expressions *)

Module Regex.

Inductive regex : Type :=
| Eps
| Class (p : ascii -> bool)
| Cat (r1 r2 : regex)
| Or (r1 r2 : regex)
| Star (greedy : bool) (r : regex)
| Group (i : nat) (r : regex)
| Bol
| Eol.

(** Matcher state: the index reached, the input from there on, and the
    capture groups closed so far (latest first). *)
Record mstate : Type := MState {
  pos : nat;
  rest : string;
  caps : list (nat * string)
}.

Definition cont : Type := mstate -> option mstate.

(** The iteration of a quantifier.  An iteration that consumes nothing is
    rejected, as in RepeatMatcher; hence at most [length rest] iterations,
    which is the fuel the caller passes. *)
Fixpoint repeat_loop (m : cont -> mstate -> option mstate) (greedy : bool)
    (fuel : nat) (k : cont) (st : mstate) : option mstate :=
  match fuel with
  | O => k st
  | S n =>
      let again (st' : mstate) :=
        if pos st <? pos st' then repeat_loop m greedy n k st' else None in
      if greedy then
        match m again st with
        | Some r => Some r
        | None => k st
        end
      else
        match k st with
        | Some r => Some r
        | None => m again st
        end
  end.

Fixpoint rmatch (r : regex) (k : cont) (st : mstate) {struct r}
  : option mstate :=
  match r with
  | Eps => k st
  | Class p =>
      match rest st with
      | String c s' =>
          if p c then k (MState (S (pos st)) s' (caps st)) else None
      | EmptyString => None
      end
  | Cat r1 r2 => rmatch r1 (rmatch r2 k) st
  | Or r1 r2 =>
      match rmatch r1 k st with
      | Some x => Some x
      | None => rmatch r2 k st
      end
  | Star greedy r' =>
      repeat_loop (rmatch r') greedy (String.length (rest st)) k st
  | Group i r' =>
      rmatch r'
        (fun st' =>
           k (MState (pos st') (rest st')
                ((i, Str.take (pos st' - pos st) (rest st)) :: caps st')))
        st
  | Bol => if pos st =? 0 then k st else None
  | Eol =>
      match rest st with
      | EmptyString => k st
      | String _ _ => None
      end
  end.

(** A successful match: where it starts, the state at its end. *)
Record found : Type := Found {
  start : nat;
  stop : mstate
}.

(** The text of capture group [i] ([match[i]]); the groups of the literals
    below always take part in a match. *)
Fixpoint cap_lookup (i : nat) (c : list (nat * string)) : string :=
  match c with
  | [] => EmptyString
  | (j, s) :: c' => if i =? j then s else cap_lookup i c'
  end.

Definition group (i : nat) (f : found) : string := cap_lookup i (caps (stop f)).

(** Try each start index from [p] on, leftmost first. *)
Fixpoint exec_from (r : regex) (p : nat) (s : string) : option found :=
  match rmatch r Some (MState p s []) with
  | Some st => Some (Found p st)
  | None =>
      match s with
      | EmptyString => None
      | String _ s' => exec_from r (S p) s'
      end
  end.

(** [s.match(r)] and [r.exec(s)] for a regex without the g flag. *)
Definition exec (r : regex) (s : string) : option found := exec_from r 0 s.

(** Successive [r.exec(s)] calls of a g-flagged regex driven by a
    [while] loop, [lastIndex] being threaded as [(p, s)].  The loop of the
    source would not end on an empty match; none of the literals below can
    match the empty string, and the model stops there. *)
Fixpoint exec_all_from (r : regex) (fuel : nat) (p : nat) (s : string)
  : list found :=
  match fuel with
  | O => []
  | S n =>
      match exec_from r p s with
      | None => []
      | Some f =>
          if start f <? pos (stop f)
          then f :: exec_all_from r n (pos (stop f)) (rest (stop f))
          else [f]
      end
  end.

Definition exec_all (r : regex) (s : string) : list found :=
  exec_all_from r (S (String.length s)) 0 s.

(** [s.replace(r, '')] for a g-flagged regex: every match found scanning
    left to right is dropped; after a match the scan resumes at its end. *)
Fixpoint remove_all_from (r : regex) (fuel : nat) (p : nat) (s : string)
  : string :=
  match fuel with
  | O => s
  | S n =>
      match rmatch r Some (MState p s []) with
      | Some st =>
          if p <? pos st then remove_all_from r n (pos st) (rest st)
          else
            match s with
            | EmptyString => EmptyString
            | String c s' => String c (remove_all_from r n (S p) s')
            end
      | None =>
          match s with
          | EmptyString => EmptyString
          | String c s' => String c (remove_all_from r n (S p) s')
          end
      end
  end.

Definition remove_all (r : regex) (s : string) : string :=
  remove_all_from r (String.length s) 0 s.

(** Building blocks for transcribing literals. *)
Definition chr (c : ascii) : regex := Class (Ascii.eqb c).
Definition oneOf (s : string) : regex := Class (fun c => Str.mem c s).
Definition noneOf (s : string) : regex := Class (fun c => negb (Str.mem c s)).
Definition digit : regex := Class Str.isDigit.
Definition anyChar : regex := Class (fun _ => true).
Definition isLineTerminator (c : ascii) : bool :=
  let n := nat_of_ascii c in (n =? 10) || (n =? 13).
Definition dot : regex := Class (fun c => negb (isLineTerminator c)).
Definition space : regex := Class Str.isWhiteSpace.
Definition plus (greedy : bool) (r : regex) : regex := Cat r (Star greedy r).

Fixpoint lit (s : string) : regex :=
  match s with
  | EmptyString => Eps
  | String c s' => Cat (chr c) (lit s')
  end.

Fixpoint cat (rs : list regex) : regex :=
  match rs with
  | [] => Eps
  | [r] => r
  | r :: rs' => Cat r (cat rs')
  end.

Fixpoint alt (rs : list regex) : regex :=
  match rs with
  | [] => Class (fun _ => false)
  | [r] => r
  | r :: rs' => Or r (alt rs')
  end.

End Regex.

Import Regex.

(** ** Base64 *)

Module Base64.

(** The value of a character of the base64 alphabet. *)
Definition sextet (c : ascii) : option N :=
  let n := N_of_ascii c in
  if ((65 <=? n) && (n <=? 90))%N then Some (n - 65)%N
  else if ((97 <=? n) && (n <=? 122))%N then Some (n - 71)%N
  else if ((48 <=? n) && (n <=? 57))%N then Some (n + 4)%N
  else if (n =? 43)%N then Some 62%N
  else if (n =? 47)%N then Some 63%N
  else None.

Definition alphabet : string :=
  "ABCDEFGHIJKLMNOPQRSTUVWXYZabcdefghijklmnopqrstuvwxyz0123456789+/".

Definition encodeChar (n : N) : ascii :=
  match String.get (N.to_nat n) alphabet with
  | Some c => c
  | None => "="%char
  end.

Fixpoint sextets (s : string) : option (list N) :=
  match s with
  | EmptyString => Some []
  | String c s' =>
      match sextet c, sextets s' with
      | Some v, Some l => Some (v :: l)
      | _, _ => None
      end
  end.

(** Groups of four sextets give three bytes; a trailing group of three
    gives two bytes and one of two gives one byte, the surplus low bits
    being discarded. *)
Fixpoint bytesOf (l : list N) : string :=
  match l with
  | a :: b :: c :: d :: l' =>
      let n := (a * 262144 + b * 4096 + c * 64 + d)%N in
      String (ascii_of_N (n / 65536))
        (String (ascii_of_N ((n / 256) mod 256))
           (String (ascii_of_N (n mod 256)) (bytesOf l')))
  | [a; b; c] =>
      let n := ((a * 4096 + b * 64 + c) / 4)%N in
      String (ascii_of_N (n / 256)) (String (ascii_of_N (n mod 256)) "")
  | [a; b] =>
      let n := ((a * 64 + b) / 16)%N in
      String (ascii_of_N n) ""
  | _ => ""
  end.

(** ASCII whitespace of the Infra standard: TAB, LF, FF, CR, SPACE. *)
Definition isAsciiWhitespace (c : ascii) : bool :=
  let n := nat_of_ascii c in
  (n =? 9) || (n =? 10) || (n =? 12) || (n =? 13) || (n =? 32).

Fixpoint removeWhitespace (s : string) : string :=
  match s with
  | EmptyString => EmptyString
  | String c s' =>
      if isAsciiWhitespace c then removeWhitespace s'
      else String c (removeWhitespace s')
  end.

(** The padding step: only a string whose length is a multiple of four
    loses one or two trailing [=]. *)
Definition stripPadding (d : string) : string :=
  let n := String.length d in
  if n mod 4 =? 0 then
    if Str.endsWith "==" d then Str.take (n - 2) d
    else if Str.endsWith "=" d then Str.take (n - 1) d
    else d
  else d.

(** [atob(s)]; [None] stands for the InvalidCharacterError it throws. *)
Definition atob (s : string) : option string :=
  let d := stripPadding (removeWhitespace s) in
  if String.length d mod 4 =? 1 then None
  else
    match sextets d with
    | Some l => Some (bytesOf l)
    | None => None
    end.

(** Base64 without padding: three bytes give four characters, a last
    group of two bytes gives three and a last single byte gives two. *)
Fixpoint encodeGroups (s : string) : string :=
  match s with
  | String x (String y (String z s')) =>
      let n := (N_of_ascii x * 65536 + N_of_ascii y * 256 + N_of_ascii z)%N in
      String (encodeChar (n / 262144))
        (String (encodeChar ((n / 4096) mod 64))
           (String (encodeChar ((n / 64) mod 64))
              (String (encodeChar (n mod 64)) (encodeGroups s'))))
  | String x (String y EmptyString) =>
      let n := ((N_of_ascii x * 256 + N_of_ascii y) * 4)%N in
      String (encodeChar (n / 4096))
        (String (encodeChar ((n / 64) mod 64))
           (String (encodeChar (n mod 64)) ""))
  | String x EmptyString =>
      let n := (N_of_ascii x * 16)%N in
      String (encodeChar (n / 64)) (String (encodeChar (n mod 64)) "")
  | EmptyString => EmptyString
  end.

Definition padding (s : string) : string :=
  match String.length s mod 3 with
  | 0 => ""
  | 1 => "=="
  | _ => "="
  end.

(** [btoa(s)], the encoder the round-trip statements are written with. *)
Definition btoa (s : string) : string := (encodeGroups s ++ padding s)%string.

End Base64.

Import Base64.

(** ** The deobfuscator *)

(** [/^#h|\/\/_\/\/|(?:I[01UV]|[JQ][EF]|X[kl])(?:[A4][=hjk]|[B5][Ae])|(?:I[Sy]|[JQ]C|Xi)(?:[EMQ][=hjk]|[FNR][Ae])/g] *)
Definition TRASH_PATTERN : regex :=
  alt [ Cat Bol (lit "#h");
        lit "//_//";
        Cat (alt [ Cat (chr "I") (oneOf "01UV");
                   Cat (oneOf "JQ") (oneOf "EF");
                   Cat (chr "X") (oneOf "kl") ])
            (alt [ Cat (oneOf "A4") (oneOf "=hjk");
                   Cat (oneOf "B5") (oneOf "Ae") ]);
        Cat (alt [ Cat (chr "I") (oneOf "Sy");
                   Cat (oneOf "JQ") (chr "C");
                   Cat (chr "X") (chr "i") ])
            (alt [ Cat (oneOf "EMQ") (oneOf "=hjk");
                   Cat (oneOf "FNR") (oneOf "Ae") ]) ].

Definition clearTrash (trashString : string) : string :=
  let cleaned := remove_all TRASH_PATTERN trashString in
  let padded := (cleaned ++ "==")%string in
  match atob padded with
  | Some s => s
  | None =>
      match atob cleaned with
      | Some s => s
      | None => ""
      end
  end.

(** ** Numbers *)

Module Num.

(** A Number as this program meets it: NaN, an infinity, or a double whose
    value is an integer (zero has no sign here: the program only tests
    zeros for truthiness and sameness). *)
Inductive number : Type :=
| NaN
| Fin (z : Z)
| PosInf
| NegInf.

(** The double nearest to a non-negative integer, ties to even; integers
    from [2^1024 - 2^970] up round to infinity. *)
Definition roundNat (z : Z) : number :=
  if (z <? 2 ^ 53)%Z then Fin z
  else
    let e := (Z.log2 z - 52)%Z in
    let q := (z / 2 ^ e)%Z in
    let r := (z mod 2 ^ e)%Z in
    let half := (2 ^ (e - 1))%Z in
    let q' := if (half <? r)%Z || ((r =? half)%Z && Z.odd q)
              then (q + 1)%Z else q in
    let v := (q' * 2 ^ e)%Z in
    if (2 ^ 1024 <=? v)%Z then PosInf else Fin v.

Definition neg (x : number) : number :=
  match x with
  | NaN => NaN
  | Fin z => Fin (- z)
  | PosInf => NegInf
  | NegInf => PosInf
  end.

Definition ofZ (z : Z) : number :=
  if (z <? 0)%Z then neg (roundNat (- z)) else roundNat z.

(** [x - y] *)
Definition sub (x y : number) : number :=
  match x, y with
  | NaN, _ | _, NaN => NaN
  | Fin a, Fin b => ofZ (a - b)
  | Fin _, PosInf => NegInf
  | Fin _, NegInf => PosInf
  | PosInf, PosInf => NaN
  | PosInf, _ => PosInf
  | NegInf, NegInf => NaN
  | NegInf, _ => NegInf
  end.

(** Truthiness of a Number. *)
Definition toBoolean (x : number) : bool :=
  match x with
  | NaN => false
  | Fin z => negb (z =? 0)%Z
  | _ => true
  end.

(** [x || 0] *)
Definition orZero (x : number) : number := if toBoolean x then x else Fin 0.

(** [x > 0] *)
Definition isPositive (x : number) : bool :=
  match x with
  | Fin z => (0 <? z)%Z
  | PosInf => true
  | _ => false
  end.

(** SameValueZero on Numbers, as [Array.prototype.includes] compares. *)
Definition same (x y : number) : bool :=
  match x, y with
  | NaN, NaN => true
  | Fin a, Fin b => (a =? b)%Z
  | PosInf, PosInf => true
  | NegInf, NegInf => true
  | _, _ => false
  end.

(** [x <= y] *)
Definition leb (x y : number) : bool :=
  match x, y with
  | NaN, _ | _, NaN => false
  | NegInf, _ => true
  | _, PosInf => true
  | Fin a, Fin b => (a <=? b)%Z
  | _, _ => false
  end.

(** The value of a digit in radix 10 or 16. *)
Definition digitValue (radix : Z) (c : ascii) : option Z :=
  let n := Z.of_nat (nat_of_ascii c) in
  if ((48 <=? n) && (n <=? 57))%Z then Some (n - 48)%Z
  else if (radix =? 16)%Z then
    if ((97 <=? n) && (n <=? 102))%Z then Some (n - 87)%Z
    else if ((65 <=? n) && (n <=? 70))%Z then Some (n - 55)%Z
    else None
  else None.

(** Reads the longest prefix of digits; [None] when there is none. *)
Fixpoint readDigits (radix : Z) (s : string) (acc : option Z) : option Z :=
  match s with
  | EmptyString => acc
  | String c s' =>
      match digitValue radix c with
      | Some d =>
          readDigits radix s'
            (Some (match acc with
                   | Some a => a * radix + d
                   | None => d
                   end)%Z)
      | None => acc
      end
  end.

(** [parseInt(s)] with no radix argument.  The digits read are rounded to
    the nearest double, which is what engines do for decimal numerals of
    any length. *)
Definition parseInt (s : string) : number :=
  let s1 := Str.trimStart s in
  let '(negative, s2) :=
    match s1 with
    | String "-" t => (true, t)
    | String "+" t => (false, t)
    | _ => (false, s1)
    end in
  let '(radix, s3) :=
    match s2 with
    | String "0" (String "x" t) => (16%Z, t)
    | String "0" (String "X" t) => (16%Z, t)
    | _ => (10%Z, s2)
    end in
  match readDigits radix s3 None with
  | None => NaN
  | Some m => if negative then neg (roundNat m) else roundNat m
  end.

Fixpoint digitsOfPos (fuel : nat) (n : N) (acc : string) : string :=
  match fuel with
  | O => acc
  | S f =>
      let acc' := String (ascii_of_N (48 + n mod 10)) acc in
      if (n / 10 =? 0)%N then acc' else digitsOfPos f (n / 10)%N acc'
  end.

(** The decimal numeral of a natural number, as [ToString] writes array
    indices. *)
Definition showN (n : N) : string := digitsOfPos (S (N.to_nat (N.log2 n))) n "".

(** The decimal numeral of an integer, as a template literal writes an
    HTTP status. *)
Definition showZ (z : Z) : string :=
  if (z <? 0)%Z then String "-" (showN (Z.to_N (- z))) else showN (Z.to_N z).

(** The number of decimal digits of a positive integer. *)
Definition digitsOf (z : Z) : nat := String.length (showN (Z.to_N z)).

(** The decimal with the fewest significant digits that reads back as the
    double [x], a positive integer: the decimals with [k] significant
    digits that enclose [x] are tried for [k] from 1 on; of two that read
    back as [x] the nearer is taken, and of two equally near the one whose
    last digit is even.  [unit] is the weight of the last significant
    digit. *)
Fixpoint shortestFrom (fuel : nat) (unit x : Z) : Z :=
  match fuel with
  | O => x
  | S fuel' =>
      let lo := (x / unit * unit)%Z in
      let hi := (lo + unit)%Z in
      let okLo := same (roundNat lo) (Fin x) in
      let okHi := same (roundNat hi) (Fin x) in
      if okLo && okHi then
        if (x - lo <? hi - x)%Z then lo
        else if (hi - x <? x - lo)%Z then hi
        else if Z.even (lo / unit) then lo else hi
      else if okLo then lo
      else if okHi then hi
      else shortestFrom fuel' (unit / 10) x
  end.

Definition shortest (x : Z) : Z :=
  shortestFrom (digitsOf x) (10 ^ (Z.of_nat (digitsOf x) - 1)) x.

Fixpoint dropZeros (s : string) : string :=
  match s with
  | String "0" s' => dropZeros s'
  | _ => s
  end.

(** [Number::toString] on a double that is a positive integer: the digits
    of the shortest decimal, followed by zeros up to 21 digits in all, and
    in exponent form beyond. *)
Definition showPositive (x : Z) : string :=
  let ds := showN (Z.to_N (shortest x)) in
  let n := String.length ds in
  if n <=? 21 then ds
  else
    match Str.rev (dropZeros (Str.rev ds)) with
    | EmptyString => ds
    | String c EmptyString =>
        String c ("e+" ++ showN (N.of_nat (n - 1)))
    | String c more =>
        String c ("." ++ more ++ "e+" ++ showN (N.of_nat (n - 1)))
    end.

(** [String(x)] for a Number. *)
Definition showNumber (x : number) : string :=
  match x with
  | NaN => "NaN"
  | PosInf => "Infinity"
  | NegInf => "-Infinity"
  | Fin z =>
      if (z =? 0)%Z then "0"
      else if (z <? 0)%Z then String "-" (showPositive (- z))
      else showPositive z
  end.

End Num.

Import Num.

(** ** Objects used as dictionaries *)

Module Obj.

Section WithValue.
Variable V : Type.

(** Own properties in creation order. *)
Definition obj : Type := list (string * V).

Definition empty : obj := [].

(** [o[k]] for a key that is no member of [Object.prototype] (every key
    this program reads is a quality label taken from [Object.keys], the
    text [undefined], or a run of digits). *)
Fixpoint get (o : obj) (k : string) : option V :=
  match o with
  | [] => None
  | (k', v) :: o' => if String.eqb k k' then Some v else get o' k
  end.

Fixpoint put (o : obj) (k : string) (v : V) : obj :=
  match o with
  | [] => [(k, v)]
  | (k', v') :: o' =>
      if String.eqb k k' then (k', v) :: o' else (k', v') :: put o' k v
  end.

(** [o[k] = v] on an object created by a literal.  An existing property
    keeps its place; a new one goes last.  The key [__proto__] reaches the
    accessor inherited from [Object.prototype], which creates no own
    property (and ignores a primitive [v] altogether). *)
Definition set (o : obj) (k : string) (v : V) : obj :=
  if String.eqb k "__proto__" then o else put o k v.

(** An array index: the canonical numeral of an integer below [2^32 - 1]. *)
Definition arrayIndex (k : string) : option N :=
  match k with
  | EmptyString => None
  | String c k' =>
      if Str.isDigit c
         && forallb Str.isDigit (list_ascii_of_string k')
         && (negb (Ascii.eqb c "0") || Str.isEmpty k')
      then
        match readDigits 10 k None with
        | Some z => if (z <? 4294967295)%Z then Some (Z.to_N z) else None
        | None => None
        end
      else None
  end.

Fixpoint insertIndex (x : N * string) (l : list (N * string))
  : list (N * string) :=
  match l with
  | [] => [x]
  | y :: l' => if (fst x <? fst y)%N then x :: l else y :: insertIndex x l'
  end.

Fixpoint indexKeys (ks : list string) : list (N * string) :=
  match ks with
  | [] => []
  | k :: ks' =>
      match arrayIndex k with
      | Some n => insertIndex (n, k) (indexKeys ks')
      | None => indexKeys ks'
      end
  end.

Definition isIndexKey (k : string) : bool :=
  match arrayIndex k with Some _ => true | None => false end.

(** [Object.keys(o)]: array indices in ascending order, then the other
    keys in creation order. *)
Definition keys (o : obj) : list string :=
  let ks := map fst o in
  map snd (indexKeys ks) ++ filter (fun k => negb (isIndexKey k)) ks.

(** [Object.entries(o)] *)
Definition entries (o : obj) : list (string * V) :=
  flat_map (fun k => match get o k with
                     | Some v => [(k, v)]
                     | None => []
                     end) (keys o).

End WithValue.

Arguments empty {V}.

End Obj.

(** ** Sorting *)

Module Sort.

Section WithComparator.
Variable A : Type.
Variable compareFn : A -> A -> number.

(** [x] goes after [y] when [compareFn(x, y) > 0]; a NaN result counts as
    zero. *)
Definition after (x y : A) : bool := isPositive (compareFn x y).

Fixpoint insert (x : A) (l : list A) : list A :=
  match l with
  | [] => [x]
  | y :: l' => if after x y then y :: insert x l' else x :: l
  end.

(** [l.sort(compareFn)]: the stable order, which for a consistent
    comparator is the one every conforming engine produces. *)
Fixpoint sort (l : list A) : list A :=
  match l with
  | [] => []
  | x :: l' => insert x (sort l')
  end.

End WithComparator.

End Sort.

(** ** Values received from the network *)

(** A parsed JSON text; a number is an integer, which stands for the
    double nearest to it.  The fields of [JObj] are the own properties of the parsed
    object, in creation order, each key once. *)
Inductive json : Type :=
| JNull
| JBool (b : bool)
| JNum (n : Z)
| JStr (s : string)
| JArr (items : list json)
| JObj (fields : list (string * json)).

(** A value read from a property: [None] is [undefined]. *)
Definition value : Type := option json.

Definition truthy (v : value) : bool :=
  match v with
  | None => false
  | Some JNull => false
  | Some (JBool b) => b
  | Some (JNum n) => negb (n =? 0)%Z
  | Some (JStr s) => negb (Str.isEmpty s)
  | Some (JArr _) => true
  | Some (JObj _) => true
  end.

Fixpoint joinWith (sep : string) (l : list string) : string :=
  match l with
  | [] => ""
  | [x] => x
  | x :: l' => (x ++ sep ++ joinWith sep l')%string
  end.

(** [String(v)], the conversion [new Error(v)] applies to its message;
    [None] stands for the TypeError it throws.  An object is converted by
    the [toString] it has: the one of [Object.prototype], unless it has a
    property of its own under that name, which, coming from JSON, is no
    function; [valueOf] then returns the object itself and the conversion
    throws.  An array is converted by [join], element by element, [null]
    giving the empty string. *)
Fixpoint toString (v : json) : option string :=
  match v with
  | JNull => Some "null"
  | JBool true => Some "true"
  | JBool false => Some "false"
  | JNum n => Some (showNumber (ofZ n))
  | JStr s => Some s
  | JArr items =>
      (fix join (l : list json) : option string :=
         match l with
         | [] => Some ""
         | x :: l' =>
             match (match x with
                    | JNull => Some ""
                    | _ => toString x
                    end), l' with
             | Some text, [] => Some text
             | Some text, _ :: _ =>
                 match join l' with
                 | Some more => Some (text ++ "," ++ more)%string
                 | None => None
                 end
             | None, _ => None
             end
         end) items
  | JObj fields =>
      match Obj.get fields "toString" with
      | Some _ => None
      | None => Some "[object Object]"
      end
  end.

Inductive exn : Type :=
| Error (message : string)   (* [new Error(message)] *)
| TypeError                  (* thrown by the engine *)
| SyntaxError                (* thrown by [response.json()] *)
| NetworkError.              (* a rejected [fetch] *)

Inductive result (A : Type) : Type :=
| Return (a : A)
| Throw (e : exn).

Arguments Return {A} a.
Arguments Throw {A} e.

(** What [throw new Error(v)] throws: the error with [String(v)] as its
    message, or the TypeError of the conversion. *)
Definition newError (v : json) : exn :=
  match toString v with
  | Some text => Error text
  | None => TypeError
  end.

(** A field of a form body, before [URLSearchParams] renders it. *)
Inductive formValue : Type :=
| FStr (s : string)
| FNum (n : number)
| FNull.

Inductive outbound : Type :=
| GET (url : string)
| POST (url : string) (form : list (string * formValue)).

(** What the upstream answered: the status, the body as text, and the
    body as JSON when it parses as such. *)
Record reply : Type := Reply {
  status : Z;
  text : string;
  json_body : option json
}.

(** [response.ok] *)
Definition ok (r : reply) : bool := (200 <=? status r)%Z && (status r <=? 299)%Z.

(** The network: for each request, a reply, or [None] when [fetch]
    rejects. *)
Definition world : Type := outbound -> option reply.

(** Computations that may throw and that record the requests they send. *)
Definition M (A : Type) : Type := world -> result A * list outbound.

Definition ret {A} (a : A) : M A := fun _ => (Return a, []).
Definition throw {A} (e : exn) : M A := fun _ => (Throw e, []).
Definition bind {A B} (m : M A) (k : A -> M B) : M B :=
  fun w =>
    match m w with
    | (Return a, t) => let '(r, t') := k a w in (r, (t ++ t')%list)
    | (Throw e, t) => (Throw e, t)
    end.
Definition fetch (req : outbound) : M reply :=
  fun w =>
    match w req with
    | Some r => (Return r, [req])
    | None => (Throw NetworkError, [req])
    end.

Notation "x <- m ;; k" := (bind m (fun x => k))
  (at level 61, m at next level, right associativity).

(** [data.name]: reading a property of [null] throws; the names read here
    exist on no primitive wrapper, array or prototype. *)
Definition member (data : json) (name : string) : M value :=
  match data with
  | JNull => throw TypeError
  | JObj fields => ret (Obj.get fields name)
  | _ => ret None
  end.

(** [response.json()] *)
Definition responseJson (r : reply) : M json :=
  match json_body r with
  | Some j => ret j
  | None => throw SyntaxError
  end.

Definition quote : ascii := "034"%char.

(** [name="value"], as it stands in markup. *)
Definition attr (name val : string) : string :=
  (name ++ "=" ++ String quote val ++ String quote "")%string.

Definition HDREZKA_MIRROR : string := "https://hdrezka.me".

(** ** The stream-payload parser *)

(** [/^\[([^\]]+)\](.+)$/] *)
Definition partRegex : regex :=
  cat [ Bol; chr "["; Group 1 (plus true (noneOf "]")); chr "]";
        Group 2 (plus true dot); Eol ].

(** The body of the loop over [parts]. *)
Definition addPart (urls : Obj.obj string) (part : string) : Obj.obj string :=
  match exec partRegex part with
  | Some m =>
      let quality := group 1 m in
      let urlPart := group 2 m in
      let urlOptions := Str.split " or " urlPart in
      match find (Str.endsWith ".m3u8") urlOptions with
      | Some url => Obj.set urls quality url
      | None => urls
      end
  | None => urls
  end.

(** The part of [parseVideoUrls] that follows the call of [clearTrash]. *)
Definition parseDecoded (decoded : string) : Obj.obj string :=
  fold_left addPart (Str.split "," decoded) Obj.empty.

Definition parseVideoUrls (data : string) : Obj.obj string :=
  parseDecoded (clearTrash data).

(** ** Subtitles *)

Record Subtitle : Type := MkSubtitle {
  lang : string;
  name : json;
  url : json
}.

Fixpoint indexed {A} (i : N) (l : list A) : list (string * A) :=
  match l with
  | [] => []
  | x :: l' => (showN i, x) :: indexed (i + 1) l'
  end.

(** [Object.entries(v)] for a truthy value of the envelope. *)
Definition jsonEntries (v : json) : list (string * json) :=
  match v with
  | JObj fields => Obj.entries fields
  | JArr items => indexed 0 items
  | JStr s =>
      indexed 0 (map (fun c => JStr (String c "")) (list_ascii_of_string s))
  | _ => []
  end.

Definition parseSubtitles (subtitleData subtitleLns : value) : list Subtitle :=
  if truthy subtitleData && truthy subtitleLns then
    match subtitleData, subtitleLns with
    | Some data, Some lns =>
        flat_map
          (fun '(code, name) =>
             if negb (String.eqb code "off") && truthy subtitleData
             then [MkSubtitle code name data]
             else [])
          (jsonEntries lns)
    | _, _ => []
    end
  else [].

(** ** The content-info extractor *)

Record Translator : Type := MkTranslator {
  translator_id : number;
  translator_name : string
}.

Record ContentInfo : Type := MkContentInfo {
  id : option string;
  translatorId : option string;
  isSeries : bool;
  translators : list Translator;
  seasons : Obj.obj (list number)
}.

(** [/data-id="(\d+)"/] *)
Definition idRegex : regex :=
  cat [ lit "data-id="; chr quote; Group 1 (plus true digit); chr quote ].

(** [/data-translator_id="(\d+)"/] *)
Definition translatorRegex : regex :=
  cat [ lit "data-translator_id="; chr quote; Group 1 (plus true digit);
        chr quote ].

(** [/data-translator_id="(\d+)"[^>]*>([^<]+)</g] *)
Definition transRegex : regex :=
  cat [ lit "data-translator_id="; chr quote; Group 1 (plus true digit);
        chr quote; Star true (noneOf ">"); chr ">";
        Group 2 (plus true (noneOf "<")); chr "<" ].

(** [/data-season_id="(\d+)"[^>]*data-episode_id="(\d+)"/g] *)
Definition episodeRegex : regex :=
  cat [ lit "data-season_id="; chr quote; Group 1 (plus true digit);
        chr quote; Star true (noneOf ">"); lit "data-episode_id=";
        chr quote; Group 2 (plus true digit); chr quote ].

(** [m ? m[1] : null] *)
Definition firstGroup (m : option found) : option string :=
  match m with
  | Some f => Some (group 1 f)
  | None => None
  end.

(** The body of the loop over the matches of [episodeRegex]. *)
Definition addEpisode (seasons : Obj.obj (list number)) (epMatch : found)
  : Obj.obj (list number) :=
  let seasonId := group 1 epMatch in
  let episodeId := parseInt (group 2 epMatch) in
  let seasons :=
    match Obj.get seasons seasonId with
    | Some _ => seasons
    | None => Obj.set seasons seasonId []
    end in
  match Obj.get seasons seasonId with
  | Some episodes =>
      if existsb (same episodeId) episodes then seasons
      else Obj.set seasons seasonId (episodes ++ [episodeId])%list
  | None => seasons
  end.

(** The part of [getContentInfo] that follows [response.text()]. *)
Definition pageInfo (url html : string) : ContentInfo :=
  let contentId := firstGroup (exec idRegex html) in
  let translatorId := firstGroup (exec translatorRegex html) in
  let isSeries :=
    Str.includes "sof.tv" html || Str.includes "data-season_id" html
    || Str.includes "/series/" url in
  let translators :=
    map (fun m => MkTranslator (parseInt (group 1 m)) (Str.trim (group 2 m)))
        (exec_all transRegex html) in
  let seasons :=
    if isSeries
    then fold_left addEpisode (exec_all episodeRegex html) Obj.empty
    else Obj.empty in
  MkContentInfo contentId translatorId isSeries translators seasons.

Definition getContentInfo (url : string) : M ContentInfo :=
  response <- fetch (GET url) ;;
  if negb (ok response) then
    throw (Error ("Failed to fetch page: " ++ showZ (status response))%string)
  else
    ret (pageInfo url (text response)).

(** ** The stream fetcher *)

Record StreamResult : Type := MkStreamResult {
  stream_url : string;
  qualities : list string;
  subtitles : list Subtitle;
  all_urls : Obj.obj string
}.

(** [parseInt(a) || 0] *)
Definition qualityValue (a : string) : number := orZero (parseInt a).

(** The comparator handed to [sort]. *)
Definition byQuality (a b : string) : number :=
  let aNum := qualityValue a in
  let bNum := qualityValue b in
  sub aNum bNum.

(** [a[a.length - 1]]; [None] is [undefined]. *)
Definition lastOf {A} (l : list A) : option A := List.last (map Some l) None.

(** The property key an expression [o[q]] uses. *)
Definition propertyKey (q : option string) : string :=
  match q with
  | Some k => k
  | None => "undefined"
  end.

(** The form body of the request. *)
Definition streamForm (contentId : string) (translatorId : option string)
    (season episode : option number) : list (string * formValue) :=
  let formData :=
    [ ("id", FStr contentId);
      ("translator_id",
       match translatorId with Some t => FStr t | None => FNull end) ] in
  match season, episode with
  | Some s, Some e =>
      (formData ++ [ ("action", FStr "get_stream"); ("season", FNum s);
                     ("episode", FNum e) ])%list
  | _, _ => (formData ++ [ ("action", FStr "get_movie") ])%list
  end.

(** [data.url ? parseVideoUrls(data.url) : {}]; a truthy value that is no
    string has no [replace] method, and calling it throws. *)
Definition videoUrlsOf (u : value) : M (Obj.obj string) :=
  if truthy u then
    match u with
    | Some (JStr s) => ret (parseVideoUrls s)
    | _ => throw TypeError
    end
  else ret Obj.empty.

(** The part of [getStream] that follows the envelope check. *)
Definition streamResult (videoUrls : Obj.obj string) (subtitles : list Subtitle)
  : StreamResult :=
  let qualities := Sort.sort byQuality (Obj.keys videoUrls) in
  let bestQuality := lastOf qualities in
  let streamUrl :=
    match Obj.get videoUrls (propertyKey bestQuality) with
    | Some u => if Str.isEmpty u then "" else u
    | None => ""
    end in
  MkStreamResult streamUrl qualities subtitles videoUrls.

Definition getStream (contentId : string) (translatorId : option string)
    (season episode : option number) : M StreamResult :=
  response <- fetch (POST (HDREZKA_MIRROR ++ "/ajax/get_cdn_series/")%string
                          (streamForm contentId translatorId season episode)) ;;
  if negb (ok response) then
    throw (Error ("AJAX request failed: " ++ showZ (status response))%string)
  else
    data <- responseJson response ;;
    success <- member data "success" ;;
    if negb (truthy success)
       && match success with Some _ => true | None => false end
    then
      message <- member data "message" ;;
      throw (match message with
             | Some m => if truthy message then newError m
                         else Error "AJAX request failed"
             | None => Error "AJAX request failed"
             end)
    else
      u <- member data "url" ;;
      videoUrls <- videoUrlsOf u ;;
      subtitle <- member data "subtitle" ;;
      subtitle_lns <- member data "subtitle_lns" ;;
      ret (streamResult videoUrls (parseSubtitles subtitle subtitle_lns)).

(** ** Search *)

Inductive ContentType : Type := movie | series.

Record SearchResult : Type := MkSearchResult {
  result_url : string;
  title : string;
  type : ContentType;
  year : option string;
  poster : string
}.

Definition hexDigit (n : N) : ascii :=
  if (n <? 10)%N then ascii_of_N (48 + n) else ascii_of_N (55 + n).

Definition percent (n : N) : string :=
  String "%" (String (hexDigit (n / 16)) (String (hexDigit (n mod 16)) "")).

Definition isUnreserved (c : ascii) : bool :=
  let n := nat_of_ascii c in
  ((65 <=? n) && (n <=? 90)) || ((97 <=? n) && (n <=? 122))
  || Str.isDigit c || Str.mem c "-_.!~*'()".

(** [encodeURIComponent(s)]: the UTF-8 bytes of every reserved code unit,
    percent-escaped. *)
Fixpoint encodeURIComponent (s : string) : string :=
  match s with
  | EmptyString => EmptyString
  | String c s' =>
      let n := N_of_ascii c in
      ((if isUnreserved c then String c ""
        else if (n <? 128)%N then percent n
        else percent (192 + n / 64) ++ percent (128 + n mod 64))
       ++ encodeURIComponent s')%string
  end.

(** The literal [itemRegex] of [searchContent], piece by piece: the opening
    tag of an item with its [data-url] (group 1), lazily on to the [img]
    tag and its [src] (group 2), lazily on to the link block and the text of
    its anchor (group 3), lazily on to the first [div] without attributes
    and its text (group 4), which may be empty. *)
Definition itemRegex : regex :=
  let notQuote := Class (fun c => negb (Ascii.eqb c quote)) in
  cat [ lit "<div class="; chr quote; lit "b-content__inline_item"; chr quote;
        Star true (noneOf ">"); lit "data-url="; chr quote;
        Group 1 (plus true notQuote); chr quote;
        Star true (noneOf ">"); chr ">";
        Star false anyChar;
        lit "<img"; Star true (noneOf ">"); lit "src="; chr quote;
        Group 2 (plus true notQuote); chr quote;
        Star false anyChar;
        lit "<div class="; chr quote; lit "b-content__inline_item-link";
        chr quote; chr ">";
        Star true space; lit "<a"; Star true (noneOf ">"); chr ">";
        Group 3 (plus true (noneOf "<")); lit "</a>";
        Star false anyChar;
        lit "<div>"; Group 4 (Star true (noneOf "<")); lit "</div>" ].

(** [/(\d{4})/] *)
Definition yearRegex : regex :=
  Group 1 (cat [ digit; digit; digit; digit ]).

(** The type of an entry, from its URL. *)
Definition contentTypeOf (url : string) : ContentType :=
  if Str.includes "/series/" url then series
  else if Str.includes "/cartoons/" url then
    (if Str.includes "-sezon" url then series else movie)
  else movie.

(** The body of the loop over the matches of [itemRegex]. *)
Definition resultOf (m : found) : SearchResult :=
  let url := group 1 m in
  let poster := group 2 m in
  let title := Str.trim (group 3 m) in
  let info := Str.trim (group 4 m) in
  let year := firstGroup (exec yearRegex info) in
  MkSearchResult url title (contentTypeOf url) year poster.

Definition searchContent (query : string) : M (list SearchResult) :=
  let searchUrl :=
    (HDREZKA_MIRROR ++ "/search/?do=search&subaction=search&q="
       ++ encodeURIComponent query)%string in
  response <- fetch (GET searchUrl) ;;
  if negb (ok response) then
    throw (Error ("Search failed: " ++ showZ (status response))%string)
  else
    ret (map resultOf (exec_all itemRegex (text response))).

(** ** The request handler *)

Record Request : Type := MkRequest {
  method : string;
  pathname : string;
  searchParams : list (string * string)
}.

(** [url.searchParams.get(name)]; [None] is [null]. *)
Fixpoint param (name : string) (ps : list (string * string)) : option string :=
  match ps with
  | [] => None
  | (k, v) :: ps' => if String.eqb k name then Some v else param name ps'
  end.

(** Truthiness of a string or [null]. *)
Definition given (p : option string) : bool :=
  match p with
  | Some s => negb (Str.isEmpty s)
  | None => false
  end.

(** The JSON bodies the worker writes, before serialisation. *)
Inductive Payload : Type :=
| NoBody
| Health                                     (* status ok, service alphy-worker *)
| Failure (error : string)
| Caught (error : exn)                       (* error: error.message *)
| SearchResults (query : string) (results : list SearchResult)
| Content (url : string) (translations : list Translator)
    (seasons : Obj.obj (list number)) (is_series : bool)
| Stream (stream : StreamResult).

(** A response; every one carries the CORS headers. *)
Record Response : Type := MkResponse {
  code : Z;
  payload : Payload
}.

(** [s ? parseInt(s) : null] *)
Definition optInt (p : option string) : option number :=
  match p with
  | Some s => if given p then Some (parseInt s) else None
  | None => None
  end.

(** The body of the [try] block. *)
Definition route (request : Request) : M Response :=
  let path := pathname request in
  let q := searchParams request in
  if String.eqb path "/health" || String.eqb path "/" then
    ret (MkResponse 200 Health)
  else if String.eqb path "/api/search" then
    match param "q" q with
    | Some query =>
        if Str.isEmpty query
        then ret (MkResponse 400 (Failure "Missing query parameter"))
        else
          results <- searchContent query ;;
          ret (MkResponse 200 (SearchResults query results))
    | None => ret (MkResponse 400 (Failure "Missing query parameter"))
    end
  else if String.eqb path "/api/content" then
    match param "url" q with
    | Some contentUrl =>
        if Str.isEmpty contentUrl
        then ret (MkResponse 400 (Failure "Missing url parameter"))
        else
          info <- getContentInfo contentUrl ;;
          ret (MkResponse 200
                 (Content contentUrl (translators info) (seasons info)
                    (isSeries info)))
    | None => ret (MkResponse 400 (Failure "Missing url parameter"))
    end
  else if String.eqb path "/api/stream" then
    let season := param "season" q in
    let episode := param "episode" q in
    let requested := param "translator_id" q in
    match param "url" q with
    | Some contentUrl =>
        if Str.isEmpty contentUrl
        then ret (MkResponse 400 (Failure "Missing url parameter"))
        else
          info <- getContentInfo contentUrl ;;
          match id info with
          | Some contentId =>
              if Str.isEmpty contentId
              then ret (MkResponse 404 (Failure "Could not find content ID"))
              else
                let tid :=
                  if given requested then requested
                  else translatorId info in
                stream <- getStream contentId tid (optInt season)
                            (optInt episode) ;;
                ret (MkResponse 200 (Stream stream))
          | None => ret (MkResponse 404 (Failure "Could not find content ID"))
          end
    | None => ret (MkResponse 400 (Failure "Missing url parameter"))
    end
  else ret (MkResponse 404 (Failure "Not found")).

(** [fetch(request, env, ctx)]: the response and the requests sent
    upstream, in order. *)
Definition handle (request : Request) (w : world) : Response * list outbound :=
  if String.eqb (method request) "OPTIONS" then (MkResponse 200 NoBody, [])
  else
    match route request w with
    | (Return r, sent) => (r, sent)
    | (Throw error, sent) => (MkResponse 500 (Caught error), sent)
    end.

(** * Notions used in the statements *)

(** A URL the player accepts. *)
Definition playable (u : string) : Prop := Str.endsWith ".m3u8" u = true.

(** [a] does not exceed [b] in the order of a numeric key. *)
Definition keyLe {A : Type} (key : A -> number) (a b : A) : Prop :=
  leb (key a) (key b) = true.

(** An upstream that answers every page request with [page] and every
    AJAX request with [envelope], both under [status]. *)
Definition upstream (status : Z) (page : string) (envelope : option json)
  : world :=
  fun req =>
    match req with
    | GET _ => Some (Reply status page None)
    | POST _ _ => Some (Reply status "" envelope)
    end.

(** An envelope that carries [token] as its obfuscated URL data. *)
Definition envelopeOf (token : string) : json :=
  JObj [("success", JBool true); ("url", JStr token)].

(** The envelope carries an explicit failure flag: a [success] property
    that is defined and falsy. *)
Definition failureFlag (data : json) : bool :=
  match data with
  | JObj fields =>
      match Obj.get fields "success" with
      | Some v => negb (truthy (Some v))
      | None => false
      end
  | _ => false
  end.

(** The text of a message that converts to a string without more ado: a
    string is its own text, a number is written as [String] writes it,
    and so are the booleans and [null]; an array or an object has none
    here. *)
Definition plainText (m : json) : option string :=
  match m with
  | JNull => Some "null"
  | JBool true => Some "true"
  | JBool false => Some "false"
  | JNum n => Some (showNumber (ofZ n))
  | JStr text => Some text
  | JArr _ | JObj _ => None
  end.

(** A value whose conversion to a string throws: an object with a
    property of its own named [toString], or an array that holds such a
    value. *)
Fixpoint unprintable (m : json) : bool :=
  match m with
  | JObj fields =>
      match Obj.get fields "toString" with
      | Some _ => true
      | None => false
      end
  | JArr items =>
      (fix any (l : list json) : bool :=
         match l with
         | [] => false
         | x :: l' => unprintable x || any l'
         end) items
  | _ => false
  end.

(** What is thrown for a flagged envelope: an error that carries the
    [message] of the envelope, converted to a string, when that message is
    truthy and can be converted; the TypeError of the conversion when it
    cannot; an error with a fixed text when the message is falsy or
    missing. *)
Definition rejection (data : json) : exn :=
  match data with
  | JObj fields =>
      match Obj.get fields "message" with
      | Some m =>
          if truthy (Some m) then
            match toString m with
            | Some text => Error text
            | None => TypeError
            end
          else Error "AJAX request failed"
      | None => Error "AJAX request failed"
      end
  | _ => Error "AJAX request failed"
  end.

(** The envelope carries URL data that is truthy and not a string. *)
Definition malformedUrl (data : json) : bool :=
  match data with
  | JObj fields =>
      match Obj.get fields "url" with
      | Some (JStr _) => false
      | u => truthy u
      end
  | _ => false
  end.

(** The quality mapping an accepted envelope yields. *)
Definition envelopeUrls (data : json) : Obj.obj string :=
  match data with
  | JObj fields =>
      match Obj.get fields "url" with
      | Some (JStr s) => if Str.isEmpty s then Obj.empty else parseVideoUrls s
      | _ => Obj.empty
      end
  | _ => Obj.empty
  end.

(** The subtitle tracks an accepted envelope yields. *)
Definition envelopeSubtitles (data : json) : list Subtitle :=
  match data with
  | JObj fields =>
      parseSubtitles (Obj.get fields "subtitle") (Obj.get fields "subtitle_lns")
  | _ => []
  end.

(** The request [getStream] sends. *)
Definition streamRequest (contentId : string) (translatorId : option string)
    (season episode : option number) : outbound :=
  POST "https://hdrezka.me/ajax/get_cdn_series/"
       (streamForm contentId translatorId season episode).

(** What a regex can do from a state, declaratively: [Reach r st st']
    says that [r] can match from [st] and leave the matcher in [st']. *)
Inductive Reach : regex -> mstate -> mstate -> Prop :=
| ReachEps st : Reach Eps st st
| ReachClass p st c s' :
    rest st = String c s' -> p c = true ->
    Reach (Class p) st (MState (S (pos st)) s' (caps st))
| ReachCat r1 r2 st st1 st2 :
    Reach r1 st st1 -> Reach r2 st1 st2 -> Reach (Cat r1 r2) st st2
| ReachOrL r1 r2 st st' : Reach r1 st st' -> Reach (Or r1 r2) st st'
| ReachOrR r1 r2 st st' : Reach r2 st st' -> Reach (Or r1 r2) st st'
| ReachStarStop g r st : Reach (Star g r) st st
| ReachStarStep g r st st1 st2 :
    Reach r st st1 -> pos st < pos st1 -> Reach (Star g r) st1 st2 ->
    Reach (Star g r) st st2
| ReachGroup i r st st1 :
    Reach r st st1 ->
    Reach (Group i r) st
      (MState (pos st1) (rest st1)
         ((i, Str.take (pos st1 - pos st) (rest st)) :: caps st1))
| ReachBol st : pos st = 0 -> Reach Bol st st
| ReachEol st : rest st = "" -> Reach Eol st st.

(** All characters of a string satisfy [p]. *)
Fixpoint allChars (p : ascii -> bool) (s : string) : bool :=
  match s with
  | EmptyString => true
  | String c s' => p c && allChars p s'
  end.

(** The first character, if any, satisfies [p]. *)
Definition headIs (p : ascii -> bool) (s : string) : bool :=
  match s with
  | EmptyString => false
  | String c _ => p c
  end.

(** The (season, episode) pairs the scan of a page meets, in document
    order. *)
Definition scannedPairs (html : string) : list (string * number) :=
  map (fun m => (group 1 m, parseInt (group 2 m)))
      (exec_all episodeRegex html).

(** The episodes met under one season, in document order. *)
Definition episodesOf (season : string) (pairs : list (string * number))
  : list number :=
  map snd (filter (fun p => String.eqb (fst p) season) pairs).

(** Each value once, at the place of its first appearance. *)
Fixpoint firstAppearances (l : list number) : list number :=
  match l with
  | [] => []
  | x :: l' => x :: filter (fun y => negb (same y x)) (firstAppearances l')
  end.

(** [if (!l.includes(x)) l.push(x)] *)
Definition pushNew (l : list number) (x : number) : list number :=
  if existsb (same x) l then l else l ++ [x].

(** The first run of four digits of a text: the leftmost place where four
    digits stand in a row, if there is one. *)
Fixpoint firstFourDigits (s : string) : option string :=
  if (String.length (Str.take 4 s) =? 4) && allChars Str.isDigit (Str.take 4 s)
  then Some (Str.take 4 s)
  else
    match s with
    | EmptyString => None
    | String _ s' => firstFourDigits s'
    end.

(** The URL [searchContent] fetches. *)
Definition searchRequest (query : string) : outbound :=
  GET ("https://hdrezka.me/search/?do=search&subaction=search&q="
         ++ encodeURIComponent query).

(** A search page with one item. *)
Definition sampleItem (url info : string) : string :=
  ("<div class=" ++ String quote "b-content__inline_item" ++ String quote " "
     ++ attr "data-url" url ++ "><img " ++ attr "src" "p.jpg"
     ++ "/><div class=" ++ String quote "b-content__inline_item-link"
     ++ String quote "> <a href=x> Title </a> <div>" ++ info
     ++ "</div></div></div>")%string.

(** A character of the base64 alphabet. *)
Definition isAlphabet (c : ascii) : bool :=
  match sextet c with
  | Some _ => true
  | None => false
  end.

(** The body of [atob] after the padding step. *)
Definition decodeBody (d : string) : option string :=
  match sextets d with
  | Some l => Some (bytesOf l)
  | None => None
  end.

(** Every string made of one item of [xs] followed by one of [ys]. *)
Definition pairsOf (xs ys : list string) : list string :=
  flat_map (fun x => map (fun y => (x ++ y)%string) ys) xs.

(** The junk markers that may stand anywhere in a token: the strings the
    pattern denotes, its [#h] alternative apart. *)
Definition junkMarkers : list string :=
  ("//_//"
   :: pairsOf ["I0"; "I1"; "IU"; "IV"; "JE"; "JF"; "QE"; "QF"; "Xk"; "Xl"]
              ["A="; "Ah"; "Aj"; "Ak"; "4="; "4h"; "4j"; "4k";
               "BA"; "Be"; "5A"; "5e"]
   ++ pairsOf ["IS"; "Iy"; "JC"; "QC"; "Xi"]
              ["E="; "Eh"; "Ej"; "Ek"; "M="; "Mh"; "Mj"; "Mk";
               "Q="; "Qh"; "Qj"; "Qk"; "FA"; "Fe"; "NA"; "Ne";
               "RA"; "Re"])%list.

(** A junk marker stands at the head of [s]. *)
Definition markerAt (s : string) : bool :=
  existsb (fun m => Str.startsWith m s) junkMarkers.

(** A token as the upstream builds it: pieces of text with junk markers
    put in between. *)
Inductive piece : Type :=
| Text (s : string)
| Junk (m : string).

Fixpoint assemble (ps : list piece) : string :=
  match ps with
  | [] => ""
  | Text s :: ps' => (s ++ assemble ps')%string
  | Junk m :: ps' => (m ++ assemble ps')%string
  end.

Fixpoint clearText (ps : list piece) : string :=
  match ps with
  | [] => ""
  | Text s :: ps' => (s ++ clearText ps')%string
  | Junk _ :: ps' => clearText ps'
  end.

(** No junk marker begins at a place of the text [x], read on into what
    follows it in the token. *)
Fixpoint markerFree (x rest : string) : bool :=
  match x with
  | EmptyString => true
  | String _ x' => negb (markerAt (x ++ rest)) && markerFree x' rest
  end.

(** The junk pieces are junk markers, and no junk marker begins inside a
    text piece: the markers of the token are the ones put in. *)
Fixpoint interspersed (ps : list piece) : bool :=
  match ps with
  | [] => true
  | Text x :: ps' => markerFree x (assemble ps') && interspersed ps'
  | Junk m :: ps' => existsb (String.eqb m) junkMarkers && interspersed ps'
  end.

(** A segment of a decoded payload, as the spec describes it: a quality
    label with its alternatives, or some other text. *)
Inductive segment : Type :=
| Tagged (quality : string) (alternatives : list string)
| Untagged (text : string).

Definition renderSegment (g : segment) : string :=
  match g with
  | Tagged q alts => ("[" ++ q ++ "]" ++ joinWith " or " alts)%string
  | Untagged s => s
  end.

(** The decoded payload that holds the segments [gs]. *)
Definition renderSegments (gs : list segment) : string :=
  joinWith "," (map renderSegment gs).

(** A quality label: not empty, with no closing bracket and no comma. *)
Definition isQuality (q : string) : bool :=
  negb (Str.isEmpty q) && allChars (fun c => negb (Str.mem c "],")) q.

(** An alternative: not empty, with no comma, space or line break. *)
Definition isAlternative (u : string) : bool :=
  negb (Str.isEmpty u)
  && allChars (fun c => negb (Str.mem c ", ") && negb (isLineTerminator c)) u.

Definition wellFormedSegment (g : segment) : bool :=
  match g with
  | Tagged q alts =>
      isQuality q
      && match alts with [] => false | _ :: _ => true end
      && forallb isAlternative alts
  | Untagged s =>
      allChars (fun c => negb (Str.mem c ",")) s && negb (Str.startsWith "[" s)
  end.

(** The URL the mapping holds for [q]: the first alternative ending in
    [.m3u8] of the last segment that is tagged [q] and has one. *)
Fixpoint chosen (q : string) (gs : list segment) : option string :=
  match gs with
  | [] => None
  | g :: gs' =>
      match chosen q gs' with
      | Some u => Some u
      | None =>
          match g with
          | Tagged q' alts =>
              if String.eqb q' q then find (Str.endsWith ".m3u8") alts
              else None
          | Untagged _ => None
          end
      end
  end.

(** The text up to the first closing bracket, and the text from there on. *)
Fixpoint untilBracket (s : string) : string * string :=
  match s with
  | EmptyString => ("", "")
  | String c s' =>
      if Ascii.eqb c "]" then ("", s)
      else let '(a, b) := untilBracket s' in (String c a, b)
  end.

(** The shape [[quality]rest] of a segment, as the spec puts it: an
    opening bracket, a non-empty label up to the first closing bracket,
    and a non-empty rest that holds no line break. *)
Definition shapeOf (part : string) : option (string * string) :=
  match part with
  | String "[" t =>
      match untilBracket t with
      | (q, String "]" r) =>
          if negb (Str.isEmpty q) && negb (Str.isEmpty r)
             && allChars (fun c => negb (isLineTerminator c)) r
          then Some (q, r) else None
      | _ => None
      end
  | _ => None
  end.

(** The URL the mapping holds for [q] after the parts of a decoded string
    were read in order: that of the last part of the shape [[q]rest]
    whose rest has an alternative ending in [.m3u8], the first such
    alternative. *)
Fixpoint lastChosen (q : string) (parts : list string) : option string :=
  match parts with
  | [] => None
  | part :: parts' =>
      match lastChosen q parts' with
      | Some u => Some u
      | None =>
          match shapeOf part with
          | Some (q', rest) =>
              if String.eqb q' q
              then find (Str.endsWith ".m3u8") (Str.split " or " rest)
              else None
          | None => None
          end
      end
  end.

(** [form.get(name)]: the first value appended under [name]. *)
Fixpoint formGet (name : string) (form : list (string * formValue))
  : option formValue :=
  match form with
  | [] => None
  | (k, v) :: form' => if String.eqb k name then Some v else formGet name form'
  end.

(** The query parameter an API path cannot do without. *)
Definition requiredParam (path : string) : option string :=
  if String.eqb path "/api/search" then Some "q"
  else if String.eqb path "/api/content" || String.eqb path "/api/stream"
  then Some "url"
  else None.

(** The first request an API path sends for the value [v] of its required
    parameter. *)
Definition firstOutbound (path v : string) : outbound :=
  if String.eqb path "/api/search" then searchRequest v else GET v.

(** The payloads that report an error. *)
Definition isErrorPayload (p : Payload) : bool :=
  match p with
  | Failure _ | Caught _ => true
  | _ => false
  end.

(** The value of an upper-case hexadecimal digit. *)
Definition hexValue (c : ascii) : option N :=
  let n := N_of_ascii c in
  if Str.isDigit c then Some (n - 48)%N
  else if ((65 <=? n) && (n <=? 70))%N then Some (n - 55)%N
  else None.

(** A left inverse of [encodeURIComponent]: it reads the escapes back,
    one byte for a code unit below 128 and two for the others. *)
Fixpoint unescapeComponent (s : string) : option string :=
  match s with
  | EmptyString => Some EmptyString
  | String c s' =>
      if Ascii.eqb c "%" then
        match s' with
        | String h (String l rest) =>
            match hexValue h, hexValue l with
            | Some a, Some b =>
                let n := (16 * a + b)%N in
                if (n <? 128)%N
                then option_map (String (ascii_of_N n)) (unescapeComponent rest)
                else
                  match rest with
                  | String c2 (String h2 (String l2 rest2)) =>
                      match hexValue h2, hexValue l2 with
                      | Some a2, Some b2 =>
                          if Ascii.eqb c2 "%" then
                            option_map
                              (String (ascii_of_N ((n - 192) * 64
                                                   + (16 * a2 + b2 - 128))))
                              (unescapeComponent rest2)
                          else None
                      | _, _ => None
                      end
                  | _ => None
                  end
            | _, _ => None
            end
        | _ => None
        end
      else option_map (String c) (unescapeComponent s')
  end.

(** The characters [encodeURIComponent] writes: the unreserved ones and
    the percent sign. *)
Definition isComponentChar (c : ascii) : bool :=
  isUnreserved c || Ascii.eqb c "%".

(** What [encodeURIComponent] writes for one code unit. *)
Definition escapeOf (c : ascii) : string :=
  let n := N_of_ascii c in
  if isUnreserved c then String c ""
  else if (n <? 128)%N then percent n
  else (percent (192 + n / 64) ++ percent (128 + n mod 64))%string.

(** A label the quality mapping can hold: not empty, not [__proto__],
    with no closing bracket and no comma. *)
Definition isStoredLabel (q : string) : bool :=
  negb (Str.isEmpty q) && negb (String.eqb q "__proto__")
  && allChars (fun c => negb (Str.mem c "],")) q.

(** A URL the quality mapping can hold: it ends in [.m3u8] and holds no
    comma and no line break. *)
Definition isStoredUrl (u : string) : bool :=
  Str.endsWith ".m3u8" u
  && allChars (fun c => negb (Ascii.eqb c ",") && negb (isLineTerminator c)) u.

(** The value of a run of decimal digits. *)
Fixpoint decimalFrom (s : string) (acc : Z) : Z :=
  match s with
  | EmptyString => acc
  | String c s' =>
      decimalFrom s' (acc * 10 + (Z.of_nat (nat_of_ascii c) - 48))%Z
  end.

Definition decimal (s : string) : Z := decimalFrom s 0.

(** A Number that counts something: a non-negative integer, or the
    infinity a numeral too large for a double is read as. *)
Definition isCount (x : number) : bool :=
  match x with
  | Fin z => (0 <=? z)%Z
  | PosInf => true
  | _ => false
  end.

(** The pattern of an attribute that holds a number: the name with its
    equals sign, and a run of digits between double quotes (group 1). *)
Definition numberAttr (prefix : string) : regex :=
  cat [ lit prefix; chr quote; Group 1 (plus true digit); chr quote ].

(** * Properties *)

(** ** Numbers *)

Lemma roundNat_positive (z : Z) :
  (0 < z)%Z -> roundNat z = PosInf \/ exists v, roundNat z = Fin v /\ (0 < v)%Z.
Proof.
  intros Hz. unfold roundNat.
  destruct (z <? 2 ^ 53)%Z eqn:Hsmall.
  - right. exists z. split; [reflexivity | assumption].
  - apply Z.ltb_ge in Hsmall.
    set (e := (Z.log2 z - 52)%Z).
    assert (He : (1 <= e)%Z).
    { assert (53 <= Z.log2 z)%Z by (apply Z.log2_le_pow2; lia). unfold e; lia. }
    assert (Hpow : (0 < 2 ^ e)%Z) by (apply Z.pow_pos_nonneg; lia).
    assert (Hle : (2 ^ e <= z)%Z).
    { apply Z.le_trans with (2 ^ Z.log2 z)%Z.
      - apply Z.pow_le_mono_r; unfold e; lia.
      - apply Z.log2_spec; assumption. }
    assert (Hq : (0 < z / 2 ^ e)%Z) by (apply Z.div_str_pos; lia).
    match goal with
    | |- context [if ?c then PosInf else Fin ?v] =>
        destruct c; [left; reflexivity | right; exists v; split; [reflexivity|]]
    end.
    destruct (_ || _); apply Z.mul_pos_pos; lia.
Qed.

Lemma isPositive_ofZ (z : Z) : isPositive (ofZ z) = (0 <? z)%Z.
Proof.
  unfold ofZ. destruct (z <? 0)%Z eqn:Hneg.
  - apply Z.ltb_lt in Hneg.
    destruct (roundNat_positive (z := - z)) as [H | [v [H Hv]]]; [lia | | ];
      rewrite H; unfold neg, isPositive.
    + destruct (Z.ltb_spec 0 z); lia || reflexivity.
    + destruct (Z.ltb_spec 0 z), (Z.ltb_spec 0 (- v)); lia || reflexivity.
  - apply Z.ltb_ge in Hneg.
    destruct (Z.eq_dec z 0) as [-> | Hnz]; [reflexivity|].
    destruct (roundNat_positive (z := z)) as [H | [v [H Hv]]]; [lia | | ];
      rewrite H; unfold isPositive.
    + destruct (Z.ltb_spec 0 z); lia || reflexivity.
    + destruct (Z.ltb_spec 0 z), (Z.ltb_spec 0 v); lia || reflexivity.
Qed.

Lemma qualityValue_not_NaN (a : string) : qualityValue a <> NaN.
Proof.
  unfold qualityValue, orZero.
  destruct (parseInt a); simpl; try discriminate.
  destruct (z =? 0)%Z; discriminate.
Qed.

Lemma isPositive_sub (x y : number) :
  x <> NaN -> y <> NaN -> isPositive (sub x y) = negb (leb x y).
Proof.
  intros Hx Hy.
  destruct x, y; try congruence; try reflexivity.
  cbn [sub leb]. rewrite isPositive_ofZ.
  destruct (Z.ltb_spec 0 (z - z0)), (Z.leb_spec z z0); simpl; lia || reflexivity.
Qed.

Lemma leb_total (x y : number) :
  x <> NaN -> y <> NaN -> leb x y = true \/ leb y x = true.
Proof.
  intros Hx Hy. destruct x, y; try congruence; cbn [leb]; auto.
  destruct (Z.leb_spec z z0), (Z.leb_spec z0 z); auto; lia.
Qed.

Lemma leb_trans (x y z : number) :
  leb x y = true -> leb y z = true -> leb x z = true.
Proof.
  destruct x, y, z; cbn [leb]; try congruence.
  rewrite !Z.leb_le; lia.
Qed.

Lemma same_leb (x y v : number) :
  x <> NaN -> same x v = true -> same y v = true -> leb x y = true.
Proof.
  intros Hx. destruct x, y, v; cbn [same leb]; try congruence.
  rewrite !Z.eqb_eq, Z.leb_le; lia.
Qed.

Lemma leb_same (x y v : number) :
  leb x y = true -> leb y x = true -> same x v = same y v.
Proof.
  destruct x, y, v; cbn [same leb]; try congruence.
  rewrite !Z.leb_le. intros. assert (z = z0) by lia. subst. reflexivity.
Qed.

(** ** Stable sorting by a numeric key *)

Section SortFacts.

Variable A : Type.
Variable compareFn : A -> A -> number.
Variable key : A -> number.
Hypothesis key_not_NaN : forall a, key a <> NaN.
Hypothesis compareFn_key : forall a b, compareFn a b = sub (key a) (key b).

Lemma after_key (x y : A) :
  Sort.after compareFn x y = negb (leb (key x) (key y)).
Proof.
  unfold Sort.after. rewrite compareFn_key. apply isPositive_sub; auto.
Qed.

Lemma insert_permutation (x : A) (l : list A) :
  Permutation (Sort.insert compareFn x l) (x :: l).
Proof.
  induction l as [| y l IH]; simpl; [reflexivity|].
  destruct (Sort.after compareFn x y); [|reflexivity].
  rewrite IH. apply perm_swap.
Qed.

Lemma sort_permutation (l : list A) : Permutation (Sort.sort compareFn l) l.
Proof.
  induction l as [| x l IH]; simpl; [reflexivity|].
  rewrite insert_permutation. constructor. assumption.
Qed.

Lemma insert_hdrel (a x : A) (l : list A) :
  (keyLe key) a x -> HdRel (keyLe key) a l -> HdRel (keyLe key) a (Sort.insert compareFn x l).
Proof.
  intros Hax Hal. destruct l as [| y l]; simpl.
  - constructor. assumption.
  - destruct (Sort.after compareFn x y); constructor.
    + inversion Hal; assumption.
    + assumption.
Qed.

Lemma insert_sorted (x : A) (l : list A) :
  Sorted (keyLe key) l -> Sorted (keyLe key) (Sort.insert compareFn x l).
Proof.
  induction l as [| y l IH]; intros Hs; simpl.
  - repeat constructor.
  - inversion Hs as [| ? ? Hs' Hhd]; subst.
    destruct (Sort.after compareFn x y) eqn:Hafter.
    + constructor; [apply IH; assumption|].
      apply insert_hdrel; [|assumption].
      rewrite after_key in Hafter. apply negb_true_iff in Hafter.
      destruct (leb_total (@key_not_NaN x) (@key_not_NaN y)); [congruence|assumption].
    + constructor; [assumption|]. constructor.
      rewrite after_key in Hafter. apply negb_false_iff in Hafter. assumption.
Qed.

Lemma sort_sorted (l : list A) : Sorted (keyLe key) (Sort.sort compareFn l).
Proof.
  induction l as [| x l IH]; simpl; [constructor | apply insert_sorted; assumption].
Qed.

(** Elements of equal key keep their relative order. *)
Lemma insert_stable (v : number) (x : A) (l : list A) :
  filter (fun a => same (key a) v) (Sort.insert compareFn x l) =
  filter (fun a => same (key a) v) (x :: l).
Proof.
  induction l as [| y l IH]; [reflexivity|].
  simpl Sort.insert. destruct (Sort.after compareFn x y) eqn:Hafter; [|reflexivity].
  rewrite after_key in Hafter. apply negb_true_iff in Hafter.
  simpl filter in *. rewrite IH.
  destruct (same (key x) v) eqn:Hx, (same (key y) v) eqn:Hy; try reflexivity.
  rewrite (@same_leb _ _ v (@key_not_NaN x) Hx Hy) in Hafter. discriminate.
Qed.

Lemma sort_stable (v : number) (l : list A) :
  filter (fun a => same (key a) v) (Sort.sort compareFn l) =
  filter (fun a => same (key a) v) l.
Proof.
  induction l as [| x l IH]; [reflexivity|].
  simpl Sort.sort. rewrite insert_stable. simpl. rewrite IH. reflexivity.
Qed.

End SortFacts.

(** ** Objects *)

Section ObjFacts.

Variable V : Type.
Implicit Types (o : Obj.obj V) (k : string).

Lemma insertIndex_permutation (x : N * string) (l : list (N * string)) :
  Permutation (Obj.insertIndex x l) (x :: l).
Proof.
  induction l as [| y l IH]; simpl; [reflexivity|].
  destruct (fst x <? fst y)%N; [reflexivity|].
  rewrite IH. apply perm_swap.
Qed.

Lemma indexKeys_permutation (ks : list string) :
  Permutation (map snd (Obj.indexKeys ks)) (filter Obj.isIndexKey ks).
Proof.
  induction ks as [| k ks IH]; simpl; [reflexivity|].
  unfold Obj.isIndexKey. destruct (Obj.arrayIndex k) as [n|]; [|assumption].
  rewrite insertIndex_permutation. simpl. constructor. assumption.
Qed.

Lemma filter_split_permutation (A : Type) (p : A -> bool) (l : list A) :
  Permutation (filter p l ++ filter (fun a => negb (p a)) l) l.
Proof.
  induction l as [| a l IH]; simpl; [reflexivity|].
  destruct (p a); simpl.
  - constructor. assumption.
  - symmetry. apply Permutation_cons_app. symmetry. assumption.
Qed.

Lemma keys_permutation o : Permutation (Obj.keys o) (map fst o).
Proof.
  unfold Obj.keys. rewrite indexKeys_permutation.
  apply filter_split_permutation.
Qed.

Lemma indexKeys_none (ks : list string) :
  (forall k, In k ks -> Obj.isIndexKey k = false) -> Obj.indexKeys ks = [].
Proof.
  induction ks as [| k ks IH]; intros H; simpl; [reflexivity|].
  pose proof (H k (or_introl eq_refl)) as Hk. unfold Obj.isIndexKey in Hk.
  destruct (Obj.arrayIndex k); [discriminate|].
  apply IH. intros k' Hin. apply H. right. assumption.
Qed.

(** With no array index among the keys, [Object.keys] lists them in
    creation order. *)
Lemma keys_creation_order o :
  (forall k, In k (map fst o) -> Obj.isIndexKey k = false) ->
  Obj.keys o = map fst o.
Proof.
  intros H. unfold Obj.keys. rewrite indexKeys_none by assumption. simpl.
  induction (map fst o) as [| k ks IH]; simpl; [reflexivity|].
  rewrite (H k (or_introl eq_refl)). simpl. f_equal.
  apply IH. intros k' Hin. apply H. right. assumption.
Qed.

Lemma get_of_key o k :
  In k (map fst o) -> exists v, Obj.get o k = Some v /\ In (k, v) o.
Proof.
  induction o as [| [k' v'] o IH]; simpl; [tauto|].
  intros Hin. destruct (String.eqb_spec k k') as [-> | Hne].
  - exists v'. auto.
  - destruct Hin as [Heq | Hin]; [congruence|].
    destruct (IH Hin) as [v [Hget Hv]]. exists v. auto.
Qed.

Lemma get_in o k v : Obj.get o k = Some v -> In k (map fst o).
Proof.
  induction o as [| [k' v'] o IH]; simpl; [discriminate|].
  destruct (String.eqb_spec k k') as [-> | Hne]; auto.
Qed.

Lemma put_values (Q : V -> Prop) o k v :
  Q v -> Forall (fun kv => Q (snd kv)) o ->
  Forall (fun kv => Q (snd kv)) (Obj.put o k v).
Proof.
  intros Hv. induction o as [| [k' v'] o IH]; intros Ho; simpl.
  - constructor; auto.
  - inversion Ho; subst. destruct (String.eqb k k'); constructor; auto.
Qed.

Lemma set_values (Q : V -> Prop) o k v :
  Q v -> Forall (fun kv => Q (snd kv)) o ->
  Forall (fun kv => Q (snd kv)) (Obj.set o k v).
Proof.
  intros Hv Ho. unfold Obj.set.
  destruct (String.eqb k "__proto__"); [assumption | apply put_values; assumption].
Qed.

End ObjFacts.

(** ** The parsed mapping holds playable URLs only *)

Lemma addPart_playable (urls : Obj.obj string) (part : string) :
  Forall (fun kv => playable (snd kv)) urls ->
  Forall (fun kv => playable (snd kv)) (addPart urls part).
Proof.
  intros H. unfold addPart.
  destruct (exec partRegex part) as [m|]; [|assumption].
  destruct (find _ _) as [u|] eqn:Hfind; [|assumption].
  apply set_values; [|assumption].
  apply find_some in Hfind. apply Hfind.
Qed.

Lemma parseDecoded_playable (decoded : string) :
  Forall (fun kv => playable (snd kv)) (parseDecoded decoded).
Proof.
  unfold parseDecoded.
  assert (G : forall parts urls,
             Forall (fun kv => playable (snd kv)) urls ->
             Forall (fun kv => playable (snd kv)) (fold_left addPart parts urls)).
  { induction parts as [| p parts IH]; intros urls H; simpl; [assumption|].
    apply IH. apply addPart_playable. assumption. }
  apply G. constructor.
Qed.

Lemma playable_nonempty (u : string) : playable u -> Str.isEmpty u = false.
Proof. destruct u; [discriminate | reflexivity]. Qed.

(** ** What [getStream] returns *)

Lemma getStream_return (contentId : string) (translatorId : option string)
    (season episode : option number) (w : world) (r : StreamResult)
    (sent : list outbound) :
  getStream contentId translatorId season episode w = (Return r, sent) ->
  exists videoUrls subs,
    r = streamResult videoUrls subs /\
    Forall (fun kv => playable (snd kv)) videoUrls.
Proof.
  unfold getStream, bind, fetch. intros H.
  destruct (w _) as [rep|]; [|discriminate].
  destruct (negb (ok rep)); [discriminate|].
  unfold responseJson in H. destruct (json_body rep) as [data|]; [|discriminate].
  cbn [ret throw] in H.
  destruct (member data "success" w) as [[success|] t1] eqn:Hs; [|discriminate].
  destruct (_ && _).
  { destruct (member data "message" w) as [[m|] t2]; discriminate. }
  destruct (member data "url" w) as [[u|] t2] eqn:Hu; [|discriminate].
  destruct (videoUrlsOf u w) as [[videoUrls|] t3] eqn:Hv; [|discriminate].
  destruct (member data "subtitle" w) as [[sub1|] t4]; [|discriminate].
  destruct (member data "subtitle_lns" w) as [[sub2|] t5]; [|discriminate].
  injection H as <- _.
  exists videoUrls, (parseSubtitles sub1 sub2). split; [reflexivity|].
  unfold videoUrlsOf in Hv. destruct (truthy u).
  - destruct u as [[| | | s | |]|]; try discriminate.
    injection Hv as <- _. apply parseDecoded_playable.
  - injection Hv as <- _. constructor.
Qed.

(** ** The last element *)

Lemma lastOf_cons (A : Type) (x y : A) (l : list A) :
  lastOf (x :: y :: l) = lastOf (y :: l).
Proof. reflexivity. Qed.

Lemma lastOf_none (A : Type) (l : list A) : lastOf l = None -> l = [].
Proof.
  induction l as [| x [| y l] IH]; [reflexivity | discriminate |].
  rewrite lastOf_cons. intros H. discriminate (IH H).
Qed.

Lemma lastOf_in (A : Type) (l : list A) (b : A) : lastOf l = Some b -> In b l.
Proof.
  induction l as [| x [| y l] IH]; [discriminate | |].
  - intros [= ->]. left. reflexivity.
  - rewrite lastOf_cons. intros H. right. apply IH. assumption.
Qed.

Lemma lastOf_filter (A : Type) (p : A -> bool) (l : list A) (b : A) :
  lastOf l = Some b -> p b = true -> lastOf (filter p l) = Some b.
Proof.
  intros Hlast Hp. induction l as [| x [| y l] IH]; [discriminate | |].
  - injection Hlast as ->. simpl. rewrite Hp. reflexivity.
  - rewrite lastOf_cons in Hlast. specialize (IH Hlast).
    change (filter p (x :: y :: l))
      with (if p x then x :: filter p (y :: l) else filter p (y :: l)).
    destruct (p x); [|assumption].
    destruct (filter p (y :: l)) as [| z t]; [discriminate|].
    rewrite lastOf_cons. assumption.
Qed.

Lemma keyLe_trans (A : Type) (key : A -> number) (a b c : A) :
  keyLe key a b -> keyLe key b c -> keyLe key a c.
Proof. unfold keyLe. apply leb_trans. Qed.

Lemma keyLe_refl (A : Type) (key : A -> number) (a : A) :
  key a <> NaN -> keyLe key a a.
Proof.
  intros H. unfold keyLe. destruct (leb_total H H); assumption.
Qed.

Lemma sorted_last_is_greatest (A : Type) (key : A -> number) (l : list A)
    (b : A) :
  (forall a, key a <> NaN) ->
  Sorted (keyLe key) l -> lastOf l = Some b ->
  forall a, In a l -> keyLe key a b.
Proof.
  intros Hkey Hs. apply Sorted_StronglySorted in Hs.
  2:{ intros x y z. apply keyLe_trans. }
  induction Hs as [| x l Hs IH Hall]; [discriminate|].
  intros Hlast a [<- | Hin].
  - destruct l as [| y l].
    + injection Hlast as <-. apply keyLe_refl. apply Hkey.
    + rewrite lastOf_cons in Hlast.
      rewrite Forall_forall in Hall. apply Hall.
      apply lastOf_in. assumption.
  - destruct l as [| y l]; [contradiction|].
    rewrite lastOf_cons in Hlast. apply IH; assumption.
Qed.

Lemma same_refl (x : number) : same x x = true.
Proof. destruct x; simpl; try reflexivity. apply Z.eqb_refl. Qed.

(** ** The qualities of a stream result *)

Lemma byQuality_key (a b : string) :
  byQuality a b = sub (qualityValue a) (qualityValue b).
Proof. reflexivity. Qed.

Lemma qualities_sorted (videoUrls : Obj.obj string) (subs : list Subtitle) :
  Sorted (keyLe qualityValue) (qualities (streamResult videoUrls subs)).
Proof.
  apply (@sort_sorted _ byQuality qualityValue qualityValue_not_NaN byQuality_key).
Qed.

Lemma qualities_permutation (videoUrls : Obj.obj string) (subs : list Subtitle) :
  Permutation (qualities (streamResult videoUrls subs)) (Obj.keys videoUrls).
Proof.
  apply (@sort_permutation _ byQuality).
Qed.

Lemma best_is_key (videoUrls : Obj.obj string) (subs : list Subtitle)
    (best : string) :
  lastOf (qualities (streamResult videoUrls subs)) = Some best ->
  In best (map fst videoUrls).
Proof.
  intros H. apply lastOf_in in H.
  eapply Permutation_in; [apply keys_permutation|].
  eapply Permutation_in; [apply qualities_permutation with (subs := subs)|].
  assumption.
Qed.

Lemma stream_url_of_best (videoUrls : Obj.obj string) (subs : list Subtitle)
    (best : string) :
  Forall (fun kv => playable (snd kv)) videoUrls ->
  lastOf (qualities (streamResult videoUrls subs)) = Some best ->
  Obj.get videoUrls best = Some (stream_url (streamResult videoUrls subs)).
Proof.
  intros Hplay Hlast.
  destruct (get_of_key videoUrls best (best_is_key _ _ Hlast)) as [v [Hget Hin]].
  rewrite Forall_forall in Hplay. apply Hplay in Hin. simpl in Hin.
  unfold streamResult in *. cbn [stream_url qualities] in *.
  rewrite Hlast. cbn [propertyKey]. rewrite Hget.
  rewrite (playable_nonempty Hin). reflexivity.
Qed.

Lemma stream_url_without_qualities (videoUrls : Obj.obj string)
    (subs : list Subtitle) :
  qualities (streamResult videoUrls subs) = [] ->
  stream_url (streamResult videoUrls subs) = "".
Proof.
  intros Hq.
  assert (Hkeys : Obj.keys videoUrls = []).
  { apply Permutation_nil. rewrite <- Hq. apply qualities_permutation. }
  assert (Hempty : videoUrls = []).
  { pose proof (keys_permutation videoUrls) as Hp. rewrite Hkeys in Hp.
    apply Permutation_nil in Hp.
    destruct videoUrls; [reflexivity|discriminate]. }
  subst. reflexivity.
Qed.

(** C1: in every stream result that [getStream] returns, the quality
    labels are the labels of [all_urls]; when there is one, [stream_url]
    is [all_urls[q]] for the last quality label [q], and that label is a
    highest one: no label of [all_urls] has a greater value
    [parseInt(label) || 0]; when [qualities] is empty, [stream_url] is the
    empty string. *)
Theorem stream_url_invariant (contentId : string) (translatorId : option string)
    (season episode : option number) (w : world) (r : StreamResult)
    (sent : list outbound) :
  getStream contentId translatorId season episode w = (Return r, sent) ->
  (qualities r <> [] ->
   exists q, lastOf (qualities r) = Some q /\
             Obj.get (all_urls r) q = Some (stream_url r) /\
             forall q' u, Obj.get (all_urls r) q' = Some u ->
                          leb (qualityValue q') (qualityValue q) = true) /\
  (qualities r = [] -> stream_url r = "") /\
  (forall q, In q (qualities r) <->
             exists u, Obj.get (all_urls r) q = Some u).
Proof.
  intros H. apply getStream_return in H.
  destruct H as [videoUrls [subs [-> Hplay]]].
  assert (Hperm : Permutation (qualities (streamResult videoUrls subs))
                              (map fst videoUrls)).
  { rewrite qualities_permutation. apply keys_permutation. }
  assert (Hlabels : forall q,
            In q (qualities (streamResult videoUrls subs)) <->
            exists u, Obj.get videoUrls q = Some u).
  { intros q. split.
    - intros Hin. apply (Permutation_in _ Hperm) in Hin.
      destruct (@get_of_key _ videoUrls q Hin) as [v [Hv _]]. eauto.
    - intros [u Hu]. apply (Permutation_in _ (Permutation_sym Hperm)).
      exact (get_in _ _ Hu). }
  split; [|split; [apply stream_url_without_qualities | exact Hlabels]].
  intros Hne.
  destruct (lastOf (qualities (streamResult videoUrls subs))) as [q|] eqn:Hlast.
  - exists q. split; [reflexivity|].
    split; [apply stream_url_of_best; assumption|].
    intros q' u Hu.
    apply (sorted_last_is_greatest qualityValue_not_NaN
             (qualities_sorted videoUrls subs) Hlast).
    apply Hlabels. exists u. exact Hu.
  - apply lastOf_none in Hlast. contradiction.
Qed.

Lemma stream_url_invariant_witness :
  let w := upstream 200 ""
             (Some (envelopeOf "WzcyMF1hLm0zdTgsWzEwODBdYi5tM3U4LFszNjBdYy5tM3U4")) in
  let r := MkStreamResult "b.m3u8" ["360"; "720"; "1080"] []
             [("720", "a.m3u8"); ("1080", "b.m3u8"); ("360", "c.m3u8")] in
  let sent := [POST "https://hdrezka.me/ajax/get_cdn_series/"
                 [("id", FStr "1"); ("translator_id", FStr "4");
                  ("action", FStr "get_movie")]] in
  getStream "1" (Some "4") None None w = (Return r, sent) /\
  exists q, lastOf (qualities r) = Some q /\
            Obj.get (all_urls r) q = Some (stream_url r) /\
            leb (qualityValue "720") (qualityValue q) = true /\
            leb (qualityValue "360") (qualityValue q) = true.
Proof.
  intros w r sent.
  assert (H : getStream "1" (Some "4") None None w = (Return r, sent))
    by (vm_compute; reflexivity).
  split; [exact H|].
  destruct (proj1 (stream_url_invariant _ _ _ _ _ H) ltac:(discriminate))
    as [q [Hlast [Hurl Hmax]]].
  exists q. split; [exact Hlast|]. split; [exact Hurl|].
  split; [exact (Hmax "720" "a.m3u8" eq_refl)
         | exact (Hmax "360" "c.m3u8" eq_refl)].
Defined.

(** C4 (as amended): the qualities of a returned stream result are the
    keys of [all_urls] in ascending order of [parseInt(label) || 0]; the
    best label is the last one, its value is the greatest, [stream_url] is
    its URL, and among the labels of that same value it is the one that
    comes last in the key order of the mapping (array-index labels in
    ascending order, then the others in creation order -- which is the
    creation order when no label is an array index).  Over the 720, 1080,
    360 mapping of the spec the result is the URL of 1080. *)
Theorem best_quality_selection (contentId : string)
    (translatorId : option string) (season episode : option number)
    (w : world) (r : StreamResult) (sent : list outbound) :
  getStream contentId translatorId season episode w = (Return r, sent) ->
  Sorted (keyLe qualityValue) (qualities r) /\
  Permutation (qualities r) (Obj.keys (all_urls r)) /\
  (forall best, lastOf (qualities r) = Some best ->
     Obj.get (all_urls r) best = Some (stream_url r) /\
     (forall q, In q (Obj.keys (all_urls r)) -> keyLe qualityValue q best) /\
     lastOf (filter (fun q => same (qualityValue q) (qualityValue best))
               (Obj.keys (all_urls r))) = Some best) /\
  ((forall q, In q (map fst (all_urls r)) -> Obj.isIndexKey q = false) ->
   Obj.keys (all_urls r) = map fst (all_urls r)) /\
  stream_url
    (streamResult
       (parseDecoded "[720]a.m3u8,[1080]b.m3u8,[360]c.m3u8") []) = "b.m3u8".
Proof.
  intros H. apply getStream_return in H.
  destruct H as [videoUrls [subs [-> Hplay]]].
  split; [apply qualities_sorted|].
  split; [apply qualities_permutation|].
  split; [|split; [apply keys_creation_order | vm_compute; reflexivity]].
  intros best Hlast.
  split; [apply stream_url_of_best; assumption|].
  split.
  - intros q Hin.
    apply (sorted_last_is_greatest qualityValue_not_NaN
             (qualities_sorted videoUrls subs) Hlast).
    eapply Permutation_in; [symmetry; apply qualities_permutation|].
    assumption.
  - cbn [all_urls streamResult].
    rewrite <- (@sort_stable _ byQuality qualityValue qualityValue_not_NaN
                  byQuality_key).
    apply lastOf_filter; [assumption | apply same_refl].
Qed.

Lemma best_quality_selection_witness :
  let w := upstream 200 ""
             (Some (envelopeOf "WzcyMF1hLm0zdTgsWzEwODBdYi5tM3U4LFszNjBdYy5tM3U4")) in
  let r := MkStreamResult "b.m3u8" ["360"; "720"; "1080"] []
             [("720", "a.m3u8"); ("1080", "b.m3u8"); ("360", "c.m3u8")] in
  let sent := [POST "https://hdrezka.me/ajax/get_cdn_series/"
                 [("id", FStr "1"); ("translator_id", FStr "4");
                  ("action", FStr "get_movie")]] in
  getStream "1" (Some "4") None None w = (Return r, sent) /\
  Sorted (keyLe qualityValue) (qualities r) /\
  Permutation (qualities r) (Obj.keys (all_urls r)).
Proof.
  intros w r sent.
  assert (H : getStream "1" (Some "4") None None w = (Return r, sent))
    by (vm_compute; reflexivity).
  split; [exact H|].
  pose proof (best_quality_selection _ _ _ _ _ H) as [Hs [Hp _]].
  split; assumption.
Defined.

(** C4 (as stated) fails: in the payload below the label 1080 is met after
    the label 1080p and both have the value 1080, yet the URL of 1080p is
    selected, because 1080 is an array index and so precedes 1080p among
    the keys. *)
Lemma later_label_does_not_win :
  let token := "WzEwODBwXWEubTN1OCxbMTA4MF1iLm0zdTg=" in
  let w := upstream 200 "" (Some (envelopeOf token)) in
  clearTrash token = "[1080p]a.m3u8,[1080]b.m3u8" /\
  qualityValue "1080p" = qualityValue "1080" /\
  exists r sent,
    getStream "1" (Some "4") None None w = (Return r, sent) /\
    all_urls r = [("1080p", "a.m3u8"); ("1080", "b.m3u8")] /\
    qualities r = ["1080"; "1080p"] /\
    stream_url r = "a.m3u8" /\
    stream_url r <> "b.m3u8".
Proof.
  intros token w.
  split; [vm_compute; reflexivity|].
  split; [vm_compute; reflexivity|].
  eexists. eexists.
  split; [vm_compute; reflexivity|].
  cbn [all_urls qualities stream_url].
  repeat split; discriminate.
Qed.

(** ** The outcome of [getStream], case by case *)

Lemma getStream_outcome (contentId : string) (translatorId : option string)
    (season episode : option number) (w : world) :
  fst (getStream contentId translatorId season episode w) =
  match w (streamRequest contentId translatorId season episode) with
  | None => Throw NetworkError
  | Some rep =>
      if ok rep then
        match json_body rep with
        | None => Throw SyntaxError
        | Some JNull => Throw TypeError
        | Some data =>
            if failureFlag data then Throw (rejection data)
            else if malformedUrl data then Throw TypeError
            else Return (streamResult (envelopeUrls data)
                           (envelopeSubtitles data))
        end
      else Throw (Error ("AJAX request failed: " ++ showZ (status rep))%string)
  end.
Proof.
  unfold getStream, streamRequest, bind, fetch.
  change (HDREZKA_MIRROR ++ "/ajax/get_cdn_series/")%string
    with "https://hdrezka.me/ajax/get_cdn_series/".
  destruct (w _) as [rep|]; [|reflexivity].
  destruct (ok rep); [|reflexivity]. cbn [negb].
  unfold responseJson. destruct (json_body rep) as [data|]; [|reflexivity].
  destruct data as [| b | n | s | items | fields]; try reflexivity.
  cbn [member ret fst failureFlag rejection malformedUrl envelopeUrls
       envelopeSubtitles].
  destruct (Obj.get fields "success") as [sv|].
  - destruct (truthy (Some sv)); cbn [negb andb].
    + unfold videoUrlsOf.
      destruct (Obj.get fields "url") as [[| b | n | s | items | us]|];
        cbn [truthy]; try reflexivity.
      * destruct b; reflexivity.
      * destruct (n =? 0)%Z; reflexivity.
      * destruct s; reflexivity.
    + destruct (Obj.get fields "message") as [m|]; [|reflexivity].
      destruct (truthy (Some m)); reflexivity.
  - cbn [negb andb]. unfold videoUrlsOf.
    destruct (Obj.get fields "url") as [[| b | n | s | items | us]|];
      cbn [truthy]; try reflexivity.
    + destruct b; reflexivity.
    + destruct (n =? 0)%Z; reflexivity.
    + destruct s; reflexivity.
Qed.

Lemma parseDecoded_empty : parseDecoded "" = Obj.empty.
Proof. reflexivity. Qed.

(** C5: a token that decodes neither with the forced padding nor without
    it makes the deobfuscator return the empty string (the second decoding
    being tried whenever the first fails), and [getStream] then returns a
    result with an empty [stream_url], no qualities and an empty mapping;
    so it does when the envelope has no [url] at all. *)
Theorem decode_failure_is_silent (token : string) (contentId : string)
    (translatorId : option string) (season episode : option number)
    (w : world) (rep : reply) (fields : list (string * json)) :
  w (streamRequest contentId translatorId season episode) = Some rep ->
  ok rep = true ->
  json_body rep = Some (JObj fields) ->
  failureFlag (JObj fields) = false ->
  Obj.get fields "url" = None \/
  (Obj.get fields "url" = Some (JStr token) /\
   atob (remove_all TRASH_PATTERN token ++ "==") = None /\
   atob (remove_all TRASH_PATTERN token) = None) ->
  (atob (remove_all TRASH_PATTERN token ++ "==") = None ->
   clearTrash token =
   match atob (remove_all TRASH_PATTERN token) with
   | Some s => s
   | None => ""
   end) /\
  exists subs,
    fst (getStream contentId translatorId season episode w) =
    Return (MkStreamResult "" [] subs Obj.empty).
Proof.
  intros Hw Hok Hbody Hflag Hurl. split.
  - intros Hpad. unfold clearTrash. rewrite Hpad. reflexivity.
  - rewrite getStream_outcome, Hw, Hok, Hbody, Hflag.
    exists (envelopeSubtitles (JObj fields)).
    destruct Hurl as [Hnone | [Hsome [Hpad Hraw]]].
    + cbn [malformedUrl envelopeUrls]. rewrite Hnone. reflexivity.
    + cbn [malformedUrl envelopeUrls]. rewrite Hsome.
      destruct (Str.isEmpty token); [reflexivity|].
      unfold parseVideoUrls, clearTrash. rewrite Hpad, Hraw. reflexivity.
Qed.

Lemma decode_failure_is_silent_witness :
  let w := upstream 200 "" (Some (envelopeOf "!")) in
  w (streamRequest "1" (Some "4") None None)
    = Some (Reply 200 "" (Some (envelopeOf "!"))) /\
  atob (remove_all TRASH_PATTERN "!" ++ "==") = None /\
  atob (remove_all TRASH_PATTERN "!") = None /\
  clearTrash "!" = "" /\
  exists subs,
    fst (getStream "1" (Some "4") None None w) =
    Return (MkStreamResult "" [] subs Obj.empty).
Proof.
  intros w.
  assert (Hpad : atob (remove_all TRASH_PATTERN "!" ++ "==") = None)
    by reflexivity.
  assert (Hraw : atob (remove_all TRASH_PATTERN "!") = None) by reflexivity.
  pose proof (@decode_failure_is_silent "!" "1" (Some "4") None None w
                (Reply 200 "" (Some (envelopeOf "!")))
                [("success", JBool true); ("url", JStr "!")]
                eq_refl eq_refl eq_refl eq_refl
                (or_intror (conj eq_refl (conj Hpad Hraw)))) as [Hclear Hret].
  split; [reflexivity|].
  split; [exact Hpad|].
  split; [exact Hraw|].
  split; [exact (Hclear Hpad) | exact Hret].
Defined.

(** The conversion of a value to a string throws exactly for an object
    with a [toString] of its own and for an array that holds such a
    value. *)
Lemma toString_unprintable :
  forall m, toString m = None <-> unprintable m = true.
Proof.
  fix IH 1. intros [| [] | n | s | items | fields];
    cbn [toString unprintable]; try (split; discriminate).
  - revert items. fix IHl 1. intros [| x l]; [split; discriminate|].
    specialize (IH x). specialize (IHl l).
    assert (Hx : match x with
                 | JNull => Some ""
                 | _ => toString x
                 end = None <-> unprintable x = true).
    { destruct x; try exact IH. split; discriminate. }
    destruct (match x with JNull => Some "" | _ => toString x end) as [text|].
    + destruct (unprintable x); [discriminate (proj2 Hx eq_refl)|].
      cbn [orb]. destruct l as [| y l'].
      * split; discriminate.
      * rewrite <- IHl.
        destruct ((fix join (l : list json) : option string :=
                     match l with
                     | [] => Some ""
                     | x :: l' =>
                         match (match x with
                                | JNull => Some ""
                                | _ => toString x
                                end), l' with
                         | Some text, [] => Some text
                         | Some text, _ :: _ =>
                             match join l' with
                             | Some more => Some (text ++ "," ++ more)%string
                             | None => None
                             end
                         | None, _ => None
                         end
                     end) (y :: l')); split; congruence.
    + rewrite (proj1 Hx eq_refl). split; reflexivity.
  - destruct (Obj.get fields "toString"); split; congruence.
Qed.

(** C6 (as amended): [getStream] throws in exactly six cases -- the fetch
    is rejected; the status is not 2xx (the error names the status); the
    body is no JSON; the envelope is [null]; the envelope has a [success]
    that is defined and falsy; the envelope is not so flagged but its
    [url] is truthy and no string.  For a flagged envelope the error
    carries a fixed text when the [message] is missing or falsy, and the
    message converted to a string when it is truthy: a non-empty string
    unchanged, a number or [true] as [String] writes it, an object
    without a [toString] of its own as [[object Object]]; when the
    message cannot be converted (an object with a [toString] of its own,
    or an array holding one) the TypeError of the conversion is thrown
    instead.  An envelope without a [success] property is not flagged. *)
Theorem getStream_failures (contentId : string)
    (translatorId : option string) (season episode : option number)
    (w : world) (e : exn) :
  let req := streamRequest contentId translatorId season episode in
  (fst (getStream contentId translatorId season episode w) = Throw e <->
   (w req = None /\ e = NetworkError) \/
   (exists rep, w req = Some rep /\ ok rep = false /\
      e = Error ("AJAX request failed: " ++ showZ (status rep))%string) \/
   (exists rep, w req = Some rep /\ ok rep = true /\
      json_body rep = None /\ e = SyntaxError) \/
   (exists rep, w req = Some rep /\ ok rep = true /\
      json_body rep = Some JNull /\ e = TypeError) \/
   (exists rep data, w req = Some rep /\ ok rep = true /\
      json_body rep = Some data /\ failureFlag data = true /\
      e = rejection data) \/
   (exists rep data, w req = Some rep /\ ok rep = true /\
      json_body rep = Some data /\ failureFlag data = false /\
      malformedUrl data = true /\ e = TypeError)) /\
  (forall fields,
     truthy (Obj.get fields "message") = false ->
     rejection (JObj fields) = Error "AJAX request failed") /\
  (forall fields m,
     Obj.get fields "message" = Some m -> truthy (Some m) = true ->
     (forall text, plainText m = Some text ->
                   rejection (JObj fields) = Error text) /\
     (forall own, m = JObj own -> Obj.get own "toString" = None ->
                  rejection (JObj fields) = Error "[object Object]") /\
     (rejection (JObj fields) = TypeError <-> unprintable m = true) /\
     (unprintable m = false ->
      exists text, rejection (JObj fields) = Error text)) /\
  (forall fields m,
     Obj.get fields "message" = Some (JStr m) -> m <> "" ->
     rejection (JObj fields) = Error m) /\
  (forall fields,
     Obj.get fields "success" = None -> failureFlag (JObj fields) = false).
Proof.
  intros req. split; [|split; [|split; [|split]]].
  - rewrite getStream_outcome. fold req. split.
    + destruct (w req) as [rep|] eqn:Hw.
      2:{ intros [= <-]. left. auto. }
      destruct (ok rep) eqn:Hok.
      2:{ intros [= <-]. right. left. exists rep. auto. }
      destruct (json_body rep) as [data|] eqn:Hbody.
      2:{ intros [= <-]. right. right. left. exists rep. auto. }
      destruct (failureFlag data) eqn:Hflag.
      { destruct data; try discriminate Hflag.
        intros [= <-]. do 4 right. left. exists rep. eexists. eauto. }
      destruct (malformedUrl data) eqn:Hbad.
      { destruct data; try discriminate Hbad.
        intros [= <-]. do 5 right. exists rep. eexists. eauto 6. }
      destruct data; try discriminate.
      intros [= <-]. do 3 right. left. exists rep. auto.
    + intros [[Hw ->] | [[rep [Hw [Hok ->]]] | [[rep [Hw [Hok [Hbody ->]]]] |
              [[rep [Hw [Hok [Hbody ->]]]] |
               [[rep [data [Hw [Hok [Hbody [Hflag ->]]]]]] |
                [rep [data [Hw [Hok [Hbody [Hflag [Hbad ->]]]]]]]]]]]];
        rewrite Hw; try rewrite Hok; try rewrite Hbody; try reflexivity.
      * destruct data; try discriminate Hflag. rewrite Hflag. reflexivity.
      * destruct data; try discriminate Hbad. rewrite Hflag, Hbad. reflexivity.
  - intros fields Hm. cbn [rejection].
    destruct (Obj.get fields "message") as [m|]; [|reflexivity].
    rewrite Hm. reflexivity.
  - intros fields m Hm Ht. cbn [rejection]. rewrite Hm, Ht.
    split; [|split; [|split]].
    + intros text Hp.
      destruct m as [| [] | n | s | items | own]; cbn [plainText] in Hp;
        try discriminate; injection Hp as <-; reflexivity.
    + intros own -> Hown. cbn [toString]. rewrite Hown. reflexivity.
    + rewrite <- toString_unprintable.
      destruct (toString m); split; congruence.
    + intros Hu. destruct (toString m) as [text|] eqn:E; [eauto|].
      apply toString_unprintable in E. congruence.
  - intros fields m Hm Hne. cbn [rejection]. rewrite Hm.
    destruct m; [congruence | reflexivity].
  - intros fields Hs. cbn [failureFlag]. rewrite Hs. reflexivity.
Qed.

(** C6 (as stated) fails: the upstream answers 200 with the JSON text
    [null]; the call succeeded and the envelope carries no failure flag,
    yet [getStream] throws. *)
Lemma getStream_throws_without_failure_flag :
  let rep := Reply 200 "null" (Some JNull) in
  let w : world := fun _ => Some rep in
  ok rep = true /\
  failureFlag JNull = false /\
  fst (getStream "1" (Some "4") None None w) = Throw TypeError.
Proof. repeat split. Qed.

(** ** Strings *)

Lemma append_nil_r (s : string) : (s ++ "")%string = s.
Proof. induction s; simpl; congruence. Qed.

Lemma append_assoc (a b c : string) :
  ((a ++ b) ++ c)%string = (a ++ (b ++ c))%string.
Proof. induction a; simpl; congruence. Qed.

Lemma length_append (a b : string) :
  String.length (a ++ b) = String.length a + String.length b.
Proof. induction a; simpl; congruence. Qed.

Lemma take_append (a b : string) : Str.take (String.length a) (a ++ b) = a.
Proof. induction a; simpl; congruence. Qed.

Lemma drop_append (a b : string) : Str.drop (String.length a) (a ++ b) = b.
Proof. induction a; simpl; congruence. Qed.

Lemma startsWith_append (p s : string) : Str.startsWith p (p ++ s) = true.
Proof. induction p; simpl; [reflexivity|]. rewrite Ascii.eqb_refl. assumption. Qed.

Lemma startsWith_split (p s : string) :
  Str.startsWith p s = true -> s = (p ++ Str.drop (String.length p) s)%string.
Proof.
  revert s. induction p as [| a p IH]; intros s H; [reflexivity|].
  destruct s as [| b s]; [discriminate|]. simpl in *.
  apply andb_true_iff in H. destruct H as [Hab Hp].
  apply Ascii.eqb_eq in Hab. subst. f_equal. apply IH. assumption.
Qed.

Lemma startsWith_longer (p s t : string) :
  String.length p <= String.length s ->
  Str.startsWith p (s ++ t) = Str.startsWith p s.
Proof.
  revert s. induction p as [| a p IH]; intros s Hlen; [reflexivity|].
  destruct s as [| b s]; simpl in *; [lia|].
  rewrite IH by lia. reflexivity.
Qed.

Lemma startsWith_prefix (p q s : string) :
  Str.startsWith (p ++ q) s = true -> Str.startsWith p s = true.
Proof.
  revert s. induction p as [| a p IH]; intros s H; [reflexivity|].
  destruct s as [| b s]; [discriminate|]. simpl in *.
  apply andb_true_iff in H. destruct H as [Hab Hp].
  rewrite Hab. simpl. eapply IH. eassumption.
Qed.

Lemma includes_prefix (p q s : string) :
  Str.includes p s = false -> Str.includes (p ++ q) s = false.
Proof.
  induction s as [| c s IH]; simpl; intros H.
  - apply orb_false_iff in H. destruct H as [H _].
    destruct (Str.startsWith (p ++ q) "") eqn:E; [|reflexivity].
    apply startsWith_prefix in E. congruence.
  - apply orb_false_iff in H. destruct H as [H1 H2].
    rewrite (IH H2), orb_false_r.
    destruct (Str.startsWith (p ++ q) (String c s)) eqn:E; [|reflexivity].
    apply startsWith_prefix in E. congruence.
Qed.

(** ** The matcher is sound for [Reach] *)

Lemma repeat_loop_sound (g : bool) (r : regex) :
  (forall k st res, rmatch r k st = Some res ->
                    exists st', Reach r st st' /\ k st' = Some res) ->
  forall fuel k st res,
    repeat_loop (rmatch r) g fuel k st = Some res ->
    exists st', Reach (Star g r) st st' /\ k st' = Some res.
Proof.
  intros IHr. induction fuel as [| n IH]; intros k st res H; simpl in H.
  - exists st. split; [constructor | assumption].
  - assert (Hstep : forall res',
               rmatch r
                 (fun st' => if pos st <? pos st'
                             then repeat_loop (rmatch r) g n k st' else None)
                 st = Some res' ->
               exists st', Reach (Star g r) st st' /\ k st' = Some res').
    { intros res' Hm. apply IHr in Hm. destruct Hm as [st1 [Hr Hk]].
      destruct (Nat.ltb_spec (pos st) (pos st1)) as [Hlt|]; [|discriminate].
      apply IH in Hk. destruct Hk as [st2 [Hstar Hk]].
      exists st2. split; [|assumption].
      eapply ReachStarStep; eassumption. }
    destruct g.
    + destruct (rmatch r _ st) as [res'|] eqn:Hm.
      * injection H as <-. apply Hstep. reflexivity.
      * exists st. split; [constructor | assumption].
    + destruct (k st) as [res'|] eqn:Hk.
      * injection H as <-. exists st. split; [constructor | assumption].
      * apply Hstep. assumption.
Qed.

Lemma rmatch_sound (r : regex) :
  forall k st res, rmatch r k st = Some res ->
                   exists st', Reach r st st' /\ k st' = Some res.
Proof.
  induction r as [| p | r1 IH1 r2 IH2 | r1 IH1 r2 IH2 | g r IH | i r IH | |];
    intros k st res H; simpl in H.
  - exists st. split; [constructor | assumption].
  - destruct (rest st) as [| c s'] eqn:Hrest; [discriminate|].
    destruct (p c) eqn:Hp; [|discriminate].
    eexists. split; [|eassumption]. econstructor; eassumption.
  - apply IH1 in H. destruct H as [st1 [H1 H]].
    apply IH2 in H. destruct H as [st2 [H2 H]].
    exists st2. split; [econstructor; eassumption | assumption].
  - destruct (rmatch r1 k st) as [x|] eqn:Hm.
    + injection H as <-. apply IH1 in Hm. destruct Hm as [st' [Hr Hk]].
      exists st'. split; [apply ReachOrL; assumption | assumption].
    + apply IH2 in H. destruct H as [st' [Hr Hk]].
      exists st'. split; [apply ReachOrR; assumption | assumption].
  - eapply repeat_loop_sound; eassumption.
  - apply IH in H. destruct H as [st1 [Hr Hk]].
    eexists. split; [|eassumption]. constructor. assumption.
  - destruct (Nat.eqb_spec (pos st) 0); [|discriminate].
    exists st. split; [constructor; assumption | assumption].
  - destruct (rest st) eqn:Hrest; [|discriminate].
    exists st. split; [constructor; assumption | assumption].
Qed.

(** A match consumes a prefix of the input and advances the index by its
    length. *)
Lemma Reach_advance (r : regex) (st st' : mstate) :
  Reach r st st' ->
  exists w, rest st = (w ++ rest st')%string /\
            pos st' = pos st + String.length w.
Proof.
  induction 1 as [st | p st c s' Hrest Hp | r1 r2 st st1 st2 _ IH1 _ IH2
                 | r1 r2 st st' _ IH | r1 r2 st st' _ IH | g r st
                 | g r st st1 st2 _ IH1 Hlt _ IH2 | i r st st1 _ IH
                 | st Hpos | st Hrest].
  - exists "". split; [reflexivity | simpl; lia].
  - exists (String c ""). simpl. split; [assumption | simpl; lia].
  - destruct IH1 as [w1 [E1 P1]]. destruct IH2 as [w2 [E2 P2]].
    exists (w1 ++ w2)%string. rewrite append_assoc, <- E2, <- E1, length_append.
    split; [reflexivity | simpl; lia].
  - assumption.
  - assumption.
  - exists "". split; [reflexivity | simpl; lia].
  - destruct IH1 as [w1 [E1 P1]]. destruct IH2 as [w2 [E2 P2]].
    exists (w1 ++ w2)%string. rewrite append_assoc, <- E2, <- E1, length_append.
    split; [reflexivity | simpl; lia].
  - destruct IH as [w [E P]]. exists w. simpl. split; assumption.
  - exists "". split; [reflexivity | simpl; lia].
  - exists "". split; [reflexivity | simpl; lia].
Qed.

Lemma Reach_lit (s : string) (st st' : mstate) :
  Reach (lit s) st st' ->
  rest st = (s ++ rest st')%string /\
  pos st' = pos st + String.length s /\ caps st' = caps st.
Proof.
  revert st. induction s as [| c s IH]; intros st H; simpl in H.
  - inversion H; subst. simpl. repeat split; lia.
  - inversion H as [| | r1 r2 st0 st1 st2 H1 H2 | | | | | | |]; subst.
    inversion H1 as [| p st0 c' s' Hrest Hp | | | | | | | |]; subst.
    apply Ascii.eqb_eq in Hp. subst c'.
    apply IH in H2. destruct H2 as [E [P C]]. simpl in *.
    rewrite Hrest, E. repeat split; [lia | assumption].
Qed.

Lemma Reach_star_class (g : bool) (p : ascii -> bool) (st st' : mstate) :
  Reach (Star g (Class p)) st st' ->
  exists w, rest st = (w ++ rest st')%string /\ allChars p w = true /\
            pos st' = pos st + String.length w /\ caps st' = caps st.
Proof.
  remember (Star g (Class p)) as r eqn:Hr. intros H.
  induction H as [| | | | | g' r' st | g' r' st st1 st2 H1 _ Hlt _ IH2 | | |];
    try discriminate.
  - exists "". simpl. repeat split; lia.
  - injection Hr as -> ->. specialize (IH2 eq_refl).
    destruct IH2 as [w [E [A [P C]]]].
    inversion H1 as [| p' st0 c s' Hrest Hp | | | | | | | |]; subst.
    simpl in *. exists (String c w). simpl.
    rewrite Hrest, E, Hp, A, C. repeat split; lia.
Qed.

Lemma Reach_plus_class (g : bool) (p : ascii -> bool) (st st' : mstate) :
  Reach (plus g (Class p)) st st' ->
  exists w, rest st = (w ++ rest st')%string /\ allChars p w = true /\
            w <> "" /\
            pos st' = pos st + String.length w /\ caps st' = caps st.
Proof.
  unfold plus. intros H.
  inversion H as [| | r1 r2 st0 st1 st2 H1 H2 | | | | | | |]; subst.
  inversion H1 as [| p' st0 c s' Hrest Hp | | | | | | | |]; subst.
  apply Reach_star_class in H2. destruct H2 as [w [E [A [P C]]]].
  simpl in *. exists (String c w). simpl.
  rewrite Hrest, E, Hp, A, C. repeat split; [discriminate | lia].
Qed.

(** ** Inversion of [Reach] *)

Lemma Reach_cat_inv (r1 r2 : regex) (st st2 : mstate) :
  Reach (Cat r1 r2) st st2 ->
  exists st1, Reach r1 st st1 /\ Reach r2 st1 st2.
Proof. inversion 1; subst. eauto. Qed.

Lemma Reach_class_inv (p : ascii -> bool) (st st' : mstate) :
  Reach (Class p) st st' ->
  exists c, rest st = String c (rest st') /\ p c = true /\
            pos st' = S (pos st) /\ caps st' = caps st.
Proof. inversion 1; subst. simpl. eauto. Qed.

Lemma Reach_group_plus_class (i : nat) (g : bool) (p : ascii -> bool)
    (st st' : mstate) :
  Reach (Group i (plus g (Class p))) st st' ->
  exists w, w <> "" /\ allChars p w = true /\
            rest st = (w ++ rest st')%string /\
            pos st' = pos st + String.length w /\
            caps st' = (i, w) :: caps st.
Proof.
  inversion 1 as [| | | | | | | i' r st0 st1 H1 | |]; subst.
  apply Reach_plus_class in H1. destruct H1 as [w [E [A [N [P C]]]]].
  exists w. simpl. repeat split; try assumption.
  rewrite P, E, C.
  replace (pos st + String.length w - pos st) with (String.length w) by lia.
  rewrite take_append. reflexivity.
Qed.

(** A regex that begins with a literal matches only where the literal
    stands. *)
Lemma rmatch_needs_literal (P : string) (r : regex) (k : cont) (st : mstate) :
  Str.startsWith P (rest st) = false -> rmatch (Cat (lit P) r) k st = None.
Proof.
  intros H. destruct (rmatch (Cat (lit P) r) k st) as [res|] eqn:Hm;
    [|reflexivity].
  apply rmatch_sound in Hm. destruct Hm as [st' [Hr _]].
  apply Reach_cat_inv in Hr. destruct Hr as [st1 [Hl _]].
  apply Reach_lit in Hl. destruct Hl as [E _].
  rewrite E, startsWith_append in H. discriminate.
Qed.

Lemma exec_from_absent (P : string) (r : regex) (s : string) (p : nat) :
  Str.includes P s = false -> exec_from (Cat (lit P) r) p s = None.
Proof.
  revert p. induction s as [| c s IH]; intros p H; simpl in H;
    apply orb_false_iff in H; destruct H as [H1 H2];
    cbn [exec_from]; rewrite rmatch_needs_literal by assumption.
  - reflexivity.
  - apply IH. assumption.
Qed.

Lemma exec_all_absent (P : string) (r : regex) (s : string) :
  Str.includes P s = false -> exec_all (Cat (lit P) r) s = [].
Proof.
  intros H. unfold exec_all. cbn [exec_all_from].
  rewrite exec_from_absent by assumption. reflexivity.
Qed.

(** Every match reported was reached from a state without captures. *)
Lemma exec_from_sound (r : regex) (s : string) (p : nat) (f : found) :
  exec_from r p s = Some f ->
  exists p' s', Reach r (MState p' s' []) (stop f).
Proof.
  revert p. induction s as [| c s IH]; intros p H; cbn [exec_from] in H;
    destruct (rmatch r Some _) as [st|] eqn:Hm.
  - injection H as <-. apply rmatch_sound in Hm.
    destruct Hm as [st' [Hr [= ->]]]. eauto.
  - discriminate.
  - injection H as <-. apply rmatch_sound in Hm.
    destruct Hm as [st' [Hr [= ->]]]. eauto.
  - eapply IH. eassumption.
Qed.

Lemma exec_all_from_sound (r : regex) (fuel : nat) (p : nat) (s : string)
    (f : found) :
  In f (exec_all_from r fuel p s) ->
  exists p' s', Reach r (MState p' s' []) (stop f).
Proof.
  revert p s. induction fuel as [| n IH]; intros p s H; simpl in H;
    [contradiction|].
  destruct (exec_from r p s) as [f0|] eqn:He; [|contradiction].
  destruct (start f0 <? pos (stop f0)).
  - destruct H as [<- | H].
    + eapply exec_from_sound. eassumption.
    + eapply IH. eassumption.
  - destruct H as [<- | []]. eapply exec_from_sound. eassumption.
Qed.

Lemma exec_all_sound (r : regex) (s : string) (f : found) :
  In f (exec_all r s) -> exists p' s', Reach r (MState p' s' []) (stop f).
Proof. apply exec_all_from_sound. Qed.

(** ** The groups of the markers *)

Lemma digits_not_proto (w : string) :
  w <> "" -> allChars Str.isDigit w = true -> w <> "__proto__".
Proof. intros _ H ->. discriminate. Qed.

Lemma idRegex_group (st st' : mstate) :
  Reach idRegex st st' -> caps st = [] ->
  exists ds, caps st' = [(1, ds)] /\ ds <> "" /\
             allChars Str.isDigit ds = true.
Proof.
  unfold idRegex. cbn [cat]. intros H Hc.
  apply Reach_cat_inv in H. destruct H as [s1 [H1 H]].
  apply Reach_lit in H1. destruct H1 as [_ [_ C1]].
  apply Reach_cat_inv in H. destruct H as [s2 [H2 H]].
  apply Reach_class_inv in H2. destruct H2 as [c2 [_ [_ [_ C2]]]].
  apply Reach_cat_inv in H. destruct H as [s3 [H3 H]].
  apply Reach_group_plus_class in H3. destruct H3 as [ds [N [A [_ [_ C3]]]]].
  apply Reach_class_inv in H. destruct H as [c4 [_ [_ [_ C4]]]].
  exists ds. rewrite C4, C3, C2, C1, Hc. auto.
Qed.

Lemma episodeRegex_groups (st st' : mstate) :
  Reach episodeRegex st st' -> caps st = [] ->
  exists season episode,
    caps st' = [(2, episode); (1, season)] /\
    season <> "" /\ allChars Str.isDigit season = true /\
    episode <> "" /\ allChars Str.isDigit episode = true.
Proof.
  unfold episodeRegex. cbn [cat]. intros H Hc.
  apply Reach_cat_inv in H. destruct H as [s1 [H1 H]].
  apply Reach_lit in H1. destruct H1 as [_ [_ C1]].
  apply Reach_cat_inv in H. destruct H as [s2 [H2 H]].
  apply Reach_class_inv in H2. destruct H2 as [c2 [_ [_ [_ C2]]]].
  apply Reach_cat_inv in H. destruct H as [s3 [H3 H]].
  apply Reach_group_plus_class in H3. destruct H3 as [d1 [N1 [A1 [_ [_ C3]]]]].
  apply Reach_cat_inv in H. destruct H as [s4 [H4 H]].
  apply Reach_class_inv in H4. destruct H4 as [c4 [_ [_ [_ C4]]]].
  apply Reach_cat_inv in H. destruct H as [s5 [H5 H]].
  apply Reach_star_class in H5. destruct H5 as [w5 [_ [_ [_ C5]]]].
  apply Reach_cat_inv in H. destruct H as [s6 [H6 H]].
  apply Reach_lit in H6. destruct H6 as [_ [_ C6]].
  apply Reach_cat_inv in H. destruct H as [s7 [H7 H]].
  apply Reach_class_inv in H7. destruct H7 as [c7 [_ [_ [_ C7]]]].
  apply Reach_cat_inv in H. destruct H as [s8 [H8 H]].
  apply Reach_group_plus_class in H8. destruct H8 as [d2 [N2 [A2 [_ [_ C8]]]]].
  apply Reach_class_inv in H. destruct H as [c9 [_ [_ [_ C9]]]].
  exists d1, d2. rewrite C9, C8, C7, C6, C5, C4, C3, C2, C1, Hc. auto 6.
Qed.

(** ** Where the matcher has no choice *)

Lemma rmatch_cat (r1 r2 : regex) (k : cont) (st : mstate) :
  rmatch (Cat r1 r2) k st = rmatch r1 (rmatch r2 k) st.
Proof. reflexivity. Qed.

Lemma rmatch_class_hit (p : ascii -> bool) (k : cont) (n : nat) (c : ascii)
    (s : string) (cs : list (nat * string)) :
  p c = true ->
  rmatch (Class p) k (MState n (String c s) cs) = k (MState (S n) s cs).
Proof. intros H. simpl. rewrite H. reflexivity. Qed.

Lemma rmatch_lit_hit (P : string) (k : cont) (n : nat) (s : string)
    (cs : list (nat * string)) :
  rmatch (lit P) k (MState n (P ++ s) cs) =
  k (MState (n + String.length P) s cs).
Proof.
  revert n. induction P as [| c P IH]; intros n; simpl.
  - rewrite Nat.add_0_r. reflexivity.
  - rewrite Ascii.eqb_refl. cbn [pos caps]. unfold lit in IH. fold lit in IH.
    rewrite IH. f_equal. f_equal. lia.
Qed.

(** A greedy run over a class takes every character of the class that
    stands there, and keeps them all if what follows then matches. *)
Lemma greedy_run (p : ascii -> bool) (k : cont) (res : mstate)
    (w tail : string) (cs : list (nat * string)) :
  allChars p w = true -> headIs p tail = false ->
  forall fuel n,
    String.length w <= fuel ->
    k (MState (n + String.length w) tail cs) = Some res ->
    repeat_loop (rmatch (Class p)) true fuel k (MState n (w ++ tail) cs)
    = Some res.
Proof.
  intros Hw Ht. induction w as [| c w IH]; intros fuel n Hfuel Hk.
  - simpl in Hk. rewrite Nat.add_0_r in Hk. simpl.
    destruct fuel as [| fuel]; [assumption|].
    cbn [repeat_loop]. destruct tail as [| c t]; simpl.
    + assumption.
    + simpl in Ht. rewrite Ht. assumption.
  - simpl in Hw. apply andb_true_iff in Hw. destruct Hw as [Hc Hw].
    destruct fuel as [| fuel]; [simpl in Hfuel; lia|].
    cbn [repeat_loop]. cbn [append]. rewrite rmatch_class_hit by assumption.
    cbn [pos]. replace (n <? S n) with true by (symmetry; apply Nat.ltb_lt; lia).
    rewrite (IH Hw fuel (S n)); [reflexivity | simpl in Hfuel; lia |].
    simpl in Hk. rewrite <- Hk. f_equal. f_equal. lia.
Qed.

Lemma greedy_plus_run (p : ascii -> bool) (k : cont) (res : mstate)
    (w tail : string) (n : nat) (cs : list (nat * string)) :
  w <> "" -> allChars p w = true -> headIs p tail = false ->
  k (MState (n + String.length w) tail cs) = Some res ->
  rmatch (plus true (Class p)) k (MState n (w ++ tail) cs) = Some res.
Proof.
  intros Hne Hw Ht Hk. destruct w as [| c w]; [congruence|].
  simpl in Hw. apply andb_true_iff in Hw. destruct Hw as [Hc Hw].
  unfold plus. cbn [rmatch append rest]. rewrite Hc. cbn [pos caps rest].
  apply greedy_run; try assumption.
  - rewrite length_append. lia.
  - rewrite <- Hk. simpl. f_equal. f_equal. lia.
Qed.

Lemma greedy_group_run (i : nat) (p : ascii -> bool) (k : cont)
    (res : mstate) (w tail : string) (n : nat) (cs : list (nat * string)) :
  w <> "" -> allChars p w = true -> headIs p tail = false ->
  k (MState (n + String.length w) tail ((i, w) :: cs)) = Some res ->
  rmatch (Group i (plus true (Class p))) k (MState n (w ++ tail) cs)
  = Some res.
Proof.
  intros Hne Hw Ht Hk. cbn [rmatch].
  apply greedy_plus_run; try assumption.
  cbn [pos rest caps].
  replace (n + String.length w - n) with (String.length w) by lia.
  rewrite take_append. assumption.
Qed.

(** The scan passes over a stretch in which the leading literal does not
    occur. *)
Lemma exec_from_skip (P Q : string) (r : regex) (pre tail : string) (p : nat) :
  String.length P <= S (String.length Q) ->
  Str.includes P (pre ++ Q) = false ->
  exec_from (Cat (lit P) r) p (pre ++ Q ++ tail) =
  exec_from (Cat (lit P) r) (p + String.length pre) (Q ++ tail).
Proof.
  intros Hlen. revert p. induction pre as [| c pre IH]; intros p H.
  - simpl. rewrite Nat.add_0_r. reflexivity.
  - simpl in H. apply orb_false_iff in H. destruct H as [H1 H2].
    cbn [append exec_from].
    rewrite rmatch_needs_literal.
    + rewrite IH by assumption. f_equal. simpl. lia.
    + cbn [rest]. rewrite <- H1.
      change (String c (pre ++ Q ++ tail))%string
        with ((String c pre) ++ (Q ++ tail))%string.
      rewrite <- append_assoc. apply startsWith_longer.
      simpl. rewrite length_append. lia.
Qed.

Lemma exec_from_hit (r : regex) (p : nat) (s : string) (st : mstate) :
  rmatch r Some (MState p s []) = Some st ->
  exec_from r p s = Some (Found p st).
Proof. intros H. destruct s; simpl; rewrite H; reflexivity. Qed.

Lemma quote_not_digit : Str.isDigit quote = false.
Proof. reflexivity. Qed.

(** The first [data-id] marker gives the content id. *)
Lemma id_of_first_marker (url pre ds post : string) :
  ds <> "" -> allChars Str.isDigit ds = true ->
  Str.includes "data-id=" (pre ++ "data-id") = false ->
  id (pageInfo url (pre ++ attr "data-id" ds ++ post)) = Some ds.
Proof.
  intros Hne Hds Hpre. unfold pageInfo. cbn [id]. unfold exec, idRegex.
  cbn [cat]. unfold attr.
  change ("data-id" ++ "=" ++ String quote ds ++ String quote "")%string
    with ("data-id" ++ ("=" ++ String quote (ds ++ String quote "")))%string.
  rewrite append_assoc.
  rewrite exec_from_skip by (assumption || (simpl; lia)).
  change ("data-id" ++ ("=" ++ String quote (ds ++ String quote "")) ++ post)%string
    with ("data-id=" ++ String quote ((ds ++ String quote "") ++ post))%string.
  rewrite append_assoc.
  erewrite exec_from_hit.
  2:{ unfold chr, digit. rewrite rmatch_cat, rmatch_lit_hit.
      rewrite rmatch_cat, rmatch_class_hit by reflexivity.
      rewrite rmatch_cat.
      apply greedy_group_run; [assumption | assumption | reflexivity |].
      cbn [append]. rewrite rmatch_class_hit by reflexivity. reflexivity. }
  reflexivity.
Qed.

Lemma translatorId_of_first_marker (url pre ds post : string) :
  ds <> "" -> allChars Str.isDigit ds = true ->
  Str.includes "data-translator_id=" (pre ++ "data-translator_id") = false ->
  translatorId (pageInfo url (pre ++ attr "data-translator_id" ds ++ post))
  = Some ds.
Proof.
  intros Hne Hds Hpre. unfold pageInfo. cbn [translatorId].
  unfold exec, translatorRegex. cbn [cat]. unfold attr.
  change ("data-translator_id" ++ "=" ++ String quote ds ++ String quote "")%string
    with ("data-translator_id"
            ++ ("=" ++ String quote (ds ++ String quote "")))%string.
  rewrite append_assoc.
  rewrite exec_from_skip by (assumption || (simpl; lia)).
  change ("data-translator_id"
            ++ ("=" ++ String quote (ds ++ String quote "")) ++ post)%string
    with ("data-translator_id="
            ++ String quote ((ds ++ String quote "") ++ post))%string.
  rewrite append_assoc.
  erewrite exec_from_hit.
  2:{ unfold chr, digit. rewrite rmatch_cat, rmatch_lit_hit.
      rewrite rmatch_cat, rmatch_class_hit by reflexivity.
      rewrite rmatch_cat.
      apply greedy_group_run; [assumption | assumption | reflexivity |].
      cbn [append]. rewrite rmatch_class_hit by reflexivity. reflexivity. }
  reflexivity.
Qed.

(** ** The outcome of [getContentInfo] *)

Lemma getContentInfo_outcome (url : string) (w : world) :
  getContentInfo url w =
  (match w (GET url) with
   | None => Throw NetworkError
   | Some rep =>
       if ok rep then Return (pageInfo url (text rep))
       else Throw (Error ("Failed to fetch page: " ++ showZ (status rep))%string)
   end, [GET url]).
Proof.
  unfold getContentInfo, bind, fetch.
  destruct (w (GET url)) as [rep|]; [|reflexivity].
  destruct (ok rep); reflexivity.
Qed.

Lemma id_is_absent (url html : string) :
  Str.includes "data-id=" html = false -> id (pageInfo url html) = None.
Proof.
  intros H. unfold pageInfo. cbn [id]. unfold exec, idRegex. cbn [cat].
  rewrite exec_from_absent by assumption. reflexivity.
Qed.

Lemma translator_is_absent (url html : string) :
  Str.includes "data-translator_id=" html = false ->
  translatorId (pageInfo url html) = None /\ translators (pageInfo url html) = [].
Proof.
  intros H. unfold pageInfo. cbn [translatorId translators].
  unfold exec, translatorRegex, transRegex. cbn [cat].
  rewrite exec_from_absent, exec_all_absent by assumption. split; reflexivity.
Qed.

Lemma seasons_are_absent (url html : string) :
  Str.includes "data-season_id" html = false ->
  seasons (pageInfo url html) = Obj.empty.
Proof.
  intros H. unfold pageInfo. cbn [seasons]. unfold episodeRegex. cbn [cat].
  rewrite exec_all_absent by (apply (includes_prefix _ "=" _ H)).
  destruct (_ || _); reflexivity.
Qed.

(** C7 (as amended): [getContentInfo] throws only when the fetch is
    rejected or the status is not 2xx.  For a fetched page, markup without
    [data-id=] yields a null id; without [data-translator_id=], a null
    translator id and no translators; without [data-season_id], no
    seasons; [isSeries] is false when moreover the markup has no [sof.tv]
    and the URL has no [/series/].  The first [data-id] and the first
    [data-translator_id] attribute with a numeric value give the two ids;
    so a page holding the values 123 and 4 yields them, and a page with no
    marker yields nulls, [isSeries] false and empty collections. *)
Theorem getContentInfo_degrades (url : string) (w : world) :
  (forall e,
     fst (getContentInfo url w) = Throw e <->
     (w (GET url) = None /\ e = NetworkError) \/
     (exists rep, w (GET url) = Some rep /\ ok rep = false /\
        e = Error ("Failed to fetch page: " ++ showZ (status rep))%string)) /\
  (forall rep,
     w (GET url) = Some rep -> ok rep = true ->
     exists info,
       fst (getContentInfo url w) = Return info /\
       (Str.includes "data-id=" (text rep) = false -> id info = None) /\
       (Str.includes "data-translator_id=" (text rep) = false ->
        translatorId info = None /\ translators info = []) /\
       (Str.includes "data-season_id" (text rep) = false ->
        seasons info = Obj.empty) /\
       (Str.includes "sof.tv" (text rep) = false ->
        Str.includes "data-season_id" (text rep) = false ->
        Str.includes "/series/" url = false ->
        isSeries info = false) /\
       (forall pre ds post,
          text rep = (pre ++ attr "data-id" ds ++ post)%string ->
          ds <> "" -> allChars Str.isDigit ds = true ->
          Str.includes "data-id=" (pre ++ "data-id") = false ->
          id info = Some ds) /\
       (forall pre ds post,
          text rep = (pre ++ attr "data-translator_id" ds ++ post)%string ->
          ds <> "" -> allChars Str.isDigit ds = true ->
          Str.includes "data-translator_id=" (pre ++ "data-translator_id")
            = false ->
          translatorId info = Some ds)) /\
  (let info :=
     pageInfo "https://hdrezka.me/films/1-x.html"
       ("<a " ++ attr "data-id" "123" ++ " "
          ++ attr "data-translator_id" "4" ++ ">Dub</a>") in
   id info = Some "123" /\ translatorId info = Some "4") /\
  pageInfo "https://hdrezka.me/films/1-x.html" "<html></html>"
  = MkContentInfo None None false [] Obj.empty.
Proof.
  split; [|split; [|split]].
  - intros e. rewrite getContentInfo_outcome. cbn [fst]. split.
    + destruct (w (GET url)) as [rep|] eqn:Hw.
      * destruct (ok rep) eqn:Hok; [discriminate|].
        intros [= <-]. right. exists rep. auto.
      * intros [= <-]. left. auto.
    + intros [[Hw ->] | [rep [Hw [Hok ->]]]]; rewrite Hw;
        [|rewrite Hok]; reflexivity.
  - intros rep Hw Hok. exists (pageInfo url (text rep)).
    rewrite getContentInfo_outcome, Hw, Hok. cbn [fst].
    split; [reflexivity|].
    split; [apply id_is_absent|].
    split; [apply translator_is_absent|].
    split; [apply seasons_are_absent|].
    split.
    { intros H1 H2 H3. unfold pageInfo. cbn [isSeries].
      rewrite H1, H2, H3. reflexivity. }
    split.
    + intros pre ds post -> Hne Hds Hpre. apply id_of_first_marker; assumption.
    + intros pre ds post -> Hne Hds Hpre.
      apply translatorId_of_first_marker; assumption.
  - vm_compute. split; reflexivity.
  - vm_compute. reflexivity.
Qed.

(** C7 (as stated) fails: the page below has neither marker, and the ids
    are null, yet [isSeries] is true because the URL contains [/series/]. *)
Lemma series_url_without_markers :
  let url := "https://hdrezka.me/series/1-x.html" in
  let w := upstream 200 "<html></html>" None in
  exists info,
    fst (getContentInfo url w) = Return info /\
    id info = None /\ translatorId info = None /\ isSeries info = true.
Proof.
  eexists. split; [vm_compute; reflexivity|]. repeat split.
Qed.

(** ** The requests of the stream endpoint *)

Lemma getStream_sent (contentId : string) (translatorId : option string)
    (season episode : option number) (w : world) :
  snd (getStream contentId translatorId season episode w) =
  [streamRequest contentId translatorId season episode].
Proof.
  unfold getStream, streamRequest, bind, fetch.
  change (HDREZKA_MIRROR ++ "/ajax/get_cdn_series/")%string
    with "https://hdrezka.me/ajax/get_cdn_series/".
  destruct (w _) as [rep|]; [|reflexivity].
  destruct (ok rep); [|reflexivity]. cbn [negb].
  unfold responseJson. destruct (json_body rep) as [data|]; [|reflexivity].
  destruct data as [| b | n | s | items | fields]; try reflexivity.
  cbn [member ret].
  destruct (Obj.get fields "success") as [sv|].
  - destruct (truthy (Some sv)); cbn [negb andb].
    + unfold videoUrlsOf.
      destruct (Obj.get fields "url") as [[| b | n | s | items | us]|];
        cbn [truthy]; try reflexivity.
      * destruct b; reflexivity.
      * destruct (n =? 0)%Z; reflexivity.
      * destruct s; reflexivity.
    + destruct (Obj.get fields "message") as [m|]; [|reflexivity].
      destruct (truthy (Some m)); reflexivity.
  - cbn [negb andb]. unfold videoUrlsOf.
    destruct (Obj.get fields "url") as [[| b | n | s | items | us]|];
      cbn [truthy]; try reflexivity.
    + destruct b; reflexivity.
    + destruct (n =? 0)%Z; reflexivity.
    + destruct s; reflexivity.
Qed.

(** An extracted content id is a non-empty run of digits. *)
Lemma id_is_numeric (url html c : string) :
  id (pageInfo url html) = Some c ->
  c <> "" /\ allChars Str.isDigit c = true.
Proof.
  unfold pageInfo. cbn [id]. unfold firstGroup, exec.
  destruct (exec_from idRegex 0 html) as [f|] eqn:He; [|discriminate].
  intros [= <-]. apply exec_from_sound in He. destruct He as [p' [s' Hr]].
  apply idRegex_group in Hr; [|reflexivity].
  destruct Hr as [ds [Hc [Hne Hds]]].
  unfold group. rewrite Hc. simpl. auto.
Qed.

(** C10: on [/api/stream], once the page is fetched and its content id
    found, the worker sends exactly two requests, the page request and
    the stream request, and the stream request carries as
    [translator_id] the query parameter when it is present and non-empty,
    and otherwise the first [data-translator_id] of the page, which may be
    null. *)
Theorem stream_translator_fallback (request : Request) (w : world)
    (contentUrl : string) (page : reply) (contentId : string) :
  String.eqb (method request) "OPTIONS" = false ->
  pathname request = "/api/stream" ->
  param "url" (searchParams request) = Some contentUrl ->
  contentUrl <> "" ->
  w (GET contentUrl) = Some page ->
  ok page = true ->
  id (pageInfo contentUrl (text page)) = Some contentId ->
  let q := searchParams request in
  let primary := firstGroup (exec translatorRegex (text page)) in
  let tid :=
    match param "translator_id" q with
    | Some t => if Str.isEmpty t then primary else Some t
    | None => primary
    end in
  snd (handle request w) =
  [GET contentUrl;
   streamRequest contentId tid (optInt (param "season" q))
     (optInt (param "episode" q))] /\
  nth_error
    (streamForm contentId tid (optInt (param "season" q))
       (optInt (param "episode" q))) 1 =
  Some ("translator_id",
        match tid with Some t => FStr t | None => FNull end).
Proof.
  intros Hm Hpath Hurl Hne Hw Hok Hid q primary tid. subst q.
  split.
  - unfold handle. rewrite Hm. unfold route. rewrite Hpath.
    cbn [String.eqb Ascii.eqb Bool.eqb orb].
    rewrite Hurl.
    destruct contentUrl as [| c0 u0]; [congruence|]. cbn [Str.isEmpty].
    unfold bind at 1. rewrite getContentInfo_outcome, Hw, Hok, Hid.
    destruct (id_is_numeric _ _ Hid) as [Hc _].
    destruct contentId as [| c1 u1]; [congruence|]. cbn [Str.isEmpty].
    unfold bind.
    pose proof (getStream_sent (String c1 u1)
                  (if given (param "translator_id" (searchParams request))
                   then param "translator_id" (searchParams request)
                   else translatorId (pageInfo (String c0 u0) (text page)))
                  (optInt (param "season" (searchParams request))) (optInt (param "episode" (searchParams request))) w)
      as Hsent.
    destruct (getStream _ _ _ _ w) as [[stream | e] sent]; cbn [snd] in Hsent;
      subst sent; cbn [ret snd app]; f_equal; f_equal; unfold tid, given;
      destruct (param "translator_id" (searchParams request)) as [[| a t]|]; reflexivity.
  - unfold streamForm.
    destruct (optInt (param "season" (searchParams request))), (optInt (param "episode" (searchParams request)));
      reflexivity.
Qed.

Lemma stream_translator_fallback_witness :
  let page := ("<a " ++ attr "data-id" "123" ++ " "
                 ++ attr "data-translator_id" "4" ++ ">Dub</a>")%string in
  let w := upstream 200 page (Some (envelopeOf "")) in
  let request := MkRequest "GET" "/api/stream"
                   [("url", "https://hdrezka.me/films/1-x.html");
                    ("translator_id", "")] in
  id (pageInfo "https://hdrezka.me/films/1-x.html" page) = Some "123" /\
  snd (handle request w) =
  [GET "https://hdrezka.me/films/1-x.html";
   streamRequest "123" (Some "4") None None].
Proof.
  intros page w request.
  assert (Hid : id (pageInfo "https://hdrezka.me/films/1-x.html" page)
                = Some "123") by (vm_compute; reflexivity).
  split; [exact Hid|].
  assert (Hne : "https://hdrezka.me/films/1-x.html" <> "") by discriminate.
  exact (proj1 (@stream_translator_fallback request w
                  "https://hdrezka.me/films/1-x.html"
                  (Reply 200 page None) "123"
                  eq_refl eq_refl eq_refl Hne eq_refl eq_refl Hid)).
Defined.

(** ** Grouping of episodes *)

Lemma same_eq (x y : number) : same x y = true <-> x = y.
Proof.
  destruct x, y; simpl; split; try congruence; try reflexivity.
  - intros H. apply Z.eqb_eq in H. congruence.
  - intros [= ->]. apply Z.eqb_refl.
Qed.

Lemma same_sym (x y : number) : same x y = same y x.
Proof. destruct x, y; simpl; try reflexivity. apply Z.eqb_sym. Qed.

Lemma filter_filter_and (A : Type) (p q : A -> bool) (l : list A) :
  filter p (filter q l) = filter (fun y => q y && p y) l.
Proof.
  induction l as [| a l IH]; simpl; [reflexivity|].
  destruct (q a); simpl; [destruct (p a)|]; rewrite IH; reflexivity.
Qed.

Lemma existsb_same_app (x y : number) (acc : list number) :
  existsb (same y) (acc ++ [x]) = existsb (same y) acc || same y x.
Proof. rewrite existsb_app. simpl. rewrite orb_false_r. reflexivity. Qed.

Lemma pushNew_fold (l acc : list number) :
  fold_left pushNew l acc =
  (acc ++ filter (fun y => negb (existsb (same y) acc))
            (firstAppearances l))%list.
Proof.
  revert acc. induction l as [| x l IH]; intros acc; simpl.
  - rewrite app_nil_r. reflexivity.
  - unfold pushNew at 2. destruct (existsb (same x) acc) eqn:Hx; simpl.
    + rewrite IH. f_equal. rewrite filter_filter_and.
      apply filter_ext. intros y.
      destruct (same y x) eqn:Hyx; [|reflexivity].
      apply same_eq in Hyx. subst. rewrite Hx. reflexivity.
    + rewrite IH, <- app_assoc. simpl. f_equal. f_equal.
      rewrite filter_filter_and. apply filter_ext. intros y.
      rewrite existsb_same_app, negb_orb. apply andb_comm.
Qed.

Lemma pushNew_all (l : list number) :
  fold_left pushNew l [] = firstAppearances l.
Proof.
  rewrite pushNew_fold. simpl. induction (firstAppearances l) as [| a m IH];
    simpl; congruence.
Qed.

Lemma get_put (V : Type) (o : Obj.obj V) (k k' : string) (v : V) :
  Obj.get (Obj.put o k v) k' =
  if String.eqb k' k then Some v else Obj.get o k'.
Proof.
  induction o as [| [k0 v0] o IH]; simpl.
  - reflexivity.
  - destruct (String.eqb_spec k k0) as [-> | Hne]; simpl.
    + destruct (String.eqb k' k0); reflexivity.
    + rewrite IH. destruct (String.eqb_spec k' k0) as [-> | Hne'];
        [|reflexivity].
      destruct (String.eqb_spec k0 k); [congruence | reflexivity].
Qed.

Lemma get_set (V : Type) (o : Obj.obj V) (k k' : string) (v : V) :
  k <> "__proto__" ->
  Obj.get (Obj.set o k v) k' =
  if String.eqb k' k then Some v else Obj.get o k'.
Proof.
  intros H. unfold Obj.set.
  destruct (String.eqb_spec k "__proto__"); [contradiction | apply get_put].
Qed.

Lemma addEpisode_get (o : Obj.obj (list number)) (f : found) (s : string) :
  group 1 f <> "__proto__" ->
  Obj.get (addEpisode o f) s =
  if String.eqb s (group 1 f)
  then Some (pushNew (match Obj.get o (group 1 f) with
                      | Some l => l
                      | None => []
                      end) (parseInt (group 2 f)))
  else Obj.get o s.
Proof.
  intros Hk. unfold addEpisode, pushNew.
  destruct (Obj.get o (group 1 f)) as [l|] eqn:Hg.
  - rewrite Hg. destruct (existsb _ l).
    + destruct (String.eqb_spec s (group 1 f)) as [-> |]; [assumption|reflexivity].
    + apply get_set. assumption.
  - rewrite get_set, String.eqb_refl by assumption. cbn [existsb].
    rewrite get_set by assumption.
    destruct (String.eqb_spec s (group 1 f)) as [-> |]; [reflexivity|].
    rewrite get_set by assumption.
    destruct (String.eqb_spec s (group 1 f)); [contradiction | reflexivity].
Qed.

Lemma addEpisode_fold (ms : list found) (o : Obj.obj (list number))
    (s : string) :
  (forall f, In f ms -> group 1 f <> "__proto__") ->
  Obj.get (fold_left addEpisode ms o) s =
  match episodesOf s
          (map (fun m => (group 1 m, parseInt (group 2 m))) ms) with
  | [] => Obj.get o s
  | eps => Some (fold_left pushNew eps
                   (match Obj.get o s with Some l => l | None => [] end))
  end.
Proof.
  revert o. induction ms as [| f ms IH]; intros o Hk; [reflexivity|].
  cbn [fold_left]. rewrite IH by (intros; apply Hk; right; assumption).
  rewrite addEpisode_get by (apply Hk; left; reflexivity).
  unfold episodesOf. cbn [map filter fst].
  destruct (String.eqb_spec (group 1 f) s) as [<- | Hne].
  - rewrite String.eqb_refl. cbn [map snd fold_left].
    destruct (map snd (filter _ _)); reflexivity.
  - destruct (String.eqb_spec s (group 1 f)); [congruence|]. reflexivity.
Qed.

Lemma episode_seasons_not_proto (html : string) (f : found) :
  In f (exec_all episodeRegex html) -> group 1 f <> "__proto__".
Proof.
  intros H. apply exec_all_sound in H. destruct H as [p' [s' Hr]].
  apply episodeRegex_groups in Hr; [|reflexivity].
  destruct Hr as [season [episode [Hc [Hne [Hds _]]]]].
  unfold group. rewrite Hc. simpl. apply digits_not_proto; assumption.
Qed.

Lemma seasons_of_page (url html season : string) :
  Obj.get (seasons (pageInfo url html)) season =
  match episodesOf season (scannedPairs html) with
  | [] => None
  | eps => Some (firstAppearances eps)
  end.
Proof.
  unfold pageInfo. cbn [seasons].
  destruct (_ || _) eqn:Hseries.
  - rewrite addEpisode_fold by apply episode_seasons_not_proto.
    fold (scannedPairs html).
    destruct (episodesOf season (scannedPairs html)) as [| e eps] eqn:He;
      [reflexivity|].
    cbn [Obj.get Obj.empty]. rewrite pushNew_all. reflexivity.
  - apply orb_false_iff in Hseries. destruct Hseries as [Hs _].
    apply orb_false_iff in Hs. destruct Hs as [_ Hs].
    unfold scannedPairs, episodeRegex. cbn [cat].
    rewrite exec_all_absent by (apply (includes_prefix _ "=" _ Hs)).
    reflexivity.
Qed.

(** C8: for every fetched page, and so for every series page, the
    [seasons] mapping has under each season id the episode ids scanned
    together with that season id, each once, in the order of their first
    appearance, and has no entry for a season id that was not scanned; a
    page whose URL contains [/series/] and that holds the one pair 10, 3
    is a series with seasons 10: [3]. *)
Theorem seasons_grouping (url : string) (w : world) (rep : reply) :
  w (GET url) = Some rep -> ok rep = true ->
  (exists info,
     fst (getContentInfo url w) = Return info /\
     forall season,
       Obj.get (seasons info) season =
       match episodesOf season (scannedPairs (text rep)) with
       | [] => None
       | eps => Some (firstAppearances eps)
       end) /\
  (let info :=
     pageInfo "https://hdrezka.me/series/1-x.html"
       ("<li " ++ attr "data-season_id" "10" ++ " "
          ++ attr "data-episode_id" "3" ++ ">Episode 3</li>") in
   isSeries info = true /\ seasons info = [("10", [Fin 3])]) /\
  firstAppearances [Fin 5; Fin 3; Fin 5; Fin 1; Fin 3] = [Fin 5; Fin 3; Fin 1].
Proof.
  intros Hw Hok. split; [|split].
  - exists (pageInfo url (text rep)).
    rewrite getContentInfo_outcome, Hw, Hok. cbn [fst].
    split; [reflexivity|]. intros season. apply seasons_of_page.
  - vm_compute. split; reflexivity.
  - vm_compute. reflexivity.
Qed.

Lemma seasons_grouping_witness :
  let url := "https://hdrezka.me/series/1-x.html" in
  let html := ("<li " ++ attr "data-season_id" "10" ++ " "
                 ++ attr "data-episode_id" "7" ++ "></li><li "
                 ++ attr "data-season_id" "10" ++ " "
                 ++ attr "data-episode_id" "3" ++ "></li><li "
                 ++ attr "data-season_id" "10" ++ " "
                 ++ attr "data-episode_id" "07" ++ "></li>")%string in
  let w := upstream 200 html None in
  w (GET url) = Some (Reply 200 html None) /\
  exists info,
    fst (getContentInfo url w) = Return info /\
    forall season,
      Obj.get (seasons info) season =
      match episodesOf season (scannedPairs html) with
      | [] => None
      | eps => Some (firstAppearances eps)
      end.
Proof.
  intros url html w. split; [reflexivity|].
  exact (proj1 (@seasons_grouping url w (Reply 200 html None)
                  eq_refl eq_refl)).
Defined.

(** ** Search entries *)

Lemma yearRegex_at (p : nat) (s : string) :
  match rmatch yearRegex Some (MState p s []) with
  | Some st => Some (cap_lookup 1 (caps st))
  | None => None
  end =
  if (String.length (Str.take 4 s) =? 4) && allChars Str.isDigit (Str.take 4 s)
  then Some (Str.take 4 s) else None.
Proof.
  unfold yearRegex, digit. cbn [cat].
  destruct s as [| a [| b [| c [| d s]]]].
  - reflexivity.
  - cbn. destruct (Str.isDigit a); reflexivity.
  - cbn. destruct (Str.isDigit a), (Str.isDigit b); reflexivity.
  - cbn. destruct (Str.isDigit a), (Str.isDigit b), (Str.isDigit c);
      reflexivity.
  - cbn [rmatch rest pos caps].
    destruct (Str.isDigit a) eqn:Ha; [|cbn; rewrite Ha; reflexivity].
    destruct (Str.isDigit b) eqn:Hb; [|cbn; rewrite Ha, Hb; reflexivity].
    destruct (Str.isDigit c) eqn:Hc; [|cbn; rewrite Ha, Hb, Hc; reflexivity].
    destruct (Str.isDigit d) eqn:Hd;
      [|cbn; rewrite Ha, Hb, Hc, Hd; reflexivity].
    cbn [caps cap_lookup Nat.eqb pos rest].
    replace (S (S (S (S p))) - p) with 4 by lia.
    cbn. rewrite Ha, Hb, Hc, Hd. reflexivity.
Qed.

Lemma firstFourDigits_eq (s : string) :
  firstFourDigits s =
  if (String.length (Str.take 4 s) =? 4) && allChars Str.isDigit (Str.take 4 s)
  then Some (Str.take 4 s)
  else
    match s with
    | EmptyString => None
    | String _ s' => firstFourDigits s'
    end.
Proof. destruct s; reflexivity. Qed.

Lemma year_is_first_four_digits (info : string) :
  firstGroup (exec yearRegex info) = firstFourDigits info.
Proof.
  unfold exec. generalize 0 as p.
  induction info as [| c info IH]; intros p.
  - reflexivity.
  - pose proof (yearRegex_at p (String c info)) as H.
    rewrite firstFourDigits_eq.
    change (exec_from yearRegex p (String c info))
      with (match rmatch yearRegex Some (MState p (String c info) []) with
            | Some st => Some (Found p st)
            | None => exec_from yearRegex (S p) info
            end).
    destruct (rmatch yearRegex Some _) as [st|];
      destruct (_ && _); try discriminate H.
    + injection H as H. unfold firstGroup, group. cbn [stop]. f_equal. exact H.
    + apply IH.
Qed.

Lemma searchContent_outcome (query : string) (w : world) :
  fst (searchContent query w) =
  match w (searchRequest query) with
  | None => Throw NetworkError
  | Some rep =>
      if ok rep
      then Return (map resultOf (exec_all itemRegex (text rep)))
      else Throw (Error ("Search failed: " ++ showZ (status rep))%string)
  end.
Proof.
  unfold searchContent, searchRequest, bind, fetch.
  change (HDREZKA_MIRROR ++ "/search/?do=search&subaction=search&q="
            ++ encodeURIComponent query)%string
    with ("https://hdrezka.me/search/?do=search&subaction=search&q="
            ++ encodeURIComponent query)%string.
  destruct (w _) as [rep|]; [|reflexivity].
  destruct (ok rep); reflexivity.
Qed.

(** C9: every entry that [searchContent] returns comes from one match of
    the item pattern; its type is series when its URL contains [/series/];
    otherwise, when the URL contains [/cartoons/], it is series exactly
    when the URL also contains [-sezon]; otherwise it is movie; and its
    year is the first run of four digits of its info text, or null when
    there is none. *)
Theorem search_entry_fields (query : string) (w : world)
    (results : list SearchResult) :
  fst (searchContent query w) = Return results ->
  exists rep,
    w (searchRequest query) = Some rep /\
    results = map resultOf (exec_all itemRegex (text rep)) /\
    forall m, In m (exec_all itemRegex (text rep)) ->
      let entry := resultOf m in
      let url := result_url entry in
      url = group 1 m /\
      (Str.includes "/series/" url = true -> type entry = series) /\
      (Str.includes "/series/" url = false ->
       Str.includes "/cartoons/" url = true ->
       (type entry = series <-> Str.includes "-sezon" url = true) /\
       (type entry = movie <-> Str.includes "-sezon" url = false)) /\
      (Str.includes "/series/" url = false ->
       Str.includes "/cartoons/" url = false -> type entry = movie) /\
      year entry = firstFourDigits (Str.trim (group 4 m)).
Proof.
  rewrite searchContent_outcome.
  destruct (w (searchRequest query)) as [rep|]; [|discriminate].
  destruct (ok rep); [|discriminate].
  intros [= <-]. exists rep. split; [reflexivity|]. split; [reflexivity|].
  intros m _ entry url. subst entry url. unfold resultOf.
  cbn [result_url type year]. unfold contentTypeOf.
  split; [reflexivity|].
  split; [intros ->; reflexivity|].
  split.
  { intros -> ->. destruct (Str.includes "-sezon" (group 1 m));
      split; split; congruence. }
  split; [intros -> ->; reflexivity|].
  apply year_is_first_four_digits.
Qed.

Lemma search_entry_fields_witness :
  let page := sampleItem "https://hdrezka.me/cartoons/1-x-2-sezon.html"
                "USA, 12345 - ..." in
  let w := upstream 200 page None in
  let results :=
    [MkSearchResult "https://hdrezka.me/cartoons/1-x-2-sezon.html" "Title"
       series (Some "1234") "p.jpg"] in
  fst (searchContent "x" w) = Return results /\
  exists rep,
    w (searchRequest "x") = Some rep /\
    results = map resultOf (exec_all itemRegex (text rep)).
Proof.
  intros page w results.
  assert (H : fst (searchContent "x" w) = Return results)
    by (vm_compute; reflexivity).
  split; [exact H|].
  destruct (search_entry_fields "x" w H) as [rep [Hw [Hres _]]].
  exists rep. split; assumption.
Defined.

(** ** Base64 *)

Ltac divmod := zify; Z.to_euclidean_division_equations; lia.

Lemma string_ind3 (P : string -> Prop) :
  P "" ->
  (forall x, P (String x "")) ->
  (forall x y, P (String x (String y ""))) ->
  (forall x y z s, P s -> P (String x (String y (String z s)))) ->
  forall s, P s.
Proof.
  intros H0 H1 H2 H3.
  assert (G : forall s, P s /\ (forall x, P (String x s)) /\
                        (forall x y, P (String x (String y s)))).
  { induction s as [| c s [IH0 [IH1 IH2]]].
    - auto.
    - repeat split; auto. }
  intros s. apply G.
Qed.

Lemma encodeChar_table :
  forallb (fun i =>
             let c := encodeChar (N.of_nat i) in
             match sextet c with
             | Some m => (m =? N.of_nat i)%N
             | None => false
             end && negb (isAsciiWhitespace c))
          (seq 0 64) = true.
Proof. vm_compute. reflexivity. Qed.

Lemma encodeChar_spec (n : N) :
  (n < 64)%N ->
  sextet (encodeChar n) = Some n /\ isAsciiWhitespace (encodeChar n) = false.
Proof.
  intros Hn. pose proof encodeChar_table as T.
  rewrite forallb_forall in T. specialize (T (N.to_nat n)).
  rewrite N2Nat.id in T.
  assert (Hin : In (N.to_nat n) (seq 0 64)) by (apply in_seq; lia).
  apply T in Hin. apply andb_true_iff in Hin. destruct Hin as [H1 H2].
  destruct (sextet (encodeChar n)) as [m|]; [|discriminate].
  apply N.eqb_eq in H1. subst m. apply negb_true_iff in H2. auto.
Qed.

Lemma sextets_cons (n : N) (t : string) (l : list N) :
  (n < 64)%N -> sextets t = Some l ->
  sextets (String (encodeChar n) t) = Some (n :: l).
Proof.
  intros Hn Ht. cbn [sextets].
  rewrite (proj1 (encodeChar_spec Hn)), Ht. reflexivity.
Qed.

Lemma byte_bound (x : ascii) : (N_of_ascii x < 256)%N.
Proof. apply N_ascii_bounded. Qed.

Lemma byte_eq (n : N) (x : ascii) : n = N_of_ascii x -> ascii_of_N n = x.
Proof. intros ->. apply ascii_N_embedding. Qed.

(** Decoding the unpadded encoding gives the bytes back. *)
Lemma decodeBody_encodeGroups (s : string) :
  decodeBody (encodeGroups s) = Some s.
Proof.
  unfold decodeBody.
  assert (G : exists l, sextets (encodeGroups s) = Some l /\ bytesOf l = s).
  { induction s as [| x | x y | x y z s [l [Hl Hb]]] using string_ind3.
    - exists []. auto.
    - pose proof (byte_bound x).
      eexists. cbn [encodeGroups]. split.
      + apply sextets_cons; [divmod|]. apply sextets_cons; [divmod|].
        reflexivity.
      + cbn [bytesOf]. f_equal. apply byte_eq. divmod.
    - pose proof (byte_bound x). pose proof (byte_bound y).
      eexists. cbn [encodeGroups]. split.
      + apply sextets_cons; [divmod|]. apply sextets_cons; [divmod|].
        apply sextets_cons; [divmod|]. reflexivity.
      + cbn [bytesOf]. f_equal; [apply byte_eq; divmod|].
        f_equal. apply byte_eq. divmod.
    - pose proof (byte_bound x). pose proof (byte_bound y).
      pose proof (byte_bound z).
      exists ((N_of_ascii x * 65536 + N_of_ascii y * 256 + N_of_ascii z)
                / 262144
              :: ((N_of_ascii x * 65536 + N_of_ascii y * 256 + N_of_ascii z)
                    / 4096) mod 64
              :: ((N_of_ascii x * 65536 + N_of_ascii y * 256 + N_of_ascii z)
                    / 64) mod 64
              :: (N_of_ascii x * 65536 + N_of_ascii y * 256 + N_of_ascii z)
                   mod 64
              :: l)%N.
      cbn [encodeGroups]. split.
      + apply sextets_cons; [divmod|]. apply sextets_cons; [divmod|].
        apply sextets_cons; [divmod|]. apply sextets_cons; [divmod|].
        assumption.
      + cbn [bytesOf]. rewrite Hb.
        f_equal; [apply byte_eq; divmod|].
        f_equal; [apply byte_eq; divmod|].
        f_equal. apply byte_eq. divmod. }
  destruct G as [l [-> ->]]. reflexivity.
Qed.

#[local] Arguments Ascii.eqb : simpl never.

Lemma allChars_append (p : ascii -> bool) (a b : string) :
  allChars p (a ++ b) = allChars p a && allChars p b.
Proof.
  induction a as [| c a IH]; simpl; [reflexivity|].
  rewrite IH. apply andb_assoc.
Qed.

Lemma rev_acc_append (s acc : string) :
  Str.rev_acc s acc = (Str.rev s ++ acc)%string.
Proof.
  unfold Str.rev. revert acc. induction s as [| c s IH]; intros acc; simpl.
  - reflexivity.
  - rewrite (IH (String c "")), IH, append_assoc. reflexivity.
Qed.

Lemma rev_append (a b : string) :
  Str.rev (a ++ b) = (Str.rev b ++ Str.rev a)%string.
Proof.
  assert (G : forall acc, Str.rev_acc (a ++ b) acc
                          = Str.rev_acc b (Str.rev_acc a acc)).
  { induction a as [| c a IH]; intros acc; simpl; [reflexivity | apply IH]. }
  unfold Str.rev at 1. rewrite G. apply rev_acc_append.
Qed.

Lemma allChars_rev (p : ascii -> bool) (s : string) :
  allChars p (Str.rev s) = allChars p s.
Proof.
  induction s as [| c s IH]; [reflexivity|].
  change (String c s) with (String c "" ++ s)%string.
  rewrite rev_append, !allChars_append, IH. apply andb_comm.
Qed.

Lemma endsWith_append (p s : string) : Str.endsWith p (s ++ p) = true.
Proof. unfold Str.endsWith. rewrite rev_append. apply startsWith_append. Qed.

Lemma alphabet_not_whitespace (c : ascii) :
  isAlphabet c = true -> isAsciiWhitespace c = false.
Proof. destruct c as [[] [] [] [] [] [] [] []]; vm_compute; congruence. Qed.

Lemma alphabet_not_pad (t : string) :
  allChars isAlphabet t = true -> Str.startsWith "=" t = false.
Proof.
  destruct t as [| c t]; [reflexivity|]. cbn [allChars Str.startsWith].
  intros H. apply andb_true_iff in H. destruct H as [H _].
  destruct (Ascii.eqb_spec "=" c) as [<- |]; [discriminate | reflexivity].
Qed.

Lemma alphabet_no_padding_at_end (body : string) :
  allChars isAlphabet body = true ->
  Str.endsWith "=" body = false /\ Str.endsWith "==" body = false.
Proof.
  intros H. rewrite <- allChars_rev in H. apply alphabet_not_pad in H.
  unfold Str.endsWith. split; [assumption|].
  change (Str.rev "==") with ("=" ++ "=")%string.
  destruct (Str.startsWith ("=" ++ "=") (Str.rev body)) eqn:E; [|reflexivity].
  apply startsWith_prefix in E. change (Str.rev "=") with "=" in H. congruence.
Qed.

Lemma removeWhitespace_clean (t : string) :
  allChars (fun c => negb (isAsciiWhitespace c)) t = true ->
  removeWhitespace t = t.
Proof.
  induction t as [| c t IH]; [reflexivity|]. simpl. intros H.
  apply andb_true_iff in H. destruct H as [Hc Ht].
  apply negb_true_iff in Hc. rewrite Hc, IH by assumption. reflexivity.
Qed.

Lemma alphabet_clean (t : string) :
  allChars isAlphabet t = true ->
  allChars (fun c => negb (isAsciiWhitespace c)) t = true.
Proof.
  induction t as [| c t IH]; [reflexivity|]. simpl. intros H.
  apply andb_true_iff in H. destruct H as [Hc Ht].
  rewrite (alphabet_not_whitespace _ Hc), IH by assumption. reflexivity.
Qed.

Lemma pads_clean (pad : string) :
  allChars (Ascii.eqb "=") pad = true ->
  allChars (fun c => negb (isAsciiWhitespace c)) pad = true.
Proof.
  induction pad as [| c t IH]; [reflexivity|]. simpl. intros H.
  apply andb_true_iff in H. destruct H as [Hc Ht].
  apply Ascii.eqb_eq in Hc. subst c. rewrite IH by assumption. reflexivity.
Qed.

Lemma sextets_alphabet (t : string) (l : list N) :
  sextets t = Some l -> allChars isAlphabet t = true.
Proof.
  revert l. induction t as [| c t IH]; intros l; [reflexivity|].
  simpl. unfold isAlphabet. destruct (sextet c); [|discriminate].
  destruct (sextets t) as [l'|]; [|discriminate].
  intros _. simpl. eapply IH. reflexivity.
Qed.

Lemma sextets_padded (body pad : string) :
  pad <> "" -> allChars (Ascii.eqb "=") pad = true ->
  sextets (body ++ pad) = None.
Proof.
  intros Hne Hpad. induction body as [| c body IH]; simpl.
  - destruct pad as [| c pad]; [congruence|]. simpl in Hpad.
    apply andb_true_iff in Hpad. destruct Hpad as [Hc _].
    apply Ascii.eqb_eq in Hc. subst c. reflexivity.
  - rewrite IH. destruct (sextet c); reflexivity.
Qed.

(** [atob] on an unpadded body. *)
Lemma atob_body (body : string) :
  allChars isAlphabet body = true ->
  String.length body mod 4 <> 1 ->
  atob body = decodeBody body.
Proof.
  intros Ha Hlen. unfold atob.
  rewrite removeWhitespace_clean by (apply alphabet_clean; assumption).
  assert (Hs : stripPadding body = body).
  { unfold stripPadding.
    destruct (alphabet_no_padding_at_end body Ha) as [H1 H2].
    rewrite H1, H2. destruct (_ =? 0); reflexivity. }
  rewrite Hs.
  destruct (Nat.eqb_spec (String.length body mod 4) 1); [contradiction|].
  reflexivity.
Qed.

(** [atob] on a body with the one or two [=] that complete its last
    group. *)
Lemma atob_padded (body pad : string) :
  allChars isAlphabet body = true ->
  pad = "=" \/ pad = "==" ->
  String.length (body ++ pad) mod 4 = 0 ->
  atob (body ++ pad) = decodeBody body.
Proof.
  intros Ha Hpad Hlen. unfold atob.
  rewrite removeWhitespace_clean.
  2:{ rewrite allChars_append, (alphabet_clean _ Ha).
      destruct Hpad as [-> | ->]; reflexivity. }
  assert (Hs : stripPadding (body ++ pad) = body).
  { unfold stripPadding. rewrite Hlen. cbn [Nat.eqb].
    destruct Hpad as [-> | ->].
    - assert (E : Str.endsWith "==" (body ++ "=") = false).
      { unfold Str.endsWith. rewrite rev_append.
        change (Str.rev "=" ++ Str.rev body)%string
          with (String "=" (Str.rev body)).
        change (Str.rev "==") with "==". cbn [Str.startsWith].
        rewrite Ascii.eqb_refl. cbn [andb].
        fold (Str.startsWith "=" (Str.rev body)).
        apply alphabet_not_pad. rewrite allChars_rev. assumption. }
      rewrite E, endsWith_append, length_append. simpl String.length.
      replace (String.length body + 1 - 1) with (String.length body) by lia.
      apply take_append.
    - rewrite endsWith_append, length_append. simpl String.length.
      replace (String.length body + 2 - 2) with (String.length body) by lia.
      apply take_append. }
  rewrite Hs. rewrite length_append in Hlen.
  destruct (Nat.eqb_spec (String.length body mod 4) 1) as [E|]; [|reflexivity].
  destruct Hpad as [-> | ->]; simpl String.length in Hlen; exfalso;
    zify; Z.to_euclidean_division_equations; lia.
Qed.

(** [atob] rejects padding that does not complete a group. *)
Lemma atob_misplaced_padding (body pad : string) :
  allChars isAlphabet body = true ->
  pad <> "" -> allChars (Ascii.eqb "=") pad = true ->
  String.length (body ++ pad) mod 4 <> 0 ->
  atob (body ++ pad) = None.
Proof.
  intros Ha Hne Hpad Hlen. unfold atob.
  rewrite removeWhitespace_clean
    by (rewrite allChars_append, (alphabet_clean _ Ha), (pads_clean _ Hpad);
        reflexivity).
  assert (Hs : stripPadding (body ++ pad) = (body ++ pad)%string).
  { unfold stripPadding.
    destruct (Nat.eqb_spec (String.length (body ++ pad) mod 4) 0);
      [contradiction | reflexivity]. }
  rewrite Hs, sextets_padded by assumption.
  destruct (_ =? 1); reflexivity.
Qed.

Lemma length_encodeGroups (s : string) :
  String.length (encodeGroups s) mod 4 =
  match String.length s mod 3 with
  | 0 => 0
  | 1 => 2
  | _ => 3
  end.
Proof.
  induction s as [| x | x y | x y z s IH] using string_ind3;
    try reflexivity.
  cbn [encodeGroups String.length].
  replace (S (S (S (S (String.length (encodeGroups s))))))
    with (String.length (encodeGroups s) + 1 * 4) by lia.
  replace (S (S (S (String.length s)))) with (String.length s + 1 * 3) by lia.
  rewrite !Nat.Div0.mod_add. assumption.
Qed.

Lemma encodeGroups_alphabet (s : string) :
  allChars isAlphabet (encodeGroups s) = true.
Proof.
  pose proof (decodeBody_encodeGroups s) as H. unfold decodeBody in H.
  destruct (sextets (encodeGroups s)) as [l|] eqn:E; [|discriminate].
  eapply sextets_alphabet. eassumption.
Qed.

(** The two attempts of [clearTrash] recover the clear text from its
    base64 encoding, padded or not. *)
Lemma decoding_attempts (clear cleaned : string) :
  cleaned = btoa clear \/ cleaned = encodeGroups clear ->
  match atob (cleaned ++ "==") with
  | Some s => s
  | None =>
      match atob cleaned with
      | Some s => s
      | None => ""
      end
  end = clear.
Proof.
  pose proof (encodeGroups_alphabet clear) as Ha.
  pose proof (length_encodeGroups clear) as Hlen.
  pose proof (decodeBody_encodeGroups clear) as Hdec.
  assert (Hr : String.length clear mod 3 < 3)
    by (apply Nat.mod_upper_bound; lia).
  unfold btoa, padding.
  destruct (String.length clear mod 3) as [| [| [| r]]] eqn:Er; [| | | lia];
    intros [-> | ->].
  - rewrite append_nil_r.
    rewrite atob_misplaced_padding, atob_body, Hdec;
      try assumption; try reflexivity; try discriminate;
      rewrite ?length_append; simpl String.length;
      zify; Z.to_euclidean_division_equations; lia.
  - rewrite atob_misplaced_padding, atob_body, Hdec;
      try assumption; try reflexivity; try discriminate;
      rewrite ?length_append; simpl String.length;
      zify; Z.to_euclidean_division_equations; lia.
  - rewrite append_assoc.
    rewrite atob_misplaced_padding, atob_padded, Hdec;
      try assumption; try reflexivity; try discriminate; auto;
      rewrite ?length_append; simpl String.length;
      zify; Z.to_euclidean_division_equations; lia.
  - rewrite atob_padded, Hdec; try assumption; try reflexivity; auto.
    rewrite length_append. simpl String.length.
    zify; Z.to_euclidean_division_equations; lia.
  - rewrite append_assoc.
    rewrite atob_misplaced_padding, atob_padded, Hdec;
      try assumption; try reflexivity; try discriminate; auto;
      rewrite ?length_append; simpl String.length;
      zify; Z.to_euclidean_division_equations; lia.
  - rewrite atob_misplaced_padding, atob_body, Hdec;
      try assumption; try reflexivity; try discriminate;
      rewrite ?length_append; simpl String.length;
      zify; Z.to_euclidean_division_equations; lia.
Qed.

(** ** The junk pattern *)

Ltac reach_inv :=
  repeat match goal with
         | H : Reach (Or _ _) _ _ |- _ => inversion H; clear H; subst
         | H : Reach (Cat _ _) _ _ |- _ => inversion H; clear H; subst
         | H : Reach (Class _) _ _ |- _ => inversion H; clear H; subst
         | H : Reach Bol _ _ |- _ => inversion H; clear H; subst
         | H : Reach Eps _ _ |- _ => inversion H; clear H; subst
         end.

Lemma trash_at_end (p : nat) :
  rmatch TRASH_PATTERN Some (MState p "" []) = None.
Proof. destruct p; reflexivity. Qed.

Lemma trash_at_hash (s : string) :
  rmatch TRASH_PATTERN Some (MState 0 ("#h" ++ s) []) = Some (MState 2 s []).
Proof. reflexivity. Qed.

Lemma trash_at_marker (m : string) :
  In m junkMarkers ->
  forall p s,
    rmatch TRASH_PATTERN Some (MState p (m ++ s) [])
    = Some (MState (String.length m + p) s []).
Proof.
  intros H. cbv [junkMarkers pairsOf flat_map map app append] in H.
  cbn [In] in H.
  repeat (destruct H as [<- | H];
          [intros p s; destruct p; vm_compute; reflexivity|]).
  contradiction.
Qed.

Lemma junkMarkers_length (m : string) :
  In m junkMarkers -> 4 <= String.length m.
Proof.
  assert (T : forallb (fun m => 4 <=? String.length m) junkMarkers = true)
    by (vm_compute; reflexivity).
  rewrite forallb_forall in T. intros H. apply T in H.
  apply Nat.leb_le. assumption.
Qed.

Lemma in_junkMarkers (m : string) :
  existsb (String.eqb m) junkMarkers = true -> In m junkMarkers.
Proof.
  intros H. apply existsb_exists in H. destruct H as [x [Hin Heq]].
  apply String.eqb_eq in Heq. subst x. exact Hin.
Qed.

Ltac marker_chars :=
  repeat match goal with
         | H : Ascii.eqb _ _ = true |- _ => apply Ascii.eqb_eq in H; subst
         | H : Str.mem _ _ = true |- _ =>
             cbn [Str.mem] in H;
             repeat (apply orb_true_iff in H; destruct H as [H | H]);
             try discriminate H
         | H : Ascii.eqb _ _ || _ = true |- _ =>
             repeat (apply orb_true_iff in H; destruct H as [H | H]);
             try discriminate H
         end.

Ltac prefix_of s t :=
  match s with
  | t => constr:(EmptyString)
  | String ?c ?s' => let r := prefix_of s' t in constr:(String c r)
  end.

(** What the pattern matches at a place is a junk marker, or [#h] at the
    start. *)
Lemma trash_match_is_marker (p : nat) (s : string) (st' : mstate) :
  rmatch TRASH_PATTERN Some (MState p s []) = Some st' ->
  exists m,
    ((m = "#h" /\ p = 0) \/ In m junkMarkers) /\
    s = (m ++ rest st')%string /\
    pos st' = p + String.length m /\ caps st' = [].
Proof.
  intros H. apply rmatch_sound in H. destruct H as [st1 [Hr [= ->]]].
  revert Hr. unfold TRASH_PATTERN, oneOf, chr. cbn [alt cat lit]. unfold chr.
  intros Hr. reach_inv; lazy beta in *; cbn [rest pos caps] in *;
    marker_chars; subst;
    match goal with
    | |- exists m, @?P m =>
        let Q := eval cbv beta in (P EmptyString) in
        match Q with
        | _ /\ ?s = append EmptyString ?t /\ _ =>
            let m0 := prefix_of s t in exists m0
        end
    end;
    (split; [|split; [reflexivity | split; [cbn [String.length]; lia
                                            | reflexivity]]]);
    first [ left; split; [reflexivity | first [reflexivity | assumption]]
          | right; apply in_junkMarkers; vm_compute; reflexivity ].
Qed.

Lemma markerAt_marker (m s : string) :
  In m junkMarkers -> markerAt (m ++ s) = true.
Proof.
  intros H. unfold markerAt. apply existsb_exists.
  exists m. split; [exact H | apply startsWith_append].
Qed.

(** Where no marker stands, the pattern does not match. *)
Lemma trash_free (p : nat) (s : string) :
  markerAt s = false ->
  p <> 0 \/ Str.startsWith "#h" s = false ->
  rmatch TRASH_PATTERN Some (MState p s []) = None.
Proof.
  intros Hfree Hstart.
  destruct (rmatch TRASH_PATTERN Some (MState p s [])) as [st'|] eqn:Hm;
    [|reflexivity].
  apply trash_match_is_marker in Hm.
  destruct Hm as [m [[[-> ->] | Hin] [-> _]]].
  - destruct Hstart as [Hp | Hs]; [congruence|].
    rewrite startsWith_append in Hs. discriminate.
  - rewrite (@markerAt_marker m _ Hin) in Hfree. discriminate.
Qed.

(** A marker stands at the head of a text exactly when the pattern matches
    there, the start of the token apart. *)
Lemma markerAt_spec (s : string) :
  markerAt s = false <->
  forall p, p <> 0 -> rmatch TRASH_PATTERN Some (MState p s []) = None.
Proof.
  split.
  - intros H p Hp. apply trash_free; [exact H | left; exact Hp].
  - intros H. destruct (markerAt s) eqn:E; [|reflexivity].
    unfold markerAt in E. apply existsb_exists in E.
    destruct E as [m [Hin Hs]]. apply startsWith_split in Hs.
    specialize (H 1 ltac:(discriminate)).
    rewrite Hs, (trash_at_marker Hin) in H. discriminate.
Qed.

Lemma markerFree_spec (x rest : string) :
  markerFree x rest = true <->
  forall i p, i < String.length x -> p <> 0 ->
    rmatch TRASH_PATTERN Some (MState p (Str.drop i x ++ rest) []) = None.
Proof.
  induction x as [| c x IH].
  - split; [intros _ i p Hi; cbn [String.length] in Hi; lia | reflexivity].
  - cbn [markerFree]. rewrite andb_true_iff, negb_true_iff, IH, markerAt_spec.
    split.
    + intros [H0 H] [| i] p Hi Hp; cbn [Str.drop].
      * apply H0. exact Hp.
      * apply H; [cbn [String.length] in Hi; lia | exact Hp].
    + intros H. split.
      * intros p Hp.
        apply (H 0 p); [cbn [String.length]; lia | exact Hp].
      * intros i p Hi Hp.
        apply (H (S i) p); [cbn [String.length]; lia | exact Hp].
Qed.

(** No junk marker begins with [#]. *)
Lemma junkMarkers_head (m s : string) :
  In m junkMarkers -> Str.startsWith "#h" (m ++ s) = false.
Proof.
  assert (T : forallb (fun m => negb (headIs (Ascii.eqb "#") m)
                                && negb (Str.isEmpty m)) junkMarkers = true)
    by (vm_compute; reflexivity).
  rewrite forallb_forall in T. intros H. apply T in H.
  destruct m as [| c m]; [discriminate|].
  cbn [headIs Str.isEmpty negb andb] in H. rewrite andb_true_r in H.
  cbn [append Str.startsWith].
  destruct (Ascii.eqb "#" c); [discriminate | reflexivity].
Qed.

(** ** The global replacement *)

Lemma remove_all_from_match (r : regex) (n p : nat) (s : string)
    (st : mstate) :
  rmatch r Some (MState p s []) = Some st ->
  (p <? pos st) = true ->
  remove_all_from r (S n) p s = remove_all_from r n (pos st) (rest st).
Proof. intros H1 H2. cbn [remove_all_from]. rewrite H1, H2. reflexivity. Qed.

Lemma remove_text (x : string) :
  forall rest fuel p,
    markerFree x rest = true ->
    p <> 0 \/ Str.startsWith "#h" (x ++ rest) = false ->
    String.length x <= fuel ->
    remove_all_from TRASH_PATTERN fuel p (x ++ rest) =
    (x ++ remove_all_from TRASH_PATTERN (fuel - String.length x)
            (p + String.length x) rest)%string.
Proof.
  induction x as [| c x IH]; intros rest fuel p Hx Hstart Hfuel.
  - simpl. rewrite Nat.sub_0_r, Nat.add_0_r. reflexivity.
  - cbn [markerFree] in Hx. apply andb_true_iff in Hx.
    destruct Hx as [Hc Hx]. apply negb_true_iff in Hc.
    destruct fuel as [| n]; [simpl in Hfuel; lia|].
    cbn [append remove_all_from].
    change (String c (x ++ rest)) with (String c x ++ rest)%string.
    rewrite (@trash_free p _ Hc Hstart).
    rewrite IH by (assumption || (left; lia) || (simpl in Hfuel; lia)).
    cbn [String.length]. f_equal. f_equal. f_equal; lia.
Qed.

Lemma remove_marker (m : string) :
  In m junkMarkers ->
  forall fuel p s,
    1 <= fuel ->
    remove_all_from TRASH_PATTERN fuel p (m ++ s) =
    remove_all_from TRASH_PATTERN (fuel - 1) (String.length m + p) s.
Proof.
  intros Hm fuel p s Hfuel. pose proof (junkMarkers_length Hm) as Hlen.
  destruct fuel as [| n]; [lia|].
  cbn [remove_all_from]. rewrite trash_at_marker by assumption.
  cbn [pos rest].
  replace (p <? String.length m + p) with true
    by (symmetry; apply Nat.ltb_lt; lia).
  replace (S n - 1) with n by lia. reflexivity.
Qed.

Lemma remove_nothing (fuel p : nat) :
  remove_all_from TRASH_PATTERN fuel p "" = "".
Proof.
  destruct fuel as [| n]; [reflexivity|].
  cbn [remove_all_from]. rewrite trash_at_end. reflexivity.
Qed.

Lemma remove_assembled (ps : list piece) :
  interspersed ps = true ->
  forall fuel p,
    p <> 0 \/ Str.startsWith "#h" (assemble ps) = false ->
    String.length (assemble ps) <= fuel ->
    remove_all_from TRASH_PATTERN fuel p (assemble ps) = clearText ps.
Proof.
  induction ps as [| [x | m] ps IH]; intros Hwf fuel p Hstart Hfuel.
  - apply remove_nothing.
  - cbn [interspersed] in Hwf.
    apply andb_true_iff in Hwf. destruct Hwf as [Hx Hwf].
    cbn [assemble clearText] in *. rewrite length_append in Hfuel.
    rewrite remove_text by (assumption || lia).
    rewrite IH; [reflexivity | assumption | | lia].
    destruct x as [| c x]; [|left; cbn [String.length]; lia].
    rewrite Nat.add_0_r. exact Hstart.
  - cbn [interspersed] in Hwf.
    apply andb_true_iff in Hwf. destruct Hwf as [Hm Hwf].
    apply in_junkMarkers in Hm.
    pose proof (junkMarkers_length Hm) as Hlen.
    cbn [assemble clearText] in *. rewrite length_append in Hfuel.
    rewrite remove_marker by (assumption || lia).
    apply IH; [assumption | left; lia | lia].
Qed.

(** A token that begins with [#h] without the prefix being put in has a
    text that begins with [#]. *)
Lemma assembled_hash (ps : list piece) :
  interspersed ps = true ->
  Str.startsWith "#h" (assemble ps) = true ->
  headIs (Ascii.eqb "#") (clearText ps) = true.
Proof.
  induction ps as [| [x | m] ps IH]; intros Hwf Hs; [discriminate| |].
  - cbn [interspersed] in Hwf.
    apply andb_true_iff in Hwf. destruct Hwf as [_ Hwf].
    cbn [assemble clearText] in *.
    destruct x as [| c x]; [exact (IH Hwf Hs)|].
    cbn [append Str.startsWith headIs] in *.
    apply andb_true_iff in Hs. exact (proj1 Hs).
  - cbn [interspersed] in Hwf.
    apply andb_true_iff in Hwf. destruct Hwf as [Hm _].
    apply in_junkMarkers in Hm. cbn [assemble] in Hs.
    rewrite (@junkMarkers_head m _ Hm) in Hs. discriminate.
Qed.

(** Base64 text does not begin with [#]. *)
Lemma encoding_head (clear text : string) :
  text = btoa clear \/ text = encodeGroups clear ->
  headIs (Ascii.eqb "#") text = false.
Proof.
  pose proof (encodeGroups_alphabet clear) as Ha.
  assert (G : forall pad, headIs (Ascii.eqb "#") pad = false ->
                          headIs (Ascii.eqb "#") (encodeGroups clear ++ pad)
                          = false).
  { intros pad Hpad. destruct (encodeGroups clear) as [| c t]; [exact Hpad|].
    change (isAlphabet c && allChars isAlphabet t = true) in Ha.
    apply andb_true_iff in Ha. destruct Ha as [Hc _].
    cbn [append headIs].
    destruct (Ascii.eqb_spec "#" c) as [<- | _]; [discriminate | reflexivity]. }
  intros [-> | ->].
  - unfold btoa. apply G. unfold padding.
    destruct (String.length clear mod 3) as [| [| k]]; reflexivity.
  - rewrite <- (append_nil_r (encodeGroups clear)). apply G. reflexivity.
Qed.

(** C2 (as amended): take a token made of text pieces and junk markers
    -- any number of markers, in sequence or side by side -- in which no
    junk marker begins inside a text piece, so that the markers of the
    token are the ones put in.  The global replacement removes every
    marker and leaves the text, with the [#h] prefix and without it
    (when the token does not itself begin with [#h]).  Consequently, when
    the text pieces make up the base64 encoding of a clear string, padded
    or not, the deobfuscator returns that clear string, with the prefix
    and without it.  The condition on a text piece says no more than that
    the pattern matches at none of its places, read on into the rest of
    the token. *)
Theorem deobfuscation_round_trip (clear : string) (ps : list piece) :
  (interspersed ps = true ->
   (remove_all TRASH_PATTERN ("#h" ++ assemble ps) = clearText ps /\
    (Str.startsWith "#h" (assemble ps) = false ->
     remove_all TRASH_PATTERN (assemble ps) = clearText ps)) /\
   (clearText ps = btoa clear \/ clearText ps = encodeGroups clear ->
    clearTrash ("#h" ++ assemble ps) = clear /\
    clearTrash (assemble ps) = clear)) /\
  (forall x rest,
     markerFree x rest = true <->
     forall i p, i < String.length x -> p <> 0 ->
       rmatch TRASH_PATTERN Some (MState p (Str.drop i x ++ rest) []) = None).
Proof.
  split; [|exact markerFree_spec].
  intros Hwf.
  assert (Hprefixed : remove_all TRASH_PATTERN ("#h" ++ assemble ps)
                      = clearText ps).
  { unfold remove_all.
    change (String.length ("#h" ++ assemble ps))
      with (S (S (String.length (assemble ps)))).
    rewrite (@remove_all_from_match _ _ _ _ _ (trash_at_hash _))
      by reflexivity.
    cbn [pos rest]. apply remove_assembled; [assumption | left; lia | lia]. }
  assert (Hbare : Str.startsWith "#h" (assemble ps) = false ->
                  remove_all TRASH_PATTERN (assemble ps) = clearText ps).
  { intros Hs. apply remove_assembled; [assumption | right; exact Hs | lia]. }
  split; [split; assumption|].
  intros Henc.
  assert (Hs : Str.startsWith "#h" (assemble ps) = false).
  { destruct (Str.startsWith "#h" (assemble ps)) eqn:E; [|reflexivity].
    pose proof (@assembled_hash ps Hwf E) as Hh.
    rewrite (@encoding_head clear _ Henc) in Hh. discriminate. }
  unfold clearTrash. rewrite Hprefixed, (Hbare Hs).
  split; apply decoding_attempts; exact Henc.
Qed.

Lemma deobfuscation_round_trip_witness :
  let clear := "[1080p]a.m3u8,[1080]b.m3u8" in
  let ps := [Junk "//_//"; Text "WzEwODBwXWEu"; Junk "IUAh"; Junk "QEBe";
             Text "bTN1OCxbMTA4MF1iLm0zdTg="; Junk "//_//"] in
  interspersed ps = true /\
  clearText ps = btoa clear /\
  clearTrash ("#h" ++ assemble ps) = clear /\
  clearTrash (assemble ps) = clear.
Proof.
  intros clear ps.
  assert (Hwf : interspersed ps = true) by (vm_compute; reflexivity).
  assert (Henc : clearText ps = btoa clear) by (vm_compute; reflexivity).
  split; [exact Hwf|]. split; [exact Henc|].
  exact (proj2 (proj1 (deobfuscation_round_trip clear ps) Hwf)
           (or_introl Henc)).
Defined.

(** C2 (as stated) fails: the base64 encoding of the clear string below is
    itself a junk marker, so it is removed and nothing is left to decode. *)
Lemma base64_text_can_be_a_marker :
  btoa "!@!" = "IUAh" /\
  clearTrash (btoa "!@!") = "" /\
  clearTrash ("//_//" ++ btoa "!@!") = "" /\
  clearTrash (btoa "!@!") <> "!@!".
Proof. repeat split. discriminate. Qed.

(** ** Splitting what was joined *)

Lemma rev_involutive (s : string) : Str.rev (Str.rev s) = s.
Proof.
  induction s as [| c s IH]; [reflexivity|].
  change (String c s) with (String c "" ++ s)%string.
  rewrite rev_append, rev_append, IH. reflexivity.
Qed.

Lemma split_go_skip (sep w rest cur : string) :
  Str.split_go sep (w ++ rest) cur (String.length w)
  = Str.split_go sep rest cur 0.
Proof.
  induction w as [| c w IH]; [reflexivity|]. simpl. apply IH.
Qed.

Lemma split_go_at_separator (c0 : ascii) (sep' rest cur : string) :
  Str.split_go (String c0 sep') (String c0 sep' ++ rest) cur 0
  = Str.rev cur :: Str.split_go (String c0 sep') rest "" 0.
Proof.
  cbn [append Str.split_go].
  change (String c0 (sep' ++ rest)) with (String c0 sep' ++ rest)%string.
  rewrite startsWith_append. cbn [String.length].
  replace (S (String.length sep') - 1) with (String.length sep') by lia.
  rewrite split_go_skip. reflexivity.
Qed.

Lemma split_go_piece (c0 : ascii) (sep' x tail cur : string) :
  allChars (fun c => negb (Ascii.eqb c c0)) x = true ->
  Str.split_go (String c0 sep') (x ++ tail) cur 0
  = Str.split_go (String c0 sep') tail (Str.rev_acc x cur) 0.
Proof.
  revert cur. induction x as [| c x IH]; intros cur Hx; [reflexivity|].
  simpl in Hx. apply andb_true_iff in Hx. destruct Hx as [Hc Hx].
  apply negb_true_iff in Hc.
  cbn [append Str.split_go Str.startsWith Str.rev_acc].
  rewrite Ascii.eqb_sym, Hc. cbn [andb]. apply IH. assumption.
Qed.

Lemma split_go_last (c0 : ascii) (sep' x : string) :
  allChars (fun c => negb (Ascii.eqb c c0)) x = true ->
  Str.split_go (String c0 sep') x "" 0 = [x].
Proof.
  intros Hx. rewrite <- (append_nil_r x) at 1.
  rewrite split_go_piece by assumption. cbn [Str.split_go].
  fold (Str.rev x). rewrite rev_involutive. reflexivity.
Qed.

(** Pieces that hold no first character of the separator come back from a
    split of their join. *)
Lemma split_join (c0 : ascii) (sep' : string) (pieces : list string) :
  pieces <> [] ->
  Forall (fun x => allChars (fun c => negb (Ascii.eqb c c0)) x = true)
         pieces ->
  Str.split (String c0 sep') (joinWith (String c0 sep') pieces) = pieces.
Proof.
  intros Hne Hall. unfold Str.split.
  induction pieces as [| x [| y pieces] IH]; [congruence | |].
  - inversion Hall; subst. apply split_go_last. assumption.
  - inversion Hall as [| ? ? Hx Hrest]; subst.
    cbn [joinWith]. rewrite split_go_piece by assumption.
    rewrite split_go_at_separator. fold (Str.rev x).
    rewrite rev_involutive. f_equal. apply IH; [discriminate | assumption].
Qed.

(** ** Segments of the decoded payload *)

Lemma allChars_impl (p q : ascii -> bool) (s : string) :
  (forall c, p c = true -> q c = true) ->
  allChars p s = true -> allChars q s = true.
Proof.
  intros Hpq. induction s as [| c s IH]; [reflexivity|]. simpl.
  intros H. apply andb_true_iff in H. destruct H as [Hc Hs].
  rewrite (Hpq c Hc), IH by assumption. reflexivity.
Qed.

Lemma allChars_joinWith (p : ascii -> bool) (sep : string) (l : list string) :
  allChars p sep = true ->
  Forall (fun x => allChars p x = true) l ->
  allChars p (joinWith sep l) = true.
Proof.
  intros Hsep Hl. induction l as [| x [| y l] IH]; [reflexivity | |].
  - inversion Hl; assumption.
  - inversion Hl as [| ? ? Hx Hrest]; subst.
    change (joinWith sep (x :: y :: l))
      with (x ++ sep ++ joinWith sep (y :: l))%string.
    rewrite !allChars_append, Hx, Hsep, IH by assumption. reflexivity.
Qed.

Lemma joinWith_nonempty (sep x : string) (l : list string) :
  x <> "" -> joinWith sep (x :: l) <> "".
Proof.
  intros Hx. destruct x as [| c x]; [congruence|].
  destruct l; cbn [joinWith append]; discriminate.
Qed.

Lemma rmatch_bol (k : cont) (s : string) (cs : list (nat * string)) :
  rmatch Bol k (MState 0 s cs) = k (MState 0 s cs).
Proof. reflexivity. Qed.

(** The segment pattern on text of the shape [[q]rest]. *)
Lemma partRegex_on_shape (q r : string) :
  q <> "" -> allChars (fun c => negb (Str.mem c "]")) q = true ->
  r <> "" -> allChars (fun c => negb (isLineTerminator c)) r = true ->
  exists f, exec partRegex ("[" ++ q ++ "]" ++ r) = Some f /\
            group 1 f = q /\ group 2 f = r.
Proof.
  intros Hq Hqc Hr Hrc. eexists. split.
  - unfold exec. apply exec_from_hit.
    unfold partRegex, noneOf, dot, chr. cbn [cat].
    rewrite rmatch_cat, rmatch_bol.
    rewrite rmatch_cat. cbn [append]. rewrite rmatch_class_hit by reflexivity.
    rewrite rmatch_cat.
    apply greedy_group_run; [assumption | assumption | reflexivity |].
    rewrite rmatch_cat. cbn [append]. rewrite rmatch_class_hit by reflexivity.
    rewrite rmatch_cat. rewrite <- (append_nil_r r) at 1.
    apply greedy_group_run; [assumption | assumption | reflexivity |].
    reflexivity.
  - split; reflexivity.
Qed.

(** The pattern is anchored: text that does not begin with a bracket does
    not match. *)
Lemma partRegex_needs_bracket (s : string) :
  Str.startsWith "[" s = false -> exec partRegex s = None.
Proof.
  intros Hs. unfold exec.
  assert (Hlater : forall t p, exec_from partRegex (S p) t = None).
  { induction t as [| c t IH]; intros p; cbn [exec_from];
      unfold partRegex; cbn [cat]; rewrite rmatch_cat; cbn [rmatch pos Nat.eqb];
      [reflexivity | fold partRegex; apply IH]. }
  destruct s as [| c s]; cbn [exec_from]; unfold partRegex, chr; cbn [cat];
    rewrite rmatch_cat; cbn [rmatch pos Nat.eqb rest].
  - reflexivity.
  - cbn [Str.startsWith] in Hs. rewrite andb_true_r in Hs. rewrite Hs.
    apply Hlater.
Qed.

Lemma isAlternative_spec (u : string) :
  isAlternative u = true ->
  u <> "" /\
  allChars (fun c => negb (Ascii.eqb c " ")) u = true /\
  allChars (fun c => negb (Ascii.eqb c ",")) u = true /\
  allChars (fun c => negb (isLineTerminator c)) u = true.
Proof.
  unfold isAlternative. intros H. apply andb_true_iff in H.
  destruct H as [Hne Hc]. split; [destruct u; [discriminate | discriminate]|].
  repeat split; revert Hc; apply allChars_impl; intros c Hc;
    apply andb_true_iff in Hc; destruct Hc as [Hm Hl]; try assumption;
    cbn [Str.mem] in Hm; rewrite !negb_orb in Hm;
    repeat (apply andb_true_iff in Hm; destruct Hm as [? Hm]); assumption.
Qed.

Lemma isQuality_spec (q : string) :
  isQuality q = true ->
  q <> "" /\
  allChars (fun c => negb (Str.mem c "]")) q = true /\
  allChars (fun c => negb (Ascii.eqb c ",")) q = true.
Proof.
  unfold isQuality. intros H. apply andb_true_iff in H.
  destruct H as [Hne Hc]. split; [destruct q; [discriminate | discriminate]|].
  split; revert Hc; apply allChars_impl; intros c Hc;
    cbn [Str.mem] in *; rewrite !negb_orb in Hc;
    repeat (apply andb_true_iff in Hc; destruct Hc as [? Hc]).
  - rewrite orb_false_r. assumption.
  - assumption.
Qed.

Lemma alternatives_spec (alts : list string) :
  forallb isAlternative alts = true ->
  Forall (fun x => allChars (fun c => negb (Ascii.eqb c " ")) x = true) alts /\
  Forall (fun x => allChars (fun c => negb (Ascii.eqb c ",")) x = true) alts /\
  Forall (fun x => allChars (fun c => negb (isLineTerminator c)) x = true)
         alts.
Proof.
  induction alts as [| u alts IH]; intros H; [repeat split; constructor|].
  cbn [forallb] in H. apply andb_true_iff in H. destruct H as [Hu Hrest].
  destruct (isAlternative_spec u Hu) as [_ [H1 [H2 H3]]].
  destruct (IH Hrest) as [G1 [G2 G3]].
  repeat split; constructor; assumption.
Qed.

(** What one well-formed segment does to the mapping. *)
Lemma addPart_segment (urls : Obj.obj string) (g : segment) :
  wellFormedSegment g = true ->
  addPart urls (renderSegment g) =
  match g with
  | Tagged q alts =>
      match find (Str.endsWith ".m3u8") alts with
      | Some u => Obj.set urls q u
      | None => urls
      end
  | Untagged _ => urls
  end.
Proof.
  destruct g as [q alts | s]; cbn [wellFormedSegment renderSegment];
    intros H.
  - apply andb_true_iff in H. destruct H as [H Halts].
    apply andb_true_iff in H. destruct H as [Hq Hne].
    destruct (isQuality_spec q Hq) as [Hq1 [Hq2 _]].
    destruct (alternatives_spec alts Halts) as [Hsp [_ Hlt]].
    destruct alts as [| u alts]; [discriminate|].
    assert (Hu : u <> "").
    { cbn [forallb] in Halts. apply andb_true_iff in Halts.
      destruct Halts as [Hu _]. apply isAlternative_spec in Hu. apply Hu. }
    destruct (@partRegex_on_shape q (joinWith " or " (u :: alts)))
      as [f [Hf [Hg1 Hg2]]]; try assumption.
    + apply joinWith_nonempty. assumption.
    + apply allChars_joinWith; [reflexivity | assumption].
    + unfold addPart. rewrite Hf, Hg1, Hg2.
      rewrite split_join; [reflexivity | discriminate | assumption].
  - apply andb_true_iff in H. destruct H as [_ Hb].
    apply negb_true_iff in Hb. unfold addPart.
    rewrite partRegex_needs_bracket by assumption. reflexivity.
Qed.

Lemma renderSegment_no_comma (g : segment) :
  wellFormedSegment g = true ->
  allChars (fun c => negb (Ascii.eqb c ",")) (renderSegment g) = true.
Proof.
  destruct g as [q alts | s]; cbn [wellFormedSegment renderSegment];
    intros H.
  - apply andb_true_iff in H. destruct H as [H Halts].
    apply andb_true_iff in H. destruct H as [Hq Hne].
    destruct (isQuality_spec q Hq) as [_ [_ Hq3]].
    destruct (alternatives_spec alts Halts) as [_ [Hco _]].
    cbn [append allChars]. rewrite !allChars_append, Hq3. cbn [allChars].
    rewrite allChars_joinWith by (reflexivity || assumption). reflexivity.
  - apply andb_true_iff in H. destruct H as [Hs _].
    revert Hs. apply allChars_impl. intros c Hc.
    cbn [Str.mem] in Hc. rewrite orb_false_r in Hc. assumption.
Qed.

Lemma get_set_proto (o : Obj.obj string) (k v : string) :
  Obj.get (Obj.set o k v) "__proto__" = Obj.get o "__proto__".
Proof.
  unfold Obj.set. destruct (String.eqb_spec k "__proto__") as [|Hne];
    [reflexivity|].
  rewrite get_put. destruct (String.eqb_spec "__proto__" k); congruence.
Qed.

Lemma fold_segments (gs : list segment) (urls : Obj.obj string) (q : string) :
  forallb wellFormedSegment gs = true ->
  Obj.get (fold_left addPart (map renderSegment gs) urls) q =
  if String.eqb q "__proto__" then Obj.get urls "__proto__"
  else match chosen q gs with
       | Some u => Some u
       | None => Obj.get urls q
       end.
Proof.
  revert urls. induction gs as [| g gs IH]; intros urls Hwf.
  - cbn [map fold_left chosen]. destruct (String.eqb_spec q "__proto__");
      [subst|]; reflexivity.
  - cbn [forallb] in Hwf. apply andb_true_iff in Hwf.
    destruct Hwf as [Hg Hgs].
    cbn [map fold_left chosen]. rewrite IH by assumption.
    rewrite addPart_segment by assumption.
    destruct (String.eqb_spec q "__proto__") as [Heq | Hq].
    + destruct g as [q' alts | s]; [|reflexivity].
      destruct (find _ alts); [apply get_set_proto | reflexivity].
    + destruct (chosen q gs) as [u|]; [reflexivity|].
      destruct g as [q' alts | s]; [|reflexivity].
      destruct (String.eqb_spec q' q) as [-> | Hne].
      * destruct (find _ alts) as [u|]; [|reflexivity].
        rewrite get_set, String.eqb_refl by assumption. reflexivity.
      * destruct (find _ alts) as [u|]; [|reflexivity].
        unfold Obj.set. destruct (String.eqb q' "__proto__"); [reflexivity|].
        rewrite get_put. destruct (String.eqb_spec q q'); congruence.
Qed.

Lemma parseDecoded_segments (gs : list segment) :
  forallb wellFormedSegment gs = true ->
  parseDecoded (renderSegments gs)
  = fold_left addPart (map renderSegment gs) Obj.empty.
Proof.
  intros Hwf. unfold parseDecoded, renderSegments.
  destruct gs as [| g gs]; [reflexivity|].
  rewrite split_join; [reflexivity | discriminate |].
  apply Forall_forall. intros x Hx. apply in_map_iff in Hx.
  destruct Hx as [g' [<- Hin]]. apply renderSegment_no_comma.
  rewrite forallb_forall in Hwf. apply Hwf. assumption.
Qed.

(** ** The segment pattern and the shape it stands for *)

Lemma untilBracket_shape (q tail : string) :
  allChars (fun c => negb (Str.mem c "]")) q = true ->
  untilBracket (q ++ String "]" tail) = (q, String "]" tail).
Proof.
  induction q as [| c q IH]; intros H.
  - reflexivity.
  - change (negb (Str.mem c "]")
            && allChars (fun c0 => negb (Str.mem c0 "]")) q = true) in H.
    apply andb_true_iff in H.
    destruct H as [Hc Hq]. cbn [Str.mem] in Hc. rewrite orb_false_r in Hc.
    apply negb_true_iff in Hc.
    cbn [append untilBracket]. rewrite Hc, IH by assumption. reflexivity.
Qed.

Lemma shapeOf_shape (q r : string) :
  q <> "" -> allChars (fun c => negb (Str.mem c "]")) q = true ->
  r <> "" -> allChars (fun c => negb (isLineTerminator c)) r = true ->
  shapeOf ("[" ++ q ++ "]" ++ r) = Some (q, r).
Proof.
  intros Hq Hqc Hr Hrc. cbn [append shapeOf].
  rewrite untilBracket_shape by assumption. rewrite Hrc.
  destruct q; [congruence|]. destruct r; [congruence|]. reflexivity.
Qed.

Lemma untilBracket_spec (t a b : string) :
  untilBracket t = (a, b) ->
  t = (a ++ b)%string /\ allChars (fun c => negb (Str.mem c "]")) a = true.
Proof.
  revert a b. induction t as [| c t IH]; intros a b H; cbn [untilBracket] in H.
  - injection H as <- <-. auto.
  - destruct (Ascii.eqb c "]") eqn:Hc.
    + injection H as <- <-. auto.
    + destruct (untilBracket t) as [a' b']. injection H as <- <-.
      destruct (IH a' b' eq_refl) as [-> Ha]. split; [reflexivity|].
      change (negb (Str.mem c "]")
              && allChars (fun c0 => negb (Str.mem c0 "]")) a' = true).
      rewrite Ha. cbn [Str.mem]. rewrite Hc. reflexivity.
Qed.

Lemma shapeOf_spec (part q r : string) :
  shapeOf part = Some (q, r) ->
  part = ("[" ++ q ++ "]" ++ r)%string /\
  q <> "" /\ allChars (fun c => negb (Str.mem c "]")) q = true /\
  r <> "" /\ allChars (fun c => negb (isLineTerminator c)) r = true.
Proof.
  unfold shapeOf. destruct part as [| c t]; [discriminate|].
  destruct (Ascii.eqb_spec c "[") as [-> | Hc].
  2:{ destruct c as [[] [] [] [] [] [] [] []]; try discriminate. congruence. }
  destruct (untilBracket t) as [a b] eqn:Hu.
  apply untilBracket_spec in Hu. destruct Hu as [-> Ha].
  destruct b as [| c b]; [discriminate|].
  destruct (Ascii.eqb_spec c "]") as [-> | Hc].
  2:{ destruct c as [[] [] [] [] [] [] [] []]; try discriminate. congruence. }
  destruct (_ && _) eqn:Hcond; [|discriminate].
  intros [= <- <-].
  apply andb_true_iff in Hcond. destruct Hcond as [Hcond Hr].
  apply andb_true_iff in Hcond. destruct Hcond as [Hq Hr0].
  repeat split; try assumption.
  - destruct a; [discriminate | discriminate].
  - destruct b; [discriminate | discriminate].
Qed.

Lemma drop_length_append (n : nat) (s : string) :
  n <= String.length s ->
  (Str.take n s ++ Str.drop n s)%string = s.
Proof.
  revert s. induction n as [| n IH]; intros s H; [reflexivity|].
  destruct s as [| c s]; [simpl in H; lia|]. simpl. rewrite IH; [reflexivity|].
  simpl in H. lia.
Qed.

(** A reported match was reached from the place where it starts. *)
Lemma exec_from_sound_at (r : regex) (s : string) (p : nat) (f : found) :
  exec_from r p s = Some f ->
  exists n, Reach r (MState (p + n) (Str.drop n s) []) (stop f).
Proof.
  revert p. induction s as [| c s IH]; intros p H; cbn [exec_from] in H;
    destruct (rmatch r Some _) as [st|] eqn:Hm.
  - injection H as <-. apply rmatch_sound in Hm.
    destruct Hm as [st' [Hr [= ->]]]. exists 0. rewrite Nat.add_0_r. exact Hr.
  - discriminate.
  - injection H as <-. apply rmatch_sound in Hm.
    destruct Hm as [st' [Hr [= ->]]]. exists 0. rewrite Nat.add_0_r. exact Hr.
  - apply IH in H. destruct H as [n Hr]. exists (S n).
    replace (p + S n) with (S p + n) by lia. exact Hr.
Qed.

Lemma Reach_bol_inv (st st' : mstate) :
  Reach Bol st st' -> st' = st /\ pos st = 0.
Proof. inversion 1; subst. auto. Qed.

Lemma Reach_eol_inv (st st' : mstate) :
  Reach Eol st st' -> st' = st /\ rest st = "".
Proof. inversion 1; subst. auto. Qed.

(** A match of the segment pattern shows the shape, and its groups are
    the label and the rest. *)
Lemma partRegex_match_shape (part : string) (f : found) :
  exec partRegex part = Some f ->
  shapeOf part = Some (group 1 f, group 2 f).
Proof.
  unfold exec, group. intros H. apply exec_from_sound_at in H.
  destruct H as [n H]. unfold partRegex in H. cbn [cat] in H.
  apply Reach_cat_inv in H. destruct H as [s1 [H1 H]].
  apply Reach_bol_inv in H1. destruct H1 as [-> Hpos]. cbn [pos] in Hpos.
  assert (n = 0) by lia. subst n. cbn [Str.drop Nat.add] in H.
  apply Reach_cat_inv in H. destruct H as [s2 [H2 H]].
  apply Reach_class_inv in H2. destruct H2 as [c2 [E2 [T2 [_ C2]]]].
  apply Reach_cat_inv in H. destruct H as [s3 [H3 H]].
  apply Reach_group_plus_class in H3.
  destruct H3 as [q [Nq [Aq [E3 [_ C3]]]]].
  apply Reach_cat_inv in H. destruct H as [s4 [H4 H]].
  apply Reach_class_inv in H4. destruct H4 as [c4 [E4 [T4 [_ C4]]]].
  apply Reach_cat_inv in H. destruct H as [s5 [H5 H]].
  apply Reach_group_plus_class in H5.
  destruct H5 as [r [Nr [Ar [E5 [_ C5]]]]].
  apply Reach_eol_inv in H. destruct H as [-> E6].
  apply Ascii.eqb_eq in T2, T4. subst c2 c4.
  cbn [rest caps] in *.
  rewrite C5, C4, C3, C2. cbn [cap_lookup Nat.eqb].
  rewrite E2, E3, E4, E5, E6, append_nil_r.
  apply (shapeOf_shape Nq Aq Nr Ar).
Qed.

(** The segment pattern accepts exactly the parts that have the shape. *)
Lemma partRegex_is_shape (part : string) :
  match exec partRegex part with
  | Some f => Some (group 1 f, group 2 f)
  | None => None
  end = shapeOf part.
Proof.
  destruct (exec partRegex part) as [f|] eqn:He.
  - symmetry. apply partRegex_match_shape. assumption.
  - destruct (shapeOf part) as [[q r]|] eqn:Hs; [|reflexivity].
    apply shapeOf_spec in Hs. destruct Hs as [-> [Nq [Aq [Nr Ar]]]].
    destruct (partRegex_on_shape Nq Aq Nr Ar) as [f [Hf _]]. congruence.
Qed.

Lemma addPart_shape (urls : Obj.obj string) (part : string) :
  addPart urls part =
  match shapeOf part with
  | Some (q, rest) =>
      match find (Str.endsWith ".m3u8") (Str.split " or " rest) with
      | Some u => Obj.set urls q u
      | None => urls
      end
  | None => urls
  end.
Proof.
  rewrite <- partRegex_is_shape. unfold addPart.
  destruct (exec partRegex part); reflexivity.
Qed.

Lemma fold_parts (parts : list string) (urls : Obj.obj string) (q : string) :
  Obj.get (fold_left addPart parts urls) q =
  if String.eqb q "__proto__" then Obj.get urls "__proto__"
  else match lastChosen q parts with
       | Some u => Some u
       | None => Obj.get urls q
       end.
Proof.
  revert urls. induction parts as [| part parts IH]; intros urls.
  - cbn [fold_left lastChosen]. destruct (String.eqb_spec q "__proto__");
      [subst|]; reflexivity.
  - cbn [fold_left lastChosen]. rewrite IH, addPart_shape.
    destruct (String.eqb_spec q "__proto__") as [Heq | Hq].
    + destruct (shapeOf part) as [[q' rest]|]; [|reflexivity].
      destruct (find _ _); [apply get_set_proto | reflexivity].
    + destruct (lastChosen q parts) as [u|]; [reflexivity|].
      destruct (shapeOf part) as [[q' rest]|]; [|reflexivity].
      destruct (String.eqb_spec q' q) as [-> | Hne].
      * destruct (find _ _) as [u|]; [|reflexivity].
        rewrite get_set, String.eqb_refl by assumption. reflexivity.
      * destruct (find _ _) as [u|]; [|reflexivity].
        unfold Obj.set. destruct (String.eqb q' "__proto__"); [reflexivity|].
        rewrite get_put. destruct (String.eqb_spec q q'); congruence.
Qed.

(** C3 (as amended): every decoded string is split on the commas; a part
    has the shape [[quality]rest] when it opens with a bracket, has a
    non-empty label up to the first closing bracket and a non-empty rest
    without line break; the rest is split on [" or "], and the mapping
    holds for a label the first alternative ending in [.m3u8] of the last
    part carrying that label that has one; a label none of whose parts has
    one is absent, and so is the label [__proto__], which is never stored.
    Nothing of this raises an error.  In particular, for a decoded string
    made of well-formed segments the mapping is read off the segments. *)
Theorem parseVideoUrls_mapping (decoded q : string) (gs : list segment) :
  Obj.get (parseDecoded decoded) q =
  (if String.eqb q "__proto__" then None
   else lastChosen q (Str.split "," decoded)) /\
  (forallb wellFormedSegment gs = true ->
   Obj.get (parseDecoded (renderSegments gs)) q =
   if String.eqb q "__proto__" then None else chosen q gs).
Proof.
  split.
  - unfold parseDecoded. rewrite fold_parts. cbn [Obj.get Obj.empty].
    destruct (String.eqb q "__proto__"); [reflexivity|].
    destruct (lastChosen q _); reflexivity.
  - intros Hwf. rewrite parseDecoded_segments by assumption.
    rewrite fold_segments by assumption. cbn [Obj.get Obj.empty].
    destruct (String.eqb q "__proto__"); [reflexivity|].
    destruct (chosen q gs); reflexivity.
Qed.

Lemma parseVideoUrls_mapping_witness :
  let gs := [Tagged "360" ["a.mp4"; "a.m3u8"]; Untagged "junk";
             Tagged "720" ["b.mp4"]; Tagged "1080p" ["c.m3u8"; "d.m3u8"];
             Tagged "360" ["e.m3u8"]] in
  forallb wellFormedSegment gs = true /\
  renderSegments gs
  = "[360]a.mp4 or a.m3u8,junk,[720]b.mp4,[1080p]c.m3u8 or d.m3u8,[360]e.m3u8"
  /\ Obj.get (parseDecoded (renderSegments gs)) "360" = Some "e.m3u8"
  /\ Obj.get (parseDecoded (renderSegments gs)) "720" = None
  /\ Obj.get (parseDecoded (renderSegments gs)) "1080p" = Some "c.m3u8".
Proof.
  intros gs.
  assert (Hwf : forallb wellFormedSegment gs = true) by reflexivity.
  split; [exact Hwf|]. split; [reflexivity|].
  split; [exact (proj2 (parseVideoUrls_mapping "" "360" gs) Hwf)|].
  split; [exact (proj2 (parseVideoUrls_mapping "" "720" gs) Hwf)|].
  exact (proj2 (parseVideoUrls_mapping "" "1080p" gs) Hwf).
Defined.

(** C3 (as stated) fails: a label is not always mapped to the first
    playable alternative of its segment, and a label with a segment that
    has no playable alternative is not always absent -- a later segment
    with the same label replaces or supplies the URL. *)
Lemma later_segment_decides :
  Obj.get (parseDecoded "[720]a.m3u8,[720]b.m3u8") "720" = Some "b.m3u8" /\
  Obj.get (parseDecoded "[720]a.m3u8,[720]b.m3u8") "720" <> Some "a.m3u8" /\
  Obj.get (parseDecoded "[720]a.mp4,[720]b.m3u8") "720" <> None /\
  parseVideoUrls "WzcyMF1hLm0zdTgsWzcyMF1iLm0zdTg=" = [("720", "b.m3u8")].
Proof. repeat split; discriminate. Qed.

Lemma getStream_failures_witness :
  let data := JObj [("success", JBool false); ("message", JStr "Not allowed")] in
  let odd := JObj [("success", JBool false);
                   ("message", JObj [("toString", JNum 1)])] in
  failureFlag data = true /\
  rejection data = Error "Not allowed" /\
  fst (getStream "1" (Some "4") None None (upstream 200 "" (Some data)))
  = Throw (Error "Not allowed") /\
  failureFlag odd = true /\
  rejection odd = TypeError /\
  fst (getStream "1" (Some "4") None None (upstream 200 "" (Some odd)))
  = Throw TypeError.
Proof.
  intros data odd.
  pose proof (getStream_failures "1" (Some "4") None None
                (upstream 200 "" (Some data)) (Error "Not allowed"))
    as [Hiff [_ [_ [Hmsg _]]]].
  pose proof (getStream_failures "1" (Some "4") None None
                (upstream 200 "" (Some odd)) TypeError)
    as [Hiff' [_ [Hconv _]]].
  assert (Hm : rejection data = Error "Not allowed").
  { apply Hmsg; [reflexivity | discriminate]. }
  assert (Ho : rejection odd = TypeError).
  { apply (Hconv [("success", JBool false);
                  ("message", JObj [("toString", JNum 1)])]
                 (JObj [("toString", JNum 1)]) eq_refl eq_refl).
    reflexivity. }
  split; [reflexivity|]. split; [exact Hm|].
  split.
  { apply Hiff. do 4 right. left.
    exists (Reply 200 "" (Some data)), data.
    repeat split. }
  split; [reflexivity|]. split; [exact Ho|].
  apply Hiff'. do 4 right. left.
  exists (Reply 200 "" (Some odd)), odd.
  repeat split.
Defined.

Lemma getContentInfo_degrades_witness :
  let url := "https://hdrezka.me/films/1-x.html" in
  let html := ("<a " ++ attr "data-id" "123" ++ ">x</a>")%string in
  let w := upstream 200 html None in
  exists info,
    fst (getContentInfo url w) = Return info /\
    id info = Some "123" /\ translatorId info = None /\
    translators info = [] /\ seasons info = Obj.empty /\ isSeries info = false.
Proof.
  intros url html w.
  destruct (proj1 (proj2 (getContentInfo_degrades url w))
              (Reply 200 html None) eq_refl eq_refl)
    as [info [Hret [_ [Htr [Hse [Hser [Hid _]]]]]]].
  exists info. split; [exact Hret|].
  split.
  { apply (Hid "<a " "123" ">x</a>"); try reflexivity. discriminate. }
  destruct (Htr eq_refl) as [Ht1 Ht2].
  split; [exact Ht1|]. split; [exact Ht2|].
  split; [exact (Hse eq_refl)|].
  exact (Hser eq_refl eq_refl eq_refl).
Defined.

(** ** Sample values *)

Example atob_samples :
  atob "aGVsbG8=" = Some "hello" /\ atob "aGVsbG8" = Some "hello" /\
  atob " aGVs bG8= " = Some "hello" /\ atob "aGVsbG8==" = None /\
  atob "aGVsb" = None /\ atob "==" = None /\ atob "" = Some "".
Proof. repeat split. Qed.

Example parseInt_samples :
  parseInt "1080p Ultra" = Fin 1080 /\ parseInt "  720" = Fin 720 /\
  parseInt "-5" = Fin (-5) /\ parseInt "0x1F" = Fin 31 /\
  parseInt "4K" = Fin 4 /\ parseInt "HD" = NaN /\ parseInt "" = NaN /\
  parseInt "9007199254740993" = Fin 9007199254740992 /\
  qualityValue "HD" = Fin 0.
Proof. repeat split. Qed.

Example keys_samples :
  Obj.keys [("1080p", 1); ("720", 2); ("08", 3); ("360", 4)]
  = ["360"; "720"; "1080p"; "08"] /\
  Obj.set [("a", 1)] "__proto__" 2 = [("a", 1)] /\
  Obj.set [("a", 1); ("b", 2)] "a" 3 = [("a", 3); ("b", 2)].
Proof. repeat split. Qed.

Example split_samples :
  Str.split "," "" = [""] /\ Str.split "," "a,,b," = ["a"; ""; "b"; ""] /\
  Str.split " or " "u1 or u2 or or u3" = ["u1"; "u2"; "or u3"].
Proof. repeat split. Qed.

Example clearTrash_samples :
  clearTrash "#haGVs//_//bG8" = "hello" /\
  clearTrash "aGVsIUAhQEBebG8=" = "hello" /\
  remove_all TRASH_PATTERN "a#hb//_//_//" = "a#hb_//".
Proof. repeat split. Qed.

Example toString_samples :
  toString (JNum 1080) = Some "1080" /\
  toString (JNum (-42)) = Some "-42" /\
  toString (JNum (2 ^ 60)%Z) = Some "1152921504606847000" /\
  toString (JNum (10 ^ 21 - 1)%Z) = Some "1e+21" /\
  toString (JNum (2 ^ 70)%Z) = Some "1.1805916207174113e+21" /\
  toString (JNum (10 ^ 23)%Z) = Some "1e+23" /\
  toString (JNum (10 ^ 400)%Z) = Some "Infinity" /\
  toString (JArr [JNum 1; JNull; JArr [JStr "a"; JBool true]; JObj []])
  = Some "1,,a,true,[object Object]" /\
  toString (JArr []) = Some "" /\
  toString (JObj [("toString", JNull)]) = None /\
  toString (JArr [JNum 1; JObj [("toString", JNum 1)]]) = None.
Proof. vm_compute. repeat split. Qed.

(** * Further properties of the worker *)

(** ** The request of [getStream] *)

(** X1: whatever the upstream answers, [getStream] sends exactly one
    request, a POST to the AJAX endpoint, whose form carries the content id
    and the translator id; it is tagged [get_stream] and carries the season
    and the episode exactly when both are given, and is tagged [get_movie]
    with neither field otherwise. *)
Theorem getStream_request (contentId : string) (translatorId : option string)
    (season episode : option number) (w : world) :
  exists form,
    snd (getStream contentId translatorId season episode w)
    = [POST "https://hdrezka.me/ajax/get_cdn_series/" form] /\
    formGet "id" form = Some (FStr contentId) /\
    formGet "translator_id" form
    = Some (match translatorId with Some t => FStr t | None => FNull end) /\
    (formGet "action" form = Some (FStr "get_stream") <->
     season <> None /\ episode <> None) /\
    (formGet "action" form = Some (FStr "get_movie") <->
     season = None \/ episode = None) /\
    (forall s e, season = Some s -> episode = Some e ->
       formGet "season" form = Some (FNum s) /\
       formGet "episode" form = Some (FNum e)) /\
    (season = None \/ episode = None ->
     formGet "season" form = None /\ formGet "episode" form = None).
Proof.
  exists (streamForm contentId translatorId season episode).
  split; [apply getStream_sent|].
  unfold streamForm.
  destruct season as [s|], episode as [e|]; cbn;
    (split; [reflexivity|]); (split; [reflexivity|]).
  - split; [split; [split; discriminate | reflexivity]|].
    split; [split; [discriminate | intros [H|H]; discriminate]|].
    split; [|intros [H|H]; discriminate].
    intros s0 e0 Hs He. inversion Hs; inversion He. split; reflexivity.
  - split; [split; [discriminate | intros [_ H]; congruence]|].
    split; [split; [right|]; reflexivity|].
    split; [discriminate | split; reflexivity].
  - split; [split; [discriminate | intros [H _]; congruence]|].
    split; [split; [left|]; reflexivity|].
    split; [discriminate | split; reflexivity].
  - split; [split; [discriminate | intros [H _]; congruence]|].
    split; [split; [left|]; reflexivity|].
    split; [discriminate | split; reflexivity].
Qed.

(** ** The request handler *)

Lemma searchContent_sent (query : string) (w : world) :
  snd (searchContent query w) = [searchRequest query].
Proof.
  unfold searchContent, searchRequest, bind, fetch. cbn [HDREZKA_MIRROR append].
  destruct (w _) as [rep|]; [|reflexivity].
  destruct (ok rep); reflexivity.
Qed.

Lemma getContentInfo_sent (url : string) (w : world) :
  snd (getContentInfo url w) = [GET url].
Proof. rewrite getContentInfo_outcome. reflexivity. Qed.

Lemma route_health (request : Request) :
  pathname request = "/health" \/ pathname request = "/" ->
  route request = ret (MkResponse 200 Health).
Proof. unfold route. intros [-> | ->]; reflexivity. Qed.

Lemma route_search (request : Request) :
  pathname request = "/api/search" ->
  route request =
  match param "q" (searchParams request) with
  | Some query =>
      if Str.isEmpty query
      then ret (MkResponse 400 (Failure "Missing query parameter"))
      else
        results <- searchContent query ;;
        ret (MkResponse 200 (SearchResults query results))
  | None => ret (MkResponse 400 (Failure "Missing query parameter"))
  end.
Proof. unfold route. intros ->. reflexivity. Qed.

Lemma route_content (request : Request) :
  pathname request = "/api/content" ->
  route request =
  match param "url" (searchParams request) with
  | Some contentUrl =>
      if Str.isEmpty contentUrl
      then ret (MkResponse 400 (Failure "Missing url parameter"))
      else
        info <- getContentInfo contentUrl ;;
        ret (MkResponse 200
               (Content contentUrl (translators info) (seasons info)
                  (isSeries info)))
  | None => ret (MkResponse 400 (Failure "Missing url parameter"))
  end.
Proof. unfold route. intros ->. reflexivity. Qed.

Lemma route_stream_body (request : Request) :
  pathname request = "/api/stream" ->
  route request =
  let q := searchParams request in
  match param "url" q with
  | Some contentUrl =>
      if Str.isEmpty contentUrl
      then ret (MkResponse 400 (Failure "Missing url parameter"))
      else
        info <- getContentInfo contentUrl ;;
        match id info with
        | Some contentId =>
            if Str.isEmpty contentId
            then ret (MkResponse 404 (Failure "Could not find content ID"))
            else
              let tid :=
                if given (param "translator_id" q)
                then param "translator_id" q
                else translatorId info in
              stream <- getStream contentId tid (optInt (param "season" q))
                          (optInt (param "episode" q)) ;;
              ret (MkResponse 200 (Stream stream))
        | None => ret (MkResponse 404 (Failure "Could not find content ID"))
        end
  | None => ret (MkResponse 400 (Failure "Missing url parameter"))
  end.
Proof. unfold route. intros ->. reflexivity. Qed.

(** The stream route once the page URL is given: the page request, and the
    stream request only when the page answered and holds a content id. *)
Lemma route_stream (request : Request) (w : world) (contentUrl : string) :
  pathname request = "/api/stream" ->
  param "url" (searchParams request) = Some contentUrl ->
  contentUrl <> "" ->
  let q := searchParams request in
  route request w =
  match w (GET contentUrl) with
  | None => (Throw NetworkError, [GET contentUrl])
  | Some rep =>
      if ok rep then
        match id (pageInfo contentUrl (text rep)) with
        | Some contentId =>
            let tid :=
              if given (param "translator_id" q) then param "translator_id" q
              else translatorId (pageInfo contentUrl (text rep)) in
            let season := optInt (param "season" q) in
            let episode := optInt (param "episode" q) in
            (match fst (getStream contentId tid season episode w) with
             | Return stream => Return (MkResponse 200 (Stream stream))
             | Throw e => Throw e
             end,
             [GET contentUrl; streamRequest contentId tid season episode])
        | None =>
            (Return (MkResponse 404 (Failure "Could not find content ID")),
             [GET contentUrl])
        end
      else (Throw (Error ("Failed to fetch page: "
                            ++ showZ (status rep))%string),
            [GET contentUrl])
  end.
Proof.
  intros Hpath Hurl Hne q. subst q. rewrite (@route_stream_body request Hpath).
  cbv zeta. rewrite Hurl.
  destruct contentUrl as [| c0 u0]; [congruence|]. cbn [Str.isEmpty].
  unfold bind at 1. cbv beta. rewrite getContentInfo_outcome.
  destruct (w (GET (String c0 u0))) as [rep|]; [|reflexivity].
  destruct (ok rep); [|reflexivity].
  destruct (id (pageInfo (String c0 u0) (text rep))) as [contentId|] eqn:Hid;
    [|reflexivity].
  destruct (id_is_numeric _ _ Hid) as [Hc _].
  destruct contentId as [| c1 u1]; [congruence|]. cbn [Str.isEmpty].
  unfold bind. cbv zeta.
  match goal with |- context [getStream ?a ?b ?c ?d w] =>
    pose proof (getStream_sent a b c d w) as Hsent;
    destruct (getStream a b c d w) as [[stream | e] sent]
  end; cbn [snd fst] in *; subst sent; reflexivity.
Qed.

Lemma route_unknown (request : Request) :
  requiredParam (pathname request) = None ->
  pathname request <> "/health" -> pathname request <> "/" ->
  route request = ret (MkResponse 404 (Failure "Not found")).
Proof.
  unfold requiredParam, route. intros Hreq Hh Hr.
  apply String.eqb_neq in Hh, Hr. rewrite Hh, Hr. cbn [orb].
  destruct (String.eqb (pathname request) "/api/search"); [discriminate|].
  destruct (String.eqb (pathname request) "/api/content"); [discriminate|].
  destruct (String.eqb (pathname request) "/api/stream"); [discriminate|].
  reflexivity.
Qed.

(** Every path is one of the five the handler knows, or unknown. *)
Lemma path_cases (path : string) :
  path = "/health" \/ path = "/" \/ path = "/api/search"
  \/ path = "/api/content" \/ path = "/api/stream"
  \/ (requiredParam path = None /\ path <> "/health" /\ path <> "/").
Proof.
  destruct (String.eqb_spec path "/health") as [|H1]; [tauto|].
  destruct (String.eqb_spec path "/") as [|H2]; [tauto|].
  destruct (String.eqb_spec path "/api/search") as [|H3]; [tauto|].
  destruct (String.eqb_spec path "/api/content") as [|H4]; [tauto|].
  destruct (String.eqb_spec path "/api/stream") as [|H5]; [tauto|].
  do 5 right. unfold requiredParam.
  apply String.eqb_neq in H3, H4, H5. rewrite H3, H4, H5. auto.
Qed.

Lemma handle_options (request : Request) (w : world) :
  method request = "OPTIONS" -> handle request w = (MkResponse 200 NoBody, []).
Proof. unfold handle. intros ->. reflexivity. Qed.

Lemma handle_route (request : Request) (w : world) :
  method request <> "OPTIONS" ->
  handle request w =
  (match fst (route request w) with
   | Return r => r
   | Throw error => MkResponse 500 (Caught error)
   end, snd (route request w)).
Proof.
  intros Hm. apply String.eqb_neq in Hm. unfold handle. rewrite Hm.
  destruct (route request w) as [[r | e] sent]; reflexivity.
Qed.

Lemma handle_health (request : Request) (w : world) :
  method request <> "OPTIONS" ->
  pathname request = "/health" \/ pathname request = "/" ->
  handle request w = (MkResponse 200 Health, []).
Proof.
  intros Hm Hp. rewrite (@handle_route request w Hm), (@route_health request Hp). reflexivity.
Qed.

Lemma handle_unknown (request : Request) (w : world) :
  method request <> "OPTIONS" ->
  requiredParam (pathname request) = None ->
  pathname request <> "/health" -> pathname request <> "/" ->
  handle request w = (MkResponse 404 (Failure "Not found"), []).
Proof.
  intros Hm Hreq Hh Hr.
  rewrite (@handle_route request w Hm), (@route_unknown request Hreq Hh Hr). reflexivity.
Qed.

(** The paths that need a parameter. *)
Lemma requiredParam_cases (path name : string) :
  requiredParam path = Some name ->
  (path = "/api/search" /\ name = "q")
  \/ ((path = "/api/content" \/ path = "/api/stream") /\ name = "url").
Proof.
  unfold requiredParam.
  destruct (String.eqb_spec path "/api/search") as [-> | _].
  - intros [= <-]. auto.
  - destruct (String.eqb_spec path "/api/content") as [-> | _];
      [intros [= <-]; auto|].
    destruct (String.eqb_spec path "/api/stream") as [-> | _];
      [intros [= <-]; auto | discriminate].
Qed.

Lemma given_false (p : option string) :
  given p = false <-> p = None \/ p = Some "".
Proof.
  unfold given. destruct p as [[| c s]|]; cbn; split; intros H; auto;
    try discriminate; destruct H as [H | H]; discriminate.
Qed.

Lemma given_true (p : option string) :
  given p = true <-> exists v, p = Some v /\ v <> "".
Proof.
  unfold given. split.
  - destruct p as [[| c s]|]; cbn; intros H; try discriminate.
    exists (String c s). split; [reflexivity | discriminate].
  - intros [v [-> Hv]]. destruct v; [congruence | reflexivity].
Qed.

Lemma handle_missing (request : Request) (w : world) (name : string) :
  method request <> "OPTIONS" ->
  requiredParam (pathname request) = Some name ->
  given (param name (searchParams request)) = false ->
  handle request w =
  (MkResponse 400
     (Failure (if String.eqb name "q" then "Missing query parameter"
               else "Missing url parameter")), []).
Proof.
  intros Hm Hreq Hg. rewrite (@handle_route request w Hm).
  apply given_false in Hg.
  destruct (@requiredParam_cases _ _ Hreq) as [[Hp ->] | [[Hp | Hp] ->]].
  - rewrite (@route_search request Hp). destruct Hg as [-> | ->]; reflexivity.
  - rewrite (@route_content request Hp). destruct Hg as [-> | ->]; reflexivity.
  - rewrite (@route_stream_body request Hp). cbv zeta.
    destruct Hg as [-> | ->]; reflexivity.
Qed.

Lemma handle_search (request : Request) (w : world) (query : string) :
  method request <> "OPTIONS" ->
  pathname request = "/api/search" ->
  param "q" (searchParams request) = Some query -> query <> "" ->
  handle request w =
  (match fst (searchContent query w) with
   | Return results => MkResponse 200 (SearchResults query results)
   | Throw e => MkResponse 500 (Caught e)
   end, [searchRequest query]).
Proof.
  intros Hm Hp Hq Hne. rewrite (@handle_route request w Hm), (@route_search request Hp), Hq.
  destruct query as [| c s]; [congruence|]. cbn [Str.isEmpty].
  unfold bind. pose proof (searchContent_sent (String c s) w) as Hs.
  destruct (searchContent (String c s) w) as [[rs | e] sent];
    cbn [snd fst] in *; subst sent; reflexivity.
Qed.

Lemma handle_content (request : Request) (w : world) (contentUrl : string) :
  method request <> "OPTIONS" ->
  pathname request = "/api/content" ->
  param "url" (searchParams request) = Some contentUrl -> contentUrl <> "" ->
  handle request w =
  (match fst (getContentInfo contentUrl w) with
   | Return info =>
       MkResponse 200 (Content contentUrl (translators info) (seasons info)
                         (isSeries info))
   | Throw e => MkResponse 500 (Caught e)
   end, [GET contentUrl]).
Proof.
  intros Hm Hp Hq Hne. rewrite (@handle_route request w Hm), (@route_content request Hp), Hq.
  destruct contentUrl as [| c s]; [congruence|]. cbn [Str.isEmpty].
  unfold bind. pose proof (getContentInfo_sent (String c s) w) as Hs.
  destruct (getContentInfo (String c s) w) as [[rs | e] sent];
    cbn [snd fst] in *; subst sent; reflexivity.
Qed.

(** The requests the stream endpoint sends and whether it answers 200. *)
Lemma handle_stream (request : Request) (w : world) (contentUrl : string) :
  method request <> "OPTIONS" ->
  pathname request = "/api/stream" ->
  param "url" (searchParams request) = Some contentUrl -> contentUrl <> "" ->
  let q := searchParams request in
  handle request w =
  match w (GET contentUrl) with
  | None => (MkResponse 500 (Caught NetworkError), [GET contentUrl])
  | Some rep =>
      if ok rep then
        match id (pageInfo contentUrl (text rep)) with
        | Some contentId =>
            let tid :=
              if given (param "translator_id" q) then param "translator_id" q
              else translatorId (pageInfo contentUrl (text rep)) in
            let season := optInt (param "season" q) in
            let episode := optInt (param "episode" q) in
            (match fst (getStream contentId tid season episode w) with
             | Return stream => MkResponse 200 (Stream stream)
             | Throw e => MkResponse 500 (Caught e)
             end,
             [GET contentUrl; streamRequest contentId tid season episode])
        | None =>
            (MkResponse 404 (Failure "Could not find content ID"),
             [GET contentUrl])
        end
      else (MkResponse 500
              (Caught (Error ("Failed to fetch page: "
                                ++ showZ (status rep))%string)),
            [GET contentUrl])
  end.
Proof.
  intros Hm Hp Hq Hne q. subst q.
  rewrite (@handle_route request w Hm), (@route_stream request w contentUrl Hp Hq Hne). cbv zeta.
  destruct (w (GET contentUrl)) as [rep|]; [|reflexivity].
  destruct (ok rep); [|reflexivity].
  destruct (id (pageInfo contentUrl (text rep))); [|reflexivity].
  cbn [fst snd].
  destruct (fst (getStream _ _ _ _ w)); reflexivity.
Qed.

(** X2: the worker contacts the upstream host exactly for a request, other
    than a preflight, to one of the three API paths whose required
    parameter ([q] for the search, [url] for the two others) is present and
    non-empty; the first request it sends is then the search request for
    that query, or a GET of that URL exactly as the client gave it. *)
Theorem handle_contacts_upstream (request : Request) (w : world) :
  (snd (handle request w) <> [] <->
   method request <> "OPTIONS" /\
   exists name v,
     requiredParam (pathname request) = Some name /\
     param name (searchParams request) = Some v /\ v <> "") /\
  (forall name v,
     method request <> "OPTIONS" ->
     requiredParam (pathname request) = Some name ->
     param name (searchParams request) = Some v -> v <> "" ->
     hd_error (snd (handle request w))
     = Some (firstOutbound (pathname request) v)).
Proof.
  assert (Hfirst : forall name v,
     method request <> "OPTIONS" ->
     requiredParam (pathname request) = Some name ->
     param name (searchParams request) = Some v -> v <> "" ->
     hd_error (snd (handle request w))
     = Some (firstOutbound (pathname request) v)).
  { intros name v Hm Hreq Hv Hne.
    destruct (@requiredParam_cases _ _ Hreq) as [[Hp ->] | [[Hp | Hp] ->]].
    - rewrite (@handle_search request w v Hm Hp Hv Hne), Hp. reflexivity.
    - rewrite (@handle_content request w v Hm Hp Hv Hne), Hp. reflexivity.
    - rewrite (@handle_stream request w v Hm Hp Hv Hne), Hp. cbv zeta.
      destruct (w (GET v)) as [rep|]; [|reflexivity].
      destruct (ok rep); [|reflexivity].
      destruct (id (pageInfo v (text rep))); reflexivity. }
  split; [|exact Hfirst].
  split.
  - intros Hsent.
    destruct (String.eqb_spec (method request) "OPTIONS") as [Hm | Hm].
    { rewrite (@handle_options request w Hm) in Hsent. now elim Hsent. }
    split; [exact Hm|].
    destruct (requiredParam (pathname request)) as [name|] eqn:Hreq.
    + destruct (given (param name (searchParams request))) eqn:Hg.
      * apply given_true in Hg. destruct Hg as [v [Hv Hne]].
        exists name, v. auto.
      * rewrite (@handle_missing request w name Hm Hreq Hg) in Hsent. now elim Hsent.
    + destruct (path_cases (pathname request))
        as [Hp | [Hp | [Hp | [Hp | [Hp | [_ [Hh Hr]]]]]]];
        try (rewrite Hp in Hreq; discriminate).
      * rewrite (@handle_health request w Hm (or_introl Hp)) in Hsent. now elim Hsent.
      * rewrite (@handle_health request w Hm (or_intror Hp)) in Hsent. now elim Hsent.
      * rewrite (@handle_unknown request w Hm Hreq Hh Hr) in Hsent. now elim Hsent.
  - intros [Hm [name [v [Hreq [Hv Hne]]]]] Hnil.
    pose proof (Hfirst name v Hm Hreq Hv Hne) as H.
    rewrite Hnil in H. discriminate.
Qed.

Lemma handle_contacts_upstream_witness :
  let request :=
    MkRequest "GET" "/api/content" [("url", "http://example.org/x")] in
  let w := upstream 200 "" None in
  snd (handle request w) <> [] /\
  hd_error (snd (handle request w)) = Some (GET "http://example.org/x").
Proof.
  cbv zeta. split.
  - apply (proj2 (proj1 (handle_contacts_upstream
                           (MkRequest "GET" "/api/content"
                              [("url", "http://example.org/x")])
                           (upstream 200 "" None)))).
    split; [discriminate|].
    exists "url", "http://example.org/x".
    split; [reflexivity|]. split; [reflexivity | discriminate].
  - apply (proj2 (handle_contacts_upstream
                    (MkRequest "GET" "/api/content"
                       [("url", "http://example.org/x")])
                    (upstream 200 "" None)) "url" "http://example.org/x");
      [discriminate | reflexivity | reflexivity | discriminate].
Defined.

(** X3: the handler answers with one of the four codes 200, 400, 404 and
    500; the code is 200 exactly when the body reports no error and 500
    exactly when the body carries a caught exception; a 400 is decided
    before any request is sent and a 500 only after one was; and no
    request of a client makes the worker send more than two requests. *)
Theorem handle_status (request : Request) (w : world) :
  let resp := fst (handle request w) in
  let sent := snd (handle request w) in
  (code resp = 200 \/ code resp = 400 \/ code resp = 404 \/ code resp = 500)%Z
  /\ (code resp = 200%Z <-> isErrorPayload (payload resp) = false)
  /\ (code resp = 500%Z <-> exists e, payload resp = Caught e)
  /\ (code resp = 400%Z -> sent = [])
  /\ (code resp = 500%Z -> sent <> [])
  /\ List.length sent <= 2.
Proof.
  assert (Hshape : forall (resp : Response) (sent : list outbound),
    ((code resp = 200%Z /\ isErrorPayload (payload resp) = false)
     \/ (code resp = 400%Z /\ sent = [] /\ exists m, payload resp = Failure m)
     \/ (code resp = 404%Z /\ exists m, payload resp = Failure m)
     \/ (code resp = 500%Z /\ sent <> [] /\ exists e, payload resp = Caught e))
    -> List.length sent <= 2 ->
    (code resp = 200 \/ code resp = 400 \/ code resp = 404 \/ code resp = 500)%Z
    /\ (code resp = 200%Z <-> isErrorPayload (payload resp) = false)
    /\ (code resp = 500%Z <-> exists e, payload resp = Caught e)
    /\ (code resp = 400%Z -> sent = [])
    /\ (code resp = 500%Z -> sent <> [])
    /\ List.length sent <= 2).
  { intros resp sent H Hlen.
    destruct H as [[Hc Hp] | [[Hc [Hs [m Hp]]] | [[Hc [m Hp]] | [Hc [Hs [e Hp]]]]]];
      rewrite Hc.
    - split; [auto|]. split; [tauto|].
      split; [split; [discriminate
                     | intros [e He]; rewrite He in Hp; discriminate]|].
      split; [discriminate|]. split; [discriminate | exact Hlen].
    - split; [auto|]. split; [split; [discriminate | rewrite Hp; discriminate]|].
      split; [split; [discriminate | intros [e He]; congruence]|].
      split; [auto|]. split; [discriminate | exact Hlen].
    - split; [auto|]. split; [split; [discriminate | rewrite Hp; discriminate]|].
      split; [split; [discriminate | intros [e He]; congruence]|].
      split; [discriminate|]. split; [discriminate | exact Hlen].
    - split; [auto 6|].
      split; [split; [discriminate | rewrite Hp; discriminate]|].
      split; [split; eauto|].
      split; [discriminate|]. split; [auto | exact Hlen]. }
  cbv zeta. apply Hshape.
  - destruct (String.eqb_spec (method request) "OPTIONS") as [Hm | Hm].
    { rewrite (@handle_options request w Hm). left. split; reflexivity. }
    destruct (requiredParam (pathname request)) as [name|] eqn:Hreq.
    + destruct (given (param name (searchParams request))) eqn:Hg.
      * apply given_true in Hg. destruct Hg as [v [Hv Hne]].
        destruct (@requiredParam_cases _ _ Hreq) as [[Hp ->] | [[Hp | Hp] ->]].
        -- rewrite (@handle_search request w v Hm Hp Hv Hne).
           destruct (fst (searchContent v w)); cbn [fst snd].
           ++ left. split; reflexivity.
           ++ do 3 right. split; [reflexivity|]. split; [discriminate | eexists; reflexivity].
        -- rewrite (@handle_content request w v Hm Hp Hv Hne).
           destruct (fst (getContentInfo v w)); cbn [fst snd].
           ++ left. split; reflexivity.
           ++ do 3 right. split; [reflexivity|]. split; [discriminate | eexists; reflexivity].
        -- rewrite (@handle_stream request w v Hm Hp Hv Hne). cbv zeta.
           destruct (w (GET v)) as [rep|].
           2:{ do 3 right. split; [reflexivity|]. split; [discriminate | eexists; reflexivity]. }
           destruct (ok rep).
           2:{ do 3 right. split; [reflexivity|]. split; [discriminate | eexists; reflexivity]. }
           destruct (id (pageInfo v (text rep))).
           2:{ right; right; left. split; [reflexivity | eexists; reflexivity]. }
           destruct (fst (getStream _ _ _ _ w)); cbn [fst snd].
           ++ left. split; reflexivity.
           ++ do 3 right. split; [reflexivity|]. split; [discriminate | eexists; reflexivity].
      * rewrite (@handle_missing request w name Hm Hreq Hg). right; left.
        split; [reflexivity|]. split; [reflexivity | eexists; reflexivity].
    + destruct (path_cases (pathname request))
        as [Hp | [Hp | [Hp | [Hp | [Hp | [_ [Hh Hr]]]]]]];
        try (rewrite Hp in Hreq; discriminate).
      * rewrite (@handle_health request w Hm (or_introl Hp)). left. split; reflexivity.
      * rewrite (@handle_health request w Hm (or_intror Hp)). left. split; reflexivity.
      * rewrite (@handle_unknown request w Hm Hreq Hh Hr). right; right; left.
        split; [reflexivity | eexists; reflexivity].
  - destruct (String.eqb_spec (method request) "OPTIONS") as [Hm | Hm].
    { rewrite (@handle_options request w Hm). cbn. lia. }
    destruct (requiredParam (pathname request)) as [name|] eqn:Hreq.
    + destruct (given (param name (searchParams request))) eqn:Hg.
      * apply given_true in Hg. destruct Hg as [v [Hv Hne]].
        destruct (@requiredParam_cases _ _ Hreq) as [[Hp ->] | [[Hp | Hp] ->]].
        -- rewrite (@handle_search request w v Hm Hp Hv Hne). cbn. lia.
        -- rewrite (@handle_content request w v Hm Hp Hv Hne). cbn. lia.
        -- rewrite (@handle_stream request w v Hm Hp Hv Hne). cbv zeta.
           destruct (w (GET v)) as [rep|]; [|cbn; lia].
           destruct (ok rep); [|cbn; lia].
           destruct (id (pageInfo v (text rep))); cbn; lia.
      * rewrite (@handle_missing request w name Hm Hreq Hg). cbn. lia.
    + destruct (path_cases (pathname request))
        as [Hp | [Hp | [Hp | [Hp | [Hp | [_ [Hh Hr]]]]]]];
        try (rewrite Hp in Hreq; discriminate).
      * rewrite (@handle_health request w Hm (or_introl Hp)). cbn. lia.
      * rewrite (@handle_health request w Hm (or_intror Hp)). cbn. lia.
      * rewrite (@handle_unknown request w Hm Hreq Hh Hr). cbn. lia.
Qed.

Lemma streamForm_fields (contentId : string) (translatorId : option string)
    (season episode : option number) :
  let form := streamForm contentId translatorId season episode in
  formGet "id" form = Some (FStr contentId) /\
  formGet "translator_id" form
  = Some (match translatorId with Some t => FStr t | None => FNull end) /\
  (formGet "action" form = Some (FStr "get_stream") <->
   season <> None /\ episode <> None) /\
  (formGet "action" form = Some (FStr "get_movie") <->
   season = None \/ episode = None) /\
  (forall s e, season = Some s -> episode = Some e ->
     formGet "season" form = Some (FNum s) /\
     formGet "episode" form = Some (FNum e)) /\
  (season = None \/ episode = None ->
   formGet "season" form = None /\ formGet "episode" form = None).
Proof.
  unfold streamForm.
  destruct season as [s|], episode as [e|]; cbn;
    (split; [reflexivity|]); (split; [reflexivity|]).
  - split; [split; [split; discriminate | reflexivity]|].
    split; [split; [discriminate | intros [H|H]; discriminate]|].
    split; [|intros [H|H]; discriminate].
    intros s0 e0 Hs He. inversion Hs; inversion He. split; reflexivity.
  - split; [split; [discriminate | intros [_ H]; congruence]|].
    split; [split; [right|]; reflexivity|].
    split; [discriminate | split; reflexivity].
  - split; [split; [discriminate | intros [H _]; congruence]|].
    split; [split; [left|]; reflexivity|].
    split; [discriminate | split; reflexivity].
  - split; [split; [discriminate | intros [H _]; congruence]|].
    split; [split; [left|]; reflexivity|].
    split; [discriminate | split; reflexivity].
Qed.

Lemma optInt_none (p : option string) : optInt p = None <-> given p = false.
Proof.
  unfold optInt, given. destruct p as [[| c s]|]; cbn; split; intros H;
    try reflexivity; discriminate.
Qed.

Lemma optInt_some (p : option string) (s : string) :
  p = Some s -> s <> "" -> optInt p = Some (parseInt s).
Proof.
  intros -> Hne. unfold optInt, given.
  destruct s; [congruence | reflexivity].
Qed.

(** X4: on [/api/stream] the stream request is sent only when the page
    answered with a 2xx status and holds a content id.  When the page
    cannot be fetched the answer is a 500 carrying the failure, and when
    the page holds no [data-id] text the answer is the 404 for a missing
    content id; in both cases the page request is the only one sent. *)
Theorem stream_needs_content_id (request : Request) (w : world)
    (contentUrl : string) :
  method request <> "OPTIONS" ->
  pathname request = "/api/stream" ->
  param "url" (searchParams request) = Some contentUrl ->
  contentUrl <> "" ->
  (snd (handle request w) <> [GET contentUrl] <->
   exists rep contentId,
     w (GET contentUrl) = Some rep /\ ok rep = true /\
     id (pageInfo contentUrl (text rep)) = Some contentId) /\
  (forall rep,
     w (GET contentUrl) = Some rep -> ok rep = true ->
     Str.includes "data-id=" (text rep) = false ->
     handle request w =
     (MkResponse 404 (Failure "Could not find content ID"), [GET contentUrl]))
  /\
  (forall rep,
     w (GET contentUrl) = Some rep -> ok rep = false ->
     handle request w =
     (MkResponse 500
        (Caught (Error ("Failed to fetch page: " ++ showZ (status rep))%string)),
      [GET contentUrl])) /\
  (w (GET contentUrl) = None ->
   handle request w = (MkResponse 500 (Caught NetworkError), [GET contentUrl])).
Proof.
  intros Hm Hp Hu Hne.
  rewrite (@handle_stream request w contentUrl Hm Hp Hu Hne). cbv zeta.
  split; [|split; [|split]].
  - destruct (w (GET contentUrl)) as [rep|].
    2:{ split; [intros H; now elim H | intros [rep [c [H _]]]; discriminate]. }
    destruct (ok rep) eqn:Hok.
    2:{ split; [intros H; now elim H
               | intros [rep' [c [[= <-] [H _]]]]; congruence]. }
    destruct (id (pageInfo contentUrl (text rep))) as [c|] eqn:Hid.
    + split; [intros _; exists rep, c; auto | intros _; discriminate].
    + split; [intros H; now elim H
             | intros [rep' [c [[= <-] [_ H]]]]; congruence].
  - intros rep -> -> Hno. rewrite (id_is_absent _ _ Hno). reflexivity.
  - intros rep -> ->. reflexivity.
  - intros ->. reflexivity.
Qed.

Lemma stream_needs_content_id_witness :
  let request :=
    MkRequest "GET" "/api/stream" [("url", "https://hdrezka.me/films/1.html")] in
  handle request (upstream 200 "<html></html>" (Some (envelopeOf ""))) =
  (MkResponse 404 (Failure "Could not find content ID"),
   [GET "https://hdrezka.me/films/1.html"]).
Proof.
  cbv zeta.
  apply (proj1 (proj2 (@stream_needs_content_id
                         (MkRequest "GET" "/api/stream"
                            [("url", "https://hdrezka.me/films/1.html")])
                         (upstream 200 "<html></html>" (Some (envelopeOf "")))
                         "https://hdrezka.me/films/1.html"
                         ltac:(discriminate) eq_refl eq_refl
                         ltac:(discriminate)))
           (Reply 200 "<html></html>" None));
    reflexivity.
Defined.

(** X5: on [/api/stream], once the page is fetched and its content id
    found, the stream request carries that id, whatever the client sent;
    it asks for an episode ([get_stream], with the [season] and [episode]
    parameters read as integers) exactly when both parameters are present
    and non-empty, also when they are not numerals; when either is missing
    or empty it asks for a film ([get_movie]) and carries neither. *)
Theorem stream_mode_of_query (request : Request) (w : world)
    (contentUrl : string) (page : reply) (contentId : string) :
  method request <> "OPTIONS" ->
  pathname request = "/api/stream" ->
  param "url" (searchParams request) = Some contentUrl ->
  contentUrl <> "" ->
  w (GET contentUrl) = Some page ->
  ok page = true ->
  id (pageInfo contentUrl (text page)) = Some contentId ->
  let q := searchParams request in
  exists form,
    snd (handle request w) =
    [GET contentUrl; POST "https://hdrezka.me/ajax/get_cdn_series/" form] /\
    formGet "id" form = Some (FStr contentId) /\
    (formGet "action" form = Some (FStr "get_stream") <->
     given (param "season" q) = true /\ given (param "episode" q) = true) /\
    (formGet "action" form = Some (FStr "get_movie") <->
     given (param "season" q) = false \/ given (param "episode" q) = false) /\
    (forall s e,
       param "season" q = Some s -> s <> "" ->
       param "episode" q = Some e -> e <> "" ->
       formGet "season" form = Some (FNum (parseInt s)) /\
       formGet "episode" form = Some (FNum (parseInt e))) /\
    (given (param "season" q) = false \/ given (param "episode" q) = false ->
     formGet "season" form = None /\ formGet "episode" form = None).
Proof.
  intros Hm Hp Hu Hne Hw Hok Hid q. subst q.
  rewrite (@handle_stream request w contentUrl Hm Hp Hu Hne). cbv zeta.
  rewrite Hw, Hok, Hid. cbn [snd].
  set (tid := if given (param "translator_id" (searchParams request))
              then param "translator_id" (searchParams request)
              else translatorId (pageInfo contentUrl (text page))).
  set (season := param "season" (searchParams request)).
  set (episode := param "episode" (searchParams request)).
  exists (streamForm contentId tid (optInt season) (optInt episode)).
  split; [reflexivity|].
  destruct (streamForm_fields contentId tid (optInt season) (optInt episode))
    as [Fid [_ [Fs [Fm [Fse Fno]]]]].
  cbv zeta in Fid, Fs, Fm, Fse, Fno.
  split; [exact Fid|].
  assert (Hnone : forall p, optInt p <> None <-> given p = true).
  { intros p. rewrite optInt_none. destruct (given p); split; congruence. }
  split; [rewrite Fs, !Hnone; reflexivity|].
  split; [rewrite Fm, !optInt_none; reflexivity|].
  split.
  - intros s e Hs Hsne He Hene.
    apply Fse; [exact (optInt_some Hs Hsne) | exact (optInt_some He Hene)].
  - rewrite <- !optInt_none. exact Fno.
Qed.

Lemma stream_mode_of_query_witness :
  let page := ("<a " ++ attr "data-id" "123" ++ ">")%string in
  let request :=
    MkRequest "GET" "/api/stream"
      [("url", "https://hdrezka.me/series/1.html");
       ("season", "abc"); ("episode", "07")] in
  exists form,
    snd (handle request (upstream 200 page None)) =
    [GET "https://hdrezka.me/series/1.html";
     POST "https://hdrezka.me/ajax/get_cdn_series/" form] /\
    formGet "action" form = Some (FStr "get_stream") /\
    formGet "season" form = Some (FNum NaN) /\
    formGet "episode" form = Some (FNum (Fin 7)).
Proof.
  cbv zeta.
  destruct (@stream_mode_of_query
              (MkRequest "GET" "/api/stream"
                 [("url", "https://hdrezka.me/series/1.html");
                  ("season", "abc"); ("episode", "07")])
              (upstream 200 ("<a " ++ attr "data-id" "123" ++ ">")%string None)
              "https://hdrezka.me/series/1.html"
              (Reply 200 ("<a " ++ attr "data-id" "123" ++ ">")%string None)
              "123"
              ltac:(discriminate) eq_refl eq_refl ltac:(discriminate)
              eq_refl eq_refl eq_refl)
    as [form [Hsent [_ [Hs [_ [Hse _]]]]]].
  exists form. split; [exact Hsent|].
  split; [apply (proj2 Hs); split; reflexivity|].
  exact (Hse "abc" "07" eq_refl ltac:(discriminate) eq_refl ltac:(discriminate)).
Defined.

(** X6: a search request with a non-empty query sends exactly one request,
    the search request for that query, and answers 200 with the query as
    the client gave it and the entries of the page, also when there are
    none: a page without any item block gives an empty list.  The answer
    is a 500 exactly when the upstream cannot be reached or answers
    outside 2xx. *)
Theorem api_search_outcome (request : Request) (w : world) (query : string) :
  method request <> "OPTIONS" ->
  pathname request = "/api/search" ->
  param "q" (searchParams request) = Some query -> query <> "" ->
  handle request w =
  (match w (searchRequest query) with
   | None => MkResponse 500 (Caught NetworkError)
   | Some rep =>
       if ok rep
       then MkResponse 200
              (SearchResults query
                 (map resultOf (exec_all itemRegex (text rep))))
       else MkResponse 500
              (Caught (Error ("Search failed: " ++ showZ (status rep))%string))
   end, [searchRequest query]) /\
  (forall rep,
     w (searchRequest query) = Some rep -> ok rep = true ->
     Str.includes "<div class=" (text rep) = false ->
     handle request w =
     (MkResponse 200 (SearchResults query []), [searchRequest query])).
Proof.
  intros Hm Hp Hq Hne.
  rewrite (@handle_search request w query Hm Hp Hq Hne), searchContent_outcome.
  split.
  - destruct (w (searchRequest query)) as [rep|]; [|reflexivity].
    destruct (ok rep); reflexivity.
  - intros rep -> -> Hno. unfold itemRegex. cbn [cat].
    rewrite exec_all_absent by exact Hno. reflexivity.
Qed.

Lemma api_search_outcome_witness :
  let request := MkRequest "GET" "/api/search" [("q", "a b")] in
  handle request (upstream 200 "<html></html>" None) =
  (MkResponse 200 (SearchResults "a b" []),
   [GET "https://hdrezka.me/search/?do=search&subaction=search&q=a%20b"]).
Proof.
  cbv zeta.
  apply (proj2 (@api_search_outcome
                  (MkRequest "GET" "/api/search" [("q", "a b")])
                  (upstream 200 "<html></html>" None) "a b"
                  ltac:(discriminate) eq_refl eq_refl ltac:(discriminate))
           (Reply 200 "<html></html>" None));
    reflexivity.
Defined.

(** X7: a content request with a non-empty URL sends exactly one request,
    a GET of that URL, and answers 200 exactly when the page answers with
    a 2xx status, with the URL, the translators, the seasons and the
    series flag read from the page; it never answers 404: a page without
    a content id still gives a 200, with no translators and no seasons
    when it holds none of their markers. *)
Theorem api_content_outcome (request : Request) (w : world)
    (contentUrl : string) :
  method request <> "OPTIONS" ->
  pathname request = "/api/content" ->
  param "url" (searchParams request) = Some contentUrl -> contentUrl <> "" ->
  let resp := fst (handle request w) in
  snd (handle request w) = [GET contentUrl] /\
  (code resp = 200%Z <->
   exists rep, w (GET contentUrl) = Some rep /\ ok rep = true) /\
  code resp <> 404%Z /\
  (forall rep,
     w (GET contentUrl) = Some rep -> ok rep = true ->
     let info := pageInfo contentUrl (text rep) in
     payload resp =
     Content contentUrl (translators info) (seasons info) (isSeries info)) /\
  (forall rep,
     w (GET contentUrl) = Some rep -> ok rep = true ->
     Str.includes "data-translator_id=" (text rep) = false ->
     Str.includes "data-season_id" (text rep) = false ->
     payload resp =
     Content contentUrl [] Obj.empty
       (Str.includes "sof.tv" (text rep) || Str.includes "/series/" contentUrl)).
Proof.
  intros Hm Hp Hq Hne.
  rewrite (@handle_content request w contentUrl Hm Hp Hq Hne),
    getContentInfo_outcome.
  cbv zeta. cbn [fst snd].
  split; [reflexivity|].
  split; [|split; [|split]].
  - destruct (w (GET contentUrl)) as [rep|].
    2:{ split; [discriminate | intros [rep [H _]]; discriminate]. }
    destruct (ok rep) eqn:Hok.
    + split; [intros _; exists rep; auto | reflexivity].
    + split; [discriminate | intros [rep' [[= <-] H]]; congruence].
  - destruct (w (GET contentUrl)) as [rep|]; [|discriminate].
    destruct (ok rep); discriminate.
  - intros rep -> ->. reflexivity.
  - intros rep -> -> Ht Hs. cbn [payload].
    destruct (translator_is_absent contentUrl _ Ht) as [_ Htr].
    rewrite Htr, (seasons_are_absent contentUrl _ Hs).
    unfold pageInfo. cbn [isSeries]. rewrite Hs.
    destruct (Str.includes "sof.tv" (text rep)); reflexivity.
Qed.

Lemma api_content_outcome_witness :
  let request :=
    MkRequest "GET" "/api/content" [("url", "https://hdrezka.me/series/1.html")] in
  payload (fst (handle request (upstream 200 "<html></html>" None))) =
  Content "https://hdrezka.me/series/1.html" [] Obj.empty true.
Proof.
  cbv zeta.
  apply (proj2 (proj2 (proj2 (proj2 (@api_content_outcome
                  (MkRequest "GET" "/api/content"
                     [("url", "https://hdrezka.me/series/1.html")])
                  (upstream 200 "<html></html>" None)
                  "https://hdrezka.me/series/1.html"
                  ltac:(discriminate) eq_refl eq_refl ltac:(discriminate)))))
           (Reply 200 "<html></html>" None));
    reflexivity.
Defined.

(** ** The search URL *)

Lemma encodeURIComponent_cons (c : ascii) (s : string) :
  encodeURIComponent (String c s) = (escapeOf c ++ encodeURIComponent s)%string.
Proof. reflexivity. Qed.

Lemma unescape_escapeOf (c : ascii) (t : string) :
  unescapeComponent (escapeOf c ++ t)
  = option_map (String c) (unescapeComponent t).
Proof.
  destruct c as [[] [] [] [] [] [] [] []]; reflexivity.
Qed.

Lemma escapeOf_chars (c : ascii) :
  allChars isComponentChar (escapeOf c) = true.
Proof.
  destruct c as [[] [] [] [] [] [] [] []]; reflexivity.
Qed.

Lemma unescape_encode (s : string) :
  unescapeComponent (encodeURIComponent s) = Some s.
Proof.
  induction s as [| c s IH]; [reflexivity|].
  rewrite encodeURIComponent_cons, unescape_escapeOf, IH. reflexivity.
Qed.

Lemma encodeURIComponent_chars (s : string) :
  allChars isComponentChar (encodeURIComponent s) = true.
Proof.
  induction s as [| c s IH]; [reflexivity|].
  rewrite encodeURIComponent_cons, allChars_append, escapeOf_chars, IH.
  reflexivity.
Qed.

Lemma escapeOf_length (c : ascii) :
  (isUnreserved c = true /\ escapeOf c = String c "")
  \/ (isUnreserved c = false /\ 3 <= String.length (escapeOf c)).
Proof.
  destruct c as [[] [] [] [] [] [] [] []];
    first [left; split; reflexivity | right; split; [reflexivity | vm_compute; lia]].
Qed.

Lemma encodeURIComponent_length (s : string) :
  String.length s <= String.length (encodeURIComponent s) /\
  (allChars isUnreserved s = false ->
   String.length s < String.length (encodeURIComponent s)).
Proof.
  induction s as [| c s [IH1 IH2]]; [split; [reflexivity | discriminate]|].
  rewrite encodeURIComponent_cons, length_append.
  change (allChars isUnreserved (String c s))
    with (isUnreserved c && allChars isUnreserved s).
  destruct (escapeOf_length c) as [[Hu ->] | [Hu Hlen]]; rewrite Hu;
    cbn [String.length andb].
  - split; [lia|]. intros H. specialize (IH2 H). lia.
  - split; [lia|]. intros _. lia.
Qed.

Lemma includes_char_absent (p : ascii -> bool) (c : ascii) (s : string) :
  p c = false -> allChars p s = true -> Str.includes (String c "") s = false.
Proof.
  intros Hc. induction s as [| d s IH]; [reflexivity|].
  cbn [allChars Str.includes Str.startsWith]. intros H.
  apply andb_true_iff in H. destruct H as [Hd Hs].
  rewrite (IH Hs).
  destruct (Ascii.eqb_spec c d) as [-> | _]; [congruence | reflexivity].
Qed.

(** X8: distinct queries give distinct search requests: the query can be
    read back from the URL the worker fetches. *)
Theorem search_url_injective (a b : string) :
  a <> b -> searchRequest a <> searchRequest b.
Proof.
  intros Hab H. apply Hab. unfold searchRequest in H. injection H as H.
  apply (f_equal unescapeComponent) in H.
  rewrite !unescape_encode in H. congruence.
Qed.

Lemma search_url_injective_witness :
  searchRequest "a b" <> searchRequest "a+b".
Proof. apply search_url_injective. discriminate. Defined.

(** X9: the search URL is the fixed search address followed by the escaped
    query, which holds only letters, digits, the marks [-_.!~*'()] and
    percent signs, so that no character of the query can end the [q]
    parameter or start another one; the query is read back from it; and it
    is the query itself exactly when the query holds unreserved characters
    only. *)
Theorem search_url_characters (query : string) :
  exists e,
    searchRequest query
    = GET ("https://hdrezka.me/search/?do=search&subaction=search&q=" ++ e) /\
    allChars isComponentChar e = true /\
    Str.includes "&" e = false /\ Str.includes "=" e = false /\
    Str.includes "#" e = false /\ Str.includes " " e = false /\
    unescapeComponent e = Some query /\
    (e = query <-> allChars isUnreserved query = true).
Proof.
  exists (encodeURIComponent query).
  split; [reflexivity|].
  split; [apply encodeURIComponent_chars|].
  pose proof (encodeURIComponent_chars query) as Hc.
  split; [exact (@includes_char_absent isComponentChar "&" _ eq_refl Hc)|].
  split; [exact (@includes_char_absent isComponentChar "=" _ eq_refl Hc)|].
  split; [exact (@includes_char_absent isComponentChar "#" _ eq_refl Hc)|].
  split; [exact (@includes_char_absent isComponentChar " " _ eq_refl Hc)|].
  split; [apply unescape_encode|].
  split.
  - intros He. destruct (allChars isUnreserved query) eqn:Hu; [reflexivity|].
    destruct (encodeURIComponent_length query) as [_ Hlt].
    specialize (Hlt Hu). rewrite He in Hlt. lia.
  - induction query as [| c s IH]; [reflexivity|].
    change (allChars isUnreserved (String c s))
      with (isUnreserved c && allChars isUnreserved s).
    intros H. apply andb_true_iff in H. destruct H as [Hh Hs].
    rewrite encodeURIComponent_cons.
    destruct (escapeOf_length c) as [[_ ->] | [Hu _]]; [|congruence].
    cbn [append]. f_equal. apply IH; [|exact Hs].
    apply encodeURIComponent_chars.
Qed.

(** ** The subtitle tracks *)

Lemma entries_keys (V : Type) (o : Obj.obj V) :
  map fst (Obj.entries o) = Obj.keys o.
Proof.
  unfold Obj.entries.
  assert (H : forall k, In k (Obj.keys o) -> In k (map fst o)).
  { intros k. apply Permutation_in. apply keys_permutation. }
  induction (Obj.keys o) as [| k ks IH]; [reflexivity|].
  cbn [flat_map]. rewrite map_app, IH by (intros k' Hk; apply H; right; exact Hk).
  destruct (@get_of_key V o k (H k (or_introl eq_refl))) as [v [-> _]].
  reflexivity.
Qed.

Lemma entries_get (V : Type) (o : Obj.obj V) (k : string) (v : V) :
  In (k, v) (Obj.entries o) -> Obj.get o k = Some v.
Proof.
  unfold Obj.entries. intros H. apply in_flat_map in H.
  destruct H as [k' [_ H]].
  destruct (Obj.get o k') as [v'|] eqn:Hg; [|contradiction].
  destruct H as [[= <- <-] | []]. exact Hg.
Qed.

(** The tracks pushed for a list of entries. *)
Lemma tracks_of_entries (data : json) (es : list (string * json)) :
  let tracks :=
    flat_map (fun '(code, name) =>
                if negb (String.eqb code "off") && truthy (Some data)
                then [MkSubtitle code name data] else []) es in
  truthy (Some data) = true ->
  map lang tracks = filter (fun k => negb (String.eqb k "off")) (map fst es) /\
  forall t, In t tracks ->
    lang t <> "off" /\ url t = data /\ In (lang t, name t) es.
Proof.
  cbv zeta. intros ->.
  induction es as [| [code nm] es [IH1 IH2]]; [split; [reflexivity | intros t []]|].
  cbn [flat_map map filter fst]. rewrite andb_true_r.
  destruct (String.eqb_spec code "off") as [-> | Hne]; cbn [negb app map].
  - split; [exact IH1|]. intros t Ht.
    destruct (IH2 t Ht) as [H1 [H2 H3]]. repeat split; auto. right. exact H3.
  - split; [cbn [lang]; f_equal; exact IH1|].
    intros t [<- | Ht].
    + cbn [lang url name]. repeat split; auto. left. reflexivity.
    + destruct (IH2 t Ht) as [H1 [H2 H3]]. repeat split; auto. right. exact H3.
Qed.

(** X10: [parseSubtitles] gives no track unless both the subtitle data and
    the language table are truthy; every track it gives carries the whole
    subtitle data as its URL, whatever its language, and none is for the
    code [off]; for a language table that is an object, the tracks are its
    codes other than [off], in the order of [Object.keys], each with the
    name the table gives it. *)
Theorem parseSubtitles_tracks (subtitleData subtitleLns : value) :
  let tracks := parseSubtitles subtitleData subtitleLns in
  (truthy subtitleData = false \/ truthy subtitleLns = false -> tracks = []) /\
  (forall t, In t tracks -> lang t <> "off" /\ subtitleData = Some (url t)) /\
  (forall fields,
     truthy subtitleData = true -> subtitleLns = Some (JObj fields) ->
     map lang tracks
     = filter (fun k => negb (String.eqb k "off")) (Obj.keys fields) /\
     forall t, In t tracks -> Obj.get fields (lang t) = Some (name t)).
Proof.
  cbv zeta. unfold parseSubtitles. split; [|split].
  - intros [-> | ->]; [reflexivity | rewrite andb_false_r; reflexivity].
  - intros t.
    destruct (truthy subtitleData) eqn:Hd; [|intros []].
    destruct (truthy subtitleLns); [|intros []]. cbn [andb].
    destruct subtitleData as [data|]; [|discriminate].
    destruct subtitleLns as [lns|]; [|intros []].
    intros Ht.
    destruct (tracks_of_entries data (jsonEntries lns) Hd) as [_ H].
    rewrite Hd in H.
    destruct (H t Ht) as [H1 [H2 _]]. split; [exact H1 | congruence].
  - intros fields Hd ->. rewrite Hd. cbn [truthy andb].
    destruct subtitleData as [data|]; [|discriminate].
    destruct (tracks_of_entries data (jsonEntries (JObj fields)) Hd) as [H1 H2].
    rewrite Hd in H1, H2. cbn [jsonEntries] in *. rewrite entries_keys in H1.
    split; [exact H1|].
    intros t Ht. destruct (H2 t Ht) as [_ [_ H3]].
    apply entries_get. exact H3.
Qed.

Lemma parseSubtitles_tracks_witness :
  let table :=
    [("off", JStr "Off"); ("ru", JStr "Russian"); ("2", JStr "Two")] in
  map lang (parseSubtitles (Some (JStr "https://cdn/sub.vtt"))
              (Some (JObj table)))
  = ["2"; "ru"].
Proof.
  cbv zeta.
  exact (proj1 (proj2 (proj2 (parseSubtitles_tracks
                                (Some (JStr "https://cdn/sub.vtt"))
                                (Some (JObj [("off", JStr "Off");
                                             ("ru", JStr "Russian");
                                             ("2", JStr "Two")]))))
                  [("off", JStr "Off"); ("ru", JStr "Russian");
                   ("2", JStr "Two")] eq_refl eq_refl)).
Defined.

(** ** The entries of the quality mapping *)

(** The pieces of a split hold only characters of the string. *)
Lemma split_go_chars (p : ascii -> bool) (sep s cur : string) (skip : nat) :
  allChars p cur = true -> allChars p s = true ->
  Forall (fun x => allChars p x = true) (Str.split_go sep s cur skip).
Proof.
  revert cur skip. induction s as [| c s IH]; intros cur skip Hcur Hs.
  - destruct skip; cbn [Str.split_go]; repeat constructor;
      rewrite allChars_rev; exact Hcur.
  - change (allChars p (String c s)) with (p c && allChars p s) in Hs.
    apply andb_true_iff in Hs. destruct Hs as [Hc Hs].
    destruct skip as [| k]; cbn [Str.split_go].
    + destruct (Str.startsWith sep (String c s)).
      * constructor; [rewrite allChars_rev; exact Hcur|].
        apply IH; [reflexivity | exact Hs].
      * apply IH; [|exact Hs].
        change (allChars p (String c cur)) with (p c && allChars p cur).
        rewrite Hc, Hcur. reflexivity.
    + apply IH; assumption.
Qed.

Lemma split_chars (p : ascii -> bool) (sep s : string) :
  allChars p s = true ->
  Forall (fun x => allChars p x = true) (Str.split sep s).
Proof. intros H. apply split_go_chars; [reflexivity | exact H]. Qed.

(** No piece of a split on one character holds that character. *)
Lemma split_go_free (c0 : ascii) (s cur : string) :
  allChars (fun c => negb (Ascii.eqb c c0)) cur = true ->
  Forall (fun x => allChars (fun c => negb (Ascii.eqb c c0)) x = true)
         (Str.split_go (String c0 "") s cur 0).
Proof.
  revert cur. induction s as [| c s IH]; intros cur Hcur.
  - cbn [Str.split_go]. repeat constructor. rewrite allChars_rev. exact Hcur.
  - cbn [Str.split_go Str.startsWith String.length Nat.sub].
    destruct (Ascii.eqb_spec c0 c) as [<- | Hne].
    + destruct s; cbn [andb]; (constructor;
        [rewrite allChars_rev; exact Hcur | apply IH; reflexivity]).
    + cbn [andb]. apply IH.
      change (negb (Ascii.eqb c c0)
              && allChars (fun c => negb (Ascii.eqb c c0)) cur = true).
      rewrite Hcur. destruct (Ascii.eqb_spec c c0); [congruence | reflexivity].
Qed.

Lemma split_free (c0 : ascii) (s : string) :
  Forall (fun x => allChars (fun c => negb (Ascii.eqb c c0)) x = true)
         (Str.split (String c0 "") s).
Proof. apply split_go_free. reflexivity. Qed.

Lemma put_keys (V : Type) (o : Obj.obj V) (k : string) (v : V) :
  map fst (Obj.put o k v)
  = if existsb (String.eqb k) (map fst o) then map fst o
    else (map fst o ++ [k])%list.
Proof.
  induction o as [| [k' v'] o IH]; [reflexivity|].
  cbn [Obj.put map fst existsb].
  destruct (String.eqb k k'); cbn [orb map fst]; [reflexivity|].
  rewrite IH. destruct (existsb (String.eqb k) (map fst o)); reflexivity.
Qed.

Lemma put_nodup (V : Type) (o : Obj.obj V) (k : string) (v : V) :
  NoDup (map fst o) -> NoDup (map fst (Obj.put o k v)).
Proof.
  intros H. rewrite put_keys.
  destruct (existsb (String.eqb k) (map fst o)) eqn:E; [exact H|].
  apply NoDup_app; [exact H | repeat constructor; intros [] |].
  intros a Ha [<- | []].
  assert (existsb (String.eqb k) (map fst o) = true); [|congruence].
  apply existsb_exists. exists k. split; [exact Ha | apply String.eqb_refl].
Qed.

Lemma put_entries (V : Type) (Q : string * V -> Prop) (o : Obj.obj V)
    (k : string) (v : V) :
  Q (k, v) -> Forall Q o -> Forall Q (Obj.put o k v).
Proof.
  intros Hv. induction o as [| [k' v'] o IH]; intros Ho; cbn [Obj.put].
  - repeat constructor. exact Hv.
  - inversion Ho; subst.
    destruct (String.eqb_spec k k') as [<- | _]; constructor; auto.
Qed.

Lemma label_chars (q : string) (c0 : ascii) :
  allChars (fun c => negb (Str.mem c "]")) (String c0 q) = true ->
  allChars (fun c => negb (Ascii.eqb c ",")) (String c0 q) = true ->
  allChars (fun c => negb (Str.mem c "],")) (String c0 q) = true.
Proof.
  generalize (String c0 q) as s. clear. intros s.
  induction s as [| d s IH]; [reflexivity|].
  change (negb (Str.mem d "]") && allChars (fun c => negb (Str.mem c "]")) s
          = true ->
          negb (Ascii.eqb d ",")
          && allChars (fun c => negb (Ascii.eqb c ",")) s = true ->
          negb (Str.mem d "],")
          && allChars (fun c => negb (Str.mem c "],")) s = true).
  intros H1 H2. apply andb_true_iff in H1, H2.
  destruct H1 as [H1 H1'], H2 as [H2 H2'].
  rewrite (IH H1' H2'), andb_true_r.
  cbn [Str.mem] in *. rewrite orb_false_r in *.
  destruct (Ascii.eqb d "]"); [discriminate|].
  destruct (Ascii.eqb d ","); [discriminate | reflexivity].
Qed.

(** What one part adds to the mapping, when it adds something. *)
Lemma addPart_adds (urls : Obj.obj string) (part : string) :
  allChars (fun c => negb (Ascii.eqb c ",")) part = true ->
  addPart urls part = urls \/
  exists q u,
    addPart urls part = Obj.put urls q u /\
    isStoredLabel q = true /\ isStoredUrl u = true.
Proof.
  intros Hpart. rewrite addPart_shape.
  destruct (shapeOf part) as [[q r]|] eqn:Hshape; [|left; reflexivity].
  destruct (find (Str.endsWith ".m3u8") (Str.split " or " r)) as [u|] eqn:Hfind;
    [|left; reflexivity].
  unfold Obj.set.
  destruct (String.eqb_spec q "__proto__") as [Hproto | Hproto];
    [left; reflexivity|].
  right. exists q, u. split; [reflexivity|].
  destruct (shapeOf_spec _ Hshape) as [-> [Hq [Hqb [Hr Hrl]]]].
  change ("[" ++ q ++ "]" ++ r)%string
    with (String "[" (q ++ String "]" r))%string in Hpart.
  change (allChars ?p (String ?c ?s)) with (p c && allChars p s) in Hpart.
  rewrite allChars_append in Hpart.
  change (allChars ?p (String ?c ?s)) with (p c && allChars p s) in Hpart.
  apply andb_true_iff in Hpart. destruct Hpart as [_ Hpart].
  apply andb_true_iff in Hpart. destruct Hpart as [Hqc Hpart].
  apply andb_true_iff in Hpart. destruct Hpart as [_ Hrc].
  apply find_some in Hfind. destruct Hfind as [Hin Hends].
  split.
  - unfold isStoredLabel.
    destruct q as [| c q']; [congruence|]. cbn [Str.isEmpty negb andb].
    apply String.eqb_neq in Hproto. rewrite Hproto. cbn [negb andb].
    exact (label_chars q' c Hqb Hqc).
  - unfold isStoredUrl. rewrite Hends. cbn [andb].
    assert (Hr2 : allChars (fun c => negb (Ascii.eqb c ",")
                                     && negb (isLineTerminator c)) r = true).
    { clear - Hrc Hrl. induction r as [| d r IH]; [reflexivity|].
      cbn [allChars] in *. apply andb_true_iff in Hrc, Hrl.
      destruct Hrc as [-> Hrc], Hrl as [-> Hrl]. cbn [andb]. auto. }
    pose proof (split_chars _ " or " r Hr2) as Hall.
    rewrite Forall_forall in Hall. exact (Hall u Hin).
Qed.

Lemma parseDecoded_invariant (decoded : string) :
  NoDup (map fst (parseDecoded decoded)) /\
  Forall (fun kv => isStoredLabel (fst kv) = true /\ isStoredUrl (snd kv) = true)
         (parseDecoded decoded).
Proof.
  unfold parseDecoded.
  pose proof (split_free "," decoded) as Hparts.
  assert (G : forall parts urls,
    Forall (fun x => allChars (fun c => negb (Ascii.eqb c ",")) x = true) parts ->
    NoDup (map fst urls) /\
    Forall (fun kv => isStoredLabel (fst kv) = true
                      /\ isStoredUrl (snd kv) = true) urls ->
    NoDup (map fst (fold_left addPart parts urls)) /\
    Forall (fun kv => isStoredLabel (fst kv) = true
                      /\ isStoredUrl (snd kv) = true)
           (fold_left addPart parts urls)).
  { induction parts as [| part parts IH]; intros urls Hp [Hn Hf]; [auto|].
    inversion Hp as [| ? ? Hpart Hrest]; subst. cbn [fold_left].
    apply IH; [exact Hrest|].
    destruct (@addPart_adds urls part Hpart) as [-> | [q [u [-> [Hq Hu]]]]]; [auto|].
    split; [apply put_nodup; exact Hn | apply put_entries; auto]. }
  apply G; [exact Hparts|]. split; constructor.
Qed.

(** X11: whatever the token, the mapping [parseVideoUrls] returns holds
    each label once; every label is non-empty, is not [__proto__] and
    holds neither a closing bracket nor a comma; and every URL ends in
    [.m3u8] and holds neither a comma nor a line break. *)
Theorem parseVideoUrls_entries (data : string) :
  let urls := parseVideoUrls data in
  NoDup (map fst urls) /\
  forall q u, In (q, u) urls ->
    q <> "" /\ q <> "__proto__" /\
    Str.includes "]" q = false /\ Str.includes "," q = false /\
    Str.endsWith ".m3u8" u = true /\ Str.includes "," u = false /\
    allChars (fun c => negb (isLineTerminator c)) u = true /\
    Obj.get urls q = Some u.
Proof.
  cbv zeta. unfold parseVideoUrls.
  destruct (parseDecoded_invariant (clearTrash data)) as [Hn Hf].
  split; [exact Hn|].
  intros q u Hin. rewrite Forall_forall in Hf.
  destruct (Hf _ Hin) as [Hq Hu]. cbn [fst snd] in Hq, Hu.
  unfold isStoredLabel in Hq. unfold isStoredUrl in Hu.
  apply andb_true_iff in Hq. destruct Hq as [Hq Hqc].
  apply andb_true_iff in Hq. destruct Hq as [Hq1 Hq2].
  apply andb_true_iff in Hu. destruct Hu as [Hu1 Hu2].
  split; [intros ->; discriminate|].
  split; [intros ->; discriminate|].
  split; [exact (@includes_char_absent _ "]" q eq_refl Hqc)|].
  split; [exact (@includes_char_absent _ "," q eq_refl Hqc)|].
  split; [exact Hu1|].
  split; [exact (@includes_char_absent _ "," u eq_refl Hu2)|].
  split.
  - apply (allChars_impl _ _ u) with (2 := Hu2).
    intros c Hc. apply andb_true_iff in Hc. tauto.
  - clear - Hn Hin. induction (parseDecoded (clearTrash data)) as [| [k v] o IH];
      [contradiction|].
    cbn [Obj.get]. cbn [map fst] in Hn. inversion Hn as [| ? ? Hnotin Hn']; subst.
    destruct Hin as [[= -> ->] | Hin].
    + rewrite String.eqb_refl. reflexivity.
    + destruct (String.eqb_spec q k) as [-> | _]; [|auto].
      exfalso. apply Hnotin. apply in_map_iff. exists (k, u). auto.
Qed.

Lemma parseVideoUrls_entries_witness :
  Str.endsWith ".m3u8" "https://cdn/v.m3u8" = true /\
  Obj.get (parseVideoUrls "WzcyMHBdaHR0cHM6Ly9jZG4vdi5tM3U4") "720p"
  = Some "https://cdn/v.m3u8".
Proof.
  assert (Hin : In ("720p", "https://cdn/v.m3u8")
                   (parseVideoUrls "WzcyMHBdaHR0cHM6Ly9jZG4vdi5tM3U4")).
  { vm_compute. left. reflexivity. }
  pose proof (proj2 (parseVideoUrls_entries "WzcyMHBdaHR0cHM6Ly9jZG4vdi5tM3U4")
                "720p" "https://cdn/v.m3u8" Hin) as H.
  split; [exact (proj1 (proj2 (proj2 (proj2 (proj2 H)))))|].
  exact (proj2 (proj2 (proj2 (proj2 (proj2 (proj2 (proj2 H))))))).
Defined.

(** ** The result of [getStream] as a whole *)

Lemma getStream_return_envelope (contentId : string)
    (translatorId : option string) (season episode : option number)
    (w : world) (r : StreamResult) (sent : list outbound) :
  getStream contentId translatorId season episode w = (Return r, sent) ->
  exists data,
    r = streamResult (envelopeUrls data) (envelopeSubtitles data).
Proof.
  intros H. apply (f_equal fst) in H. cbn [fst] in H.
  rewrite getStream_outcome in H.
  destruct (w _) as [rep|]; [|discriminate].
  destruct (ok rep); [|discriminate].
  destruct (json_body rep) as [data|]; [|discriminate].
  exists data.
  destruct data; try discriminate;
    try (destruct (failureFlag _); [discriminate|];
         destruct (malformedUrl _); [discriminate|];
         injection H as <-; reflexivity).
Qed.

Lemma envelopeUrls_invariant (data : json) :
  NoDup (map fst (envelopeUrls data)) /\
  Forall (fun kv => isStoredLabel (fst kv) = true /\ isStoredUrl (snd kv) = true)
         (envelopeUrls data).
Proof.
  assert (E : NoDup (map fst (@Obj.empty string)) /\
              Forall (fun kv => isStoredLabel (fst kv) = true
                                /\ isStoredUrl (snd kv) = true)
                     (@Obj.empty string)) by (split; constructor).
  unfold envelopeUrls. destruct data; try exact E.
  destruct (Obj.get fields "url") as [[]|]; try exact E.
  destruct (Str.isEmpty s); [exact E|].
  apply parseDecoded_invariant.
Qed.

Lemma isStoredUrl_playable (videoUrls : Obj.obj string) :
  Forall (fun kv => isStoredLabel (fst kv) = true /\ isStoredUrl (snd kv) = true)
         videoUrls ->
  Forall (fun kv => playable (snd kv)) videoUrls.
Proof.
  apply Forall_impl. intros [q u] [_ H]. unfold isStoredUrl in H.
  apply andb_true_iff in H. exact (proj1 H).
Qed.

(** X12: in every result [getStream] returns, the qualities are the labels
    of the mapping, each once; the stream URL is empty exactly when the
    mapping is empty, and otherwise it is the URL of one of the qualities
    and ends in [.m3u8]. *)
Theorem getStream_result_consistent (contentId : string)
    (translatorId : option string) (season episode : option number)
    (w : world) (r : StreamResult) (sent : list outbound) :
  getStream contentId translatorId season episode w = (Return r, sent) ->
  NoDup (qualities r) /\
  (forall q, In q (qualities r) <-> exists u, Obj.get (all_urls r) q = Some u) /\
  List.length (qualities r) = List.length (all_urls r) /\
  (stream_url r = "" <-> all_urls r = Obj.empty) /\
  (stream_url r <> "" ->
   Str.endsWith ".m3u8" (stream_url r) = true /\
   exists q, In q (qualities r) /\ Obj.get (all_urls r) q = Some (stream_url r)).
Proof.
  intros H. apply getStream_return_envelope in H. destruct H as [data ->].
  destruct (envelopeUrls_invariant data) as [Hn Hf].
  set (videoUrls := envelopeUrls data) in *.
  set (subs := envelopeSubtitles data).
  pose proof (qualities_permutation videoUrls subs) as Hq.
  pose proof (@keys_permutation _ videoUrls) as Hk.
  assert (Hperm : Permutation (qualities (streamResult videoUrls subs))
                              (map fst videoUrls)).
  { rewrite Hq. exact Hk. }
  assert (Hbest : qualities (streamResult videoUrls subs) <> [] ->
            exists best,
              In best (qualities (streamResult videoUrls subs)) /\
              Obj.get videoUrls best
              = Some (stream_url (streamResult videoUrls subs)) /\
              Str.endsWith ".m3u8" (stream_url (streamResult videoUrls subs))
              = true).
  { intros Hne.
    destruct (lastOf (qualities (streamResult videoUrls subs))) as [best|] eqn:Hl.
    2:{ apply lastOf_none in Hl. contradiction. }
    pose proof (stream_url_of_best subs (isStoredUrl_playable Hf) Hl) as Hg.
    exists best. split; [exact (lastOf_in _ Hl)|]. split; [exact Hg|].
    destruct (@get_of_key _ videoUrls best (get_in _ _ Hg)) as [v [Hv Hin]].
    rewrite Hg in Hv. injection Hv as <-.
    rewrite Forall_forall in Hf. destruct (Hf _ Hin) as [_ Hu].
    unfold isStoredUrl in Hu. apply andb_true_iff in Hu. exact (proj1 Hu). }
  change (all_urls (streamResult videoUrls subs)) with videoUrls.
  split; [exact (Permutation_NoDup (Permutation_sym Hperm) Hn)|].
  split.
  { intros q. split.
    - intros Hin. apply (Permutation_in _ Hperm) in Hin.
      destruct (@get_of_key _ videoUrls q Hin) as [v [Hv _]]. eauto.
    - intros [u Hu]. apply (Permutation_in _ (Permutation_sym Hperm)).
      exact (get_in _ _ Hu). }
  split; [rewrite (Permutation_length Hperm); apply length_map|].
  split.
  - split.
    + intros He.
      destruct (qualities (streamResult videoUrls subs)) as [| q0 qs] eqn:Hqs.
      * apply Permutation_nil in Hperm.
        destruct videoUrls; [reflexivity | discriminate].
      * destruct Hbest as [best [_ [_ Hends]]]; [discriminate|].
        rewrite He in Hends. discriminate.
    + intros He. apply stream_url_without_qualities.
      rewrite He in Hperm. apply Permutation_sym, Permutation_nil in Hperm.
      rewrite He. exact Hperm.
  - intros Hne.
    destruct (qualities (streamResult videoUrls subs)) as [| q0 qs] eqn:Hqs.
    + exfalso. apply Hne. apply stream_url_without_qualities. exact Hqs.
    + destruct Hbest as [best [Hin [Hg Hends]]]; [discriminate|].
      split; [exact Hends|]. exists best. auto.
Qed.

Lemma getStream_result_consistent_witness :
  let w := upstream 200 "" (Some (envelopeOf "WzcyMHBdaHR0cHM6Ly9jZG4vdi5tM3U4")) in
  let r := streamResult [("720p", "https://cdn/v.m3u8")] [] in
  getStream "1" None None None w = (Return r, [streamRequest "1" None None None])
  /\ NoDup (qualities r).
Proof.
  cbv zeta.
  assert (H : getStream "1" None None None
                (upstream 200 ""
                   (Some (envelopeOf "WzcyMHBdaHR0cHM6Ly9jZG4vdi5tM3U4")))
              = (Return (streamResult [("720p", "https://cdn/v.m3u8")] []),
                 [streamRequest "1" None None None])).
  { vm_compute. reflexivity. }
  split; [exact H|].
  exact (proj1 (@getStream_result_consistent _ _ _ _ _ _ _ H)).
Defined.

(** ** From the obfuscated token to the mapping *)

Lemma parseDecoded_chosen (gs : list segment) (q : string) :
  forallb wellFormedSegment gs = true ->
  Obj.get (parseDecoded (renderSegments gs)) q =
  if String.eqb q "__proto__" then None else chosen q gs.
Proof.
  intros Hwf. rewrite parseDecoded_segments, fold_segments by exact Hwf.
  cbn [Obj.get Obj.empty].
  destruct (String.eqb q "__proto__"); [reflexivity|].
  destruct (chosen q gs); reflexivity.
Qed.

Lemma clearTrash_decodes (token clear : string) :
  remove_all TRASH_PATTERN token = btoa clear
  \/ remove_all TRASH_PATTERN token = encodeGroups clear ->
  clearTrash token = clear.
Proof. intros H. unfold clearTrash. apply decoding_attempts. exact H. Qed.

(** X13: deobfuscation and parsing compose: when what the junk removal
    leaves of a token is the base64 encoding, padded or not, of a payload
    made of well-formed segments, the mapping [parseVideoUrls] returns
    for the token holds for every label the first alternative ending in
    [.m3u8] of the last segment tagged with it that has one, and nothing
    for the other labels. *)
Theorem parseVideoUrls_of_token (token : string) (gs : list segment)
    (q : string) :
  forallb wellFormedSegment gs = true ->
  remove_all TRASH_PATTERN token = btoa (renderSegments gs)
  \/ remove_all TRASH_PATTERN token = encodeGroups (renderSegments gs) ->
  Obj.get (parseVideoUrls token) q =
  if String.eqb q "__proto__" then None else chosen q gs.
Proof.
  intros Hwf Htoken. unfold parseVideoUrls.
  rewrite (@clearTrash_decodes _ _ Htoken). apply parseDecoded_chosen. exact Hwf.
Qed.

Lemma parseVideoUrls_of_token_witness :
  let gs := [Tagged "360" ["a.mp4"; "a.m3u8"]; Tagged "720p" ["b.m3u8"]] in
  let token := "#hWzM2MF1hLm1wNCBvciBh//_//Lm0zdTgsWzcyMHBdYi5tM3U4IUAh" in
  Obj.get (parseVideoUrls token) "360" = Some "a.m3u8".
Proof.
  cbv zeta.
  assert (Hwf : forallb wellFormedSegment
                  [Tagged "360" ["a.mp4"; "a.m3u8"]; Tagged "720p" ["b.m3u8"]]
                = true) by (vm_compute; reflexivity).
  assert (Ht : remove_all TRASH_PATTERN
                 "#hWzM2MF1hLm1wNCBvciBh//_//Lm0zdTgsWzcyMHBdYi5tM3U4IUAh"
               = btoa (renderSegments [Tagged "360" ["a.mp4"; "a.m3u8"];
                                       Tagged "720p" ["b.m3u8"]])
               \/ remove_all TRASH_PATTERN
                    "#hWzM2MF1hLm1wNCBvciBh//_//Lm0zdTgsWzcyMHBdYi5tM3U4IUAh"
                  = encodeGroups
                      (renderSegments [Tagged "360" ["a.mp4"; "a.m3u8"];
                                       Tagged "720p" ["b.m3u8"]])).
  { left. vm_compute. reflexivity. }
  exact (@parseVideoUrls_of_token _ _ "360" Hwf Ht).
Defined.

(** ** The stream endpoint from end to end *)

(** X14: on [/api/stream], once the page gave a content id and the
    upstream answered the stream request with a JSON envelope other than
    null: an envelope flagged as failed gives a 500 that carries what
    [getStream] threw for it -- the error with the upstream's message, or
    the TypeError raised when that message cannot be converted to a
    string; an envelope that is not flagged, and whose [url] is a string
    or falsy, gives a 200 with the stream result read from it; in
    particular, for an envelope that reports success and carries a token
    for well-formed segments, the 200 holds no subtitles and the mapping
    of the segments. *)
Theorem api_stream_end_to_end (request : Request) (w : world)
    (contentUrl : string) (page : reply) (contentId : string)
    (answer : reply) (data : json) :
  method request <> "OPTIONS" ->
  pathname request = "/api/stream" ->
  param "url" (searchParams request) = Some contentUrl ->
  contentUrl <> "" ->
  w (GET contentUrl) = Some page ->
  ok page = true ->
  id (pageInfo contentUrl (text page)) = Some contentId ->
  let q := searchParams request in
  let tid :=
    if given (param "translator_id" q) then param "translator_id" q
    else translatorId (pageInfo contentUrl (text page)) in
  w (streamRequest contentId tid (optInt (param "season" q))
       (optInt (param "episode" q))) = Some answer ->
  ok answer = true ->
  json_body answer = Some data ->
  data <> JNull ->
  (failureFlag data = true ->
   fst (handle request w) = MkResponse 500 (Caught (rejection data)) /\
   (forall fields text,
      data = JObj fields ->
      Obj.get fields "message" = Some (JStr text) -> text <> "" ->
      fst (handle request w) = MkResponse 500 (Caught (Error text))) /\
   (forall fields own v,
      data = JObj fields ->
      Obj.get fields "message" = Some (JObj own) ->
      Obj.get own "toString" = Some v ->
      fst (handle request w) = MkResponse 500 (Caught TypeError))) /\
  (failureFlag data = false -> malformedUrl data = false ->
   fst (handle request w)
   = MkResponse 200
       (Stream (streamResult (envelopeUrls data) (envelopeSubtitles data)))) /\
  (forall token gs,
     data = envelopeOf token ->
     forallb wellFormedSegment gs = true ->
     remove_all TRASH_PATTERN token = btoa (renderSegments gs)
     \/ remove_all TRASH_PATTERN token = encodeGroups (renderSegments gs) ->
     exists r,
       fst (handle request w) = MkResponse 200 (Stream r) /\
       subtitles r = [] /\
       forall label,
         Obj.get (all_urls r) label =
         if String.eqb label "__proto__" then None else chosen label gs).
Proof.
  intros Hm Hp Hu Hne Hw Hok Hid q tid Hw2 Hok2 Hj Hnull. subst q.
  rewrite (@handle_stream request w contentUrl Hm Hp Hu Hne). cbv zeta.
  rewrite Hw, Hok, Hid. fold tid. cbn [fst].
  rewrite getStream_outcome. unfold tid in *. rewrite Hw2, Hok2, Hj.
  split; [|split].
  - intros Hf.
    assert (Hr : match data with
                 | JNull => Throw TypeError
                 | _ =>
                     if failureFlag data then Throw (rejection data)
                     else if malformedUrl data then Throw TypeError
                     else Return (streamResult (envelopeUrls data)
                                    (envelopeSubtitles data))
                 end = @Throw StreamResult (rejection data)).
    { destruct data; try congruence; rewrite Hf; reflexivity. }
    rewrite Hr. split; [reflexivity|]. split.
    + intros fields text -> Hmsg Htext. cbn [rejection]. rewrite Hmsg.
      destruct text; [congruence | reflexivity].
    + intros fields own v -> Hmsg Hown. cbn [rejection]. rewrite Hmsg.
      cbn [truthy toString]. rewrite Hown. reflexivity.
  - intros Hf Hmal.
    destruct data; try congruence; rewrite Hf, Hmal; reflexivity.
  - intros token gs -> Hwf Htoken.
    exists (streamResult (envelopeUrls (envelopeOf token))
              (envelopeSubtitles (envelopeOf token))).
    split; [reflexivity|]. split; [reflexivity|].
    intros label. cbn [all_urls streamResult].
    unfold envelopeUrls, envelopeOf.
    change (Obj.get [("success", JBool true); ("url", JStr token)] "url")
      with (Some (JStr token)).
    destruct token as [| c t].
    + cbn [Str.isEmpty Obj.get Obj.empty].
      pose proof (@clearTrash_decodes _ _ Htoken) as Hc.
      rewrite <- (@parseDecoded_chosen gs label Hwf), <- Hc. reflexivity.
    + cbn [Str.isEmpty]. unfold parseVideoUrls.
      rewrite (@clearTrash_decodes _ _ Htoken).
      apply parseDecoded_chosen. exact Hwf.
Qed.

Lemma api_stream_end_to_end_witness :
  let token := "#hWzM2MF1hLm1wNCBvciBh//_//Lm0zdTgsWzcyMHBdYi5tM3U4IUAh" in
  let html := ("<a " ++ attr "data-id" "123" ++ ">")%string in
  let request :=
    MkRequest "GET" "/api/stream" [("url", "https://hdrezka.me/films/1.html")] in
  exists r,
    fst (handle request (upstream 200 html (Some (envelopeOf token))))
    = MkResponse 200 (Stream r) /\
    Obj.get (all_urls r) "360" = Some "a.m3u8".
Proof.
  cbv zeta.
  set (token := "#hWzM2MF1hLm1wNCBvciBh//_//Lm0zdTgsWzcyMHBdYi5tM3U4IUAh").
  set (html := ("<a " ++ attr "data-id" "123" ++ ">")%string).
  set (gs := [Tagged "360" ["a.mp4"; "a.m3u8"]; Tagged "720p" ["b.m3u8"]]).
  assert (Hid : id (pageInfo "https://hdrezka.me/films/1.html"
                      (text (Reply 200 html None))) = Some "123")
    by (vm_compute; reflexivity).
  assert (Hwf : forallb wellFormedSegment gs = true) by (vm_compute; reflexivity).
  assert (Ht : remove_all TRASH_PATTERN token = btoa (renderSegments gs)
               \/ remove_all TRASH_PATTERN token
                  = encodeGroups (renderSegments gs)).
  { left. vm_compute. reflexivity. }
  destruct (@api_stream_end_to_end
              (MkRequest "GET" "/api/stream"
                 [("url", "https://hdrezka.me/films/1.html")])
              (upstream 200 html (Some (envelopeOf token)))
              "https://hdrezka.me/films/1.html"
              (Reply 200 html None) "123"
              (Reply 200 "" (Some (envelopeOf token))) (envelopeOf token)
              ltac:(discriminate) eq_refl eq_refl ltac:(discriminate)
              eq_refl eq_refl Hid eq_refl eq_refl eq_refl
              ltac:(discriminate)) as [_ [_ H]].
  destruct (H token gs eq_refl Hwf Ht) as [r [Hr [_ Hall]]].
  exists r. split; [exact Hr|]. exact (Hall "360").
Defined.

(** ** The numbers read from a page *)

Lemma digitValue_digit (c : ascii) :
  Str.isDigit c = true ->
  digitValue 10 c = Some (Z.of_nat (nat_of_ascii c) - 48)%Z /\
  (0 <= Z.of_nat (nat_of_ascii c) - 48 <= 9)%Z.
Proof.
  destruct c as [[] [] [] [] [] [] [] []]; try discriminate;
    intros _; (split; [reflexivity | cbn; lia]).
Qed.

Lemma readDigits_digits (s : string) (a : Z) :
  allChars Str.isDigit s = true ->
  readDigits 10 s (Some a) = Some (decimalFrom s a).
Proof.
  revert a. induction s as [| c s IH]; intros a H; [reflexivity|].
  change (Str.isDigit c && allChars Str.isDigit s = true) in H.
  apply andb_true_iff in H. destruct H as [Hc Hs].
  cbn [readDigits decimalFrom].
  destruct (digitValue_digit c Hc) as [-> _]. apply IH. exact Hs.
Qed.

Lemma decimalFrom_nonneg (s : string) (a : Z) :
  allChars Str.isDigit s = true -> (0 <= a)%Z -> (a <= decimalFrom s a)%Z.
Proof.
  revert a. induction s as [| c s IH]; intros a H Ha; [cbn; lia|].
  change (Str.isDigit c && allChars Str.isDigit s = true) in H.
  apply andb_true_iff in H. destruct H as [Hc Hs].
  cbn [decimalFrom]. destruct (digitValue_digit c Hc) as [_ Hd].
  specialize (IH (a * 10 + (Z.of_nat (nat_of_ascii c) - 48))%Z Hs). lia.
Qed.

Lemma trimStart_digit (c : ascii) (s : string) :
  Str.isDigit c = true -> Str.trimStart (String c s) = String c s.
Proof.
  destruct c as [[] [] [] [] [] [] [] []]; try discriminate; reflexivity.
Qed.

(** [parseInt] on a run of digits: its decimal value, rounded to a
    double. *)
Lemma parseInt_digits (s : string) :
  s <> "" -> allChars Str.isDigit s = true ->
  parseInt s = roundNat (decimal s).
Proof.
  destruct s as [| c s]; [congruence|]. intros _ H.
  change (Str.isDigit c && allChars Str.isDigit s = true) in H.
  apply andb_true_iff in H. destruct H as [Hc Hs].
  assert (Hread : readDigits 10 (String c s) None
                  = Some (decimal (String c s))).
  { cbn [readDigits]. destruct (digitValue_digit c Hc) as [-> _].
    rewrite (@readDigits_digits s _ Hs). reflexivity. }
  revert Hread. generalize (decimal (String c s)) as m. intros m Hread.
  unfold parseInt. rewrite (@trimStart_digit c s Hc).
  destruct s as [| d s'].
  - destruct c as [[] [] [] [] [] [] [] []]; try discriminate;
      cbv beta iota zeta; rewrite Hread; reflexivity.
  - change (Str.isDigit d && allChars Str.isDigit s' = true) in Hs.
    apply andb_true_iff in Hs. destruct Hs as [Hd _].
    destruct c as [[] [] [] [] [] [] [] []]; try discriminate;
      try (cbv beta iota zeta; rewrite Hread; reflexivity).
    destruct d as [[] [] [] [] [] [] [] []]; try discriminate;
      cbv beta iota zeta; rewrite Hread; reflexivity.
Qed.

Lemma roundNat_count (z : Z) : (0 <= z)%Z -> isCount (roundNat z) = true.
Proof.
  intros Hz. destruct (Z.eq_dec z 0) as [-> | Hne]; [reflexivity|].
  destruct (@roundNat_positive z ltac:(lia)) as [-> | [v [-> Hv]]];
    [reflexivity|]. cbn [isCount]. apply Z.leb_le. lia.
Qed.

Lemma parseInt_count (s : string) :
  s <> "" -> allChars Str.isDigit s = true -> isCount (parseInt s) = true.
Proof.
  intros Hne Hs. rewrite (@parseInt_digits s Hne Hs). apply roundNat_count.
  unfold decimal. apply (@decimalFrom_nonneg s 0 Hs). lia.
Qed.

Lemma transRegex_groups (st st' : mstate) :
  Reach transRegex st st' -> caps st = [] ->
  exists ds name,
    caps st' = [(2, name); (1, ds)] /\
    ds <> "" /\ allChars Str.isDigit ds = true /\
    name <> "" /\ allChars (fun c => negb (Str.mem c "<")) name = true.
Proof.
  unfold transRegex. cbn [cat]. intros H Hc.
  apply Reach_cat_inv in H. destruct H as [s1 [H1 H]].
  apply Reach_lit in H1. destruct H1 as [_ [_ C1]].
  apply Reach_cat_inv in H. destruct H as [s2 [H2 H]].
  apply Reach_class_inv in H2. destruct H2 as [c2 [_ [_ [_ C2]]]].
  apply Reach_cat_inv in H. destruct H as [s3 [H3 H]].
  apply Reach_group_plus_class in H3. destruct H3 as [ds [N1 [A1 [_ [_ C3]]]]].
  apply Reach_cat_inv in H. destruct H as [s4 [H4 H]].
  apply Reach_class_inv in H4. destruct H4 as [c4 [_ [_ [_ C4]]]].
  apply Reach_cat_inv in H. destruct H as [s5 [H5 H]].
  apply Reach_star_class in H5. destruct H5 as [w5 [_ [_ [_ C5]]]].
  apply Reach_cat_inv in H. destruct H as [s6 [H6 H]].
  apply Reach_class_inv in H6. destruct H6 as [c6 [_ [_ [_ C6]]]].
  apply Reach_cat_inv in H. destruct H as [s7 [H7 H]].
  apply Reach_group_plus_class in H7. destruct H7 as [nm [N2 [A2 [_ [_ C7]]]]].
  apply Reach_class_inv in H. destruct H as [c8 [_ [_ [_ C8]]]].
  exists ds, nm. rewrite C8, C7, C6, C5, C4, C3, C2, C1, Hc. auto 6.
Qed.

Lemma allChars_trimStart (p : ascii -> bool) (s : string) :
  allChars p s = true -> allChars p (Str.trimStart s) = true.
Proof.
  induction s as [| c s IH]; [reflexivity|]. intros H.
  cbn [Str.trimStart]. destruct (Str.isWhiteSpace c); [|exact H].
  change (p c && allChars p s = true) in H.
  apply andb_true_iff in H. apply IH. exact (proj2 H).
Qed.

Lemma allChars_trim (p : ascii -> bool) (s : string) :
  allChars p s = true -> allChars p (Str.trim s) = true.
Proof.
  intros H. unfold Str.trim.
  rewrite allChars_rev. apply allChars_trimStart.
  rewrite allChars_rev. apply allChars_trimStart. exact H.
Qed.

Lemma firstAppearances_in (l : list number) (x : number) :
  In x (firstAppearances l) -> In x l.
Proof.
  induction l as [| y l IH]; [intros []|].
  cbn [firstAppearances]. intros [-> | H]; [left; reflexivity|].
  right. apply IH. apply filter_In in H. exact (proj1 H).
Qed.

Lemma firstAppearances_nodup (l : list number) : NoDup (firstAppearances l).
Proof.
  induction l as [| x l IH]; [constructor|].
  cbn [firstAppearances]. constructor.
  - intros H. apply filter_In in H. destruct H as [_ H].
    rewrite same_refl in H. discriminate.
  - apply NoDup_filter. exact IH.
Qed.

(** X15: whatever the page, every translator [getContentInfo] lists has
    as id a non-negative integer (or the infinity a numeral too long for a
    double is read as), never NaN, and a name without [<]; every season of
    the mapping is a non-empty run of digits, kept as text, and its
    episodes are a non-empty list of such numbers, none of them twice. *)
Theorem page_numbers (url html : string) :
  let info := pageInfo url html in
  Forall (fun t => isCount (translator_id t) = true /\
                   Str.includes "<" (translator_name t) = false)
         (translators info) /\
  forall season episodes,
    Obj.get (seasons info) season = Some episodes ->
    season <> "" /\ allChars Str.isDigit season = true /\
    episodes <> [] /\ NoDup episodes /\
    Forall (fun e => isCount e = true) episodes.
Proof.
  cbv zeta. split.
  - unfold pageInfo. cbn [translators]. apply Forall_forall.
    intros t Ht. apply in_map_iff in Ht. destruct Ht as [m [<- Hm]].
    cbn [translator_id translator_name].
    apply exec_all_sound in Hm. destruct Hm as [p' [s' Hr]].
    apply transRegex_groups in Hr; [|reflexivity].
    destruct Hr as [ds [nm [Hc [Hne [Hds [_ Hnm]]]]]].
    unfold group. rewrite Hc. cbn [cap_lookup Nat.eqb].
    split; [exact (@parseInt_count ds Hne Hds)|].
    apply (@includes_char_absent (fun c => negb (Str.mem c "<")) "<");
      [reflexivity|].
    apply allChars_trim. exact Hnm.
  - intros season episodes. rewrite seasons_of_page.
    destruct (episodesOf season (scannedPairs html)) as [| e es] eqn:He;
      [discriminate|].
    intros [= <-].
    assert (Hall : forall x, In x (e :: es) ->
              exists m, In m (exec_all episodeRegex html) /\
                        group 1 m = season /\ x = parseInt (group 2 m)).
    { intros x Hx. rewrite <- He in Hx. unfold episodesOf in Hx.
      apply in_map_iff in Hx. destruct Hx as [[s n] [Hn Hin]].
      apply filter_In in Hin. destruct Hin as [Hin Hs].
      unfold scannedPairs in Hin. apply in_map_iff in Hin.
      destruct Hin as [m [[= <- <-] Hm]]. cbn [fst snd] in *.
      apply String.eqb_eq in Hs. exists m. auto. }
    assert (Hgroups : forall m, In m (exec_all episodeRegex html) ->
              group 1 m <> "" /\ allChars Str.isDigit (group 1 m) = true /\
              isCount (parseInt (group 2 m)) = true).
    { intros m Hm. apply exec_all_sound in Hm. destruct Hm as [p' [s' Hr]].
      apply episodeRegex_groups in Hr; [|reflexivity].
      destruct Hr as [sn [ep [Hc [H1 [H2 [H3 H4]]]]]].
      unfold group. rewrite Hc. cbn [cap_lookup Nat.eqb].
      split; [exact H1|]. split; [exact H2|].
      exact (@parseInt_count ep H3 H4). }
    destruct (Hall e (or_introl eq_refl)) as [m [Hm [Hs _]]].
    destruct (Hgroups m Hm) as [G1 [G2 _]]. rewrite Hs in G1, G2.
    split; [exact G1|]. split; [exact G2|].
    split; [cbn [firstAppearances]; discriminate|].
    split; [exact (firstAppearances_nodup (e :: es))|].
    apply Forall_forall. intros x Hx.
    apply (firstAppearances_in (e :: es)) in Hx.
    destruct (Hall x Hx) as [m' [Hm' [_ ->]]].
    exact (proj2 (proj2 (Hgroups m' Hm'))).
Qed.

Lemma page_numbers_witness :
  let html := ("<li " ++ attr "data-season_id" "02" ++ " "
                 ++ attr "data-episode_id" "07" ++ "></li>")%string in
  Obj.get (seasons (pageInfo "https://hdrezka.me/x.html" html)) "02"
  = Some [Fin 7] /\ allChars Str.isDigit "02" = true.
Proof.
  cbv zeta.
  assert (H : Obj.get
                (seasons (pageInfo "https://hdrezka.me/x.html"
                            ("<li " ++ attr "data-season_id" "02" ++ " "
                               ++ attr "data-episode_id" "07" ++ "></li>")))
                "02" = Some [Fin 7]) by (vm_compute; reflexivity).
  split; [exact H|].
  exact (proj1 (proj2 (proj2 (page_numbers _ _) "02" [Fin 7] H))).
Defined.

(** ** The entries of a search *)

Lemma trimStart_head (s : string) :
  headIs Str.isWhiteSpace (Str.trimStart s) = false.
Proof.
  induction s as [| c s IH]; [reflexivity|]. cbn [Str.trimStart].
  destruct (Str.isWhiteSpace c) eqn:E; [exact IH | exact E].
Qed.

Lemma trimStart_fixed (s : string) :
  headIs Str.isWhiteSpace s = false -> Str.trimStart s = s.
Proof. destruct s as [| c s]; [reflexivity|]. cbn. intros ->. reflexivity. Qed.

Lemma trimStart_suffix (s : string) :
  exists pre, s = (pre ++ Str.trimStart s)%string.
Proof.
  induction s as [| c s [pre IH]]; [exists ""; reflexivity|].
  cbn [Str.trimStart]. destruct (Str.isWhiteSpace c).
  - exists (String c pre). cbn [append]. f_equal. exact IH.
  - exists "". reflexivity.
Qed.

(** A trimmed string has no white space left to trim. *)
Lemma trim_trim (s : string) : Str.trim (Str.trim s) = Str.trim s.
Proof.
  unfold Str.trim.
  set (a := Str.trimStart s). set (b := Str.trimStart (Str.rev a)).
  assert (Hb : headIs Str.isWhiteSpace b = false) by apply trimStart_head.
  assert (Hr : headIs Str.isWhiteSpace (Str.rev b) = false).
  { destruct (trimStart_suffix (Str.rev a)) as [pre Hpre]. fold b in Hpre.
    apply (f_equal Str.rev) in Hpre.
    rewrite rev_involutive, rev_append in Hpre.
    pose proof (trimStart_head s) as Ha. fold a in Ha. rewrite Hpre in Ha.
    destruct (Str.rev b) as [| c r]; [reflexivity | exact Ha]. }
  rewrite (trimStart_fixed _ Hr), rev_involutive, (trimStart_fixed _ Hb).
  reflexivity.
Qed.

Lemma Reach_group_star_class (i : nat) (g : bool) (p : ascii -> bool)
    (st st' : mstate) :
  Reach (Group i (Star g (Class p))) st st' ->
  exists w, allChars p w = true /\
            rest st = (w ++ rest st')%string /\
            pos st' = pos st + String.length w /\
            caps st' = (i, w) :: caps st.
Proof.
  inversion 1 as [| | | | | | | i' r st0 st1 H1 | |]; subst.
  apply Reach_star_class in H1. destruct H1 as [w [E [A [P C]]]].
  exists w. simpl. repeat split; try assumption.
  rewrite P, E, C.
  replace (pos st + String.length w - pos st) with (String.length w) by lia.
  rewrite take_append. reflexivity.
Qed.

Lemma itemRegex_groups (st st' : mstate) :
  Reach itemRegex st st' -> caps st = [] ->
  exists u p t i,
    caps st' = [(4, i); (3, t); (2, p); (1, u)] /\
    u <> "" /\ allChars (fun c => negb (Ascii.eqb c quote)) u = true /\
    p <> "" /\ allChars (fun c => negb (Ascii.eqb c quote)) p = true /\
    t <> "" /\ allChars (fun c => negb (Str.mem c "<")) t = true /\
    allChars (fun c => negb (Str.mem c "<")) i = true.
Proof.
  unfold itemRegex. cbn [cat]. intros H Hc.
  repeat match goal with
         | H : Reach (Cat _ _) _ _ |- _ =>
             apply Reach_cat_inv in H; destruct H as [? [? H]]
         end.
  repeat match goal with
         | H : Reach (lit _) _ _ |- _ =>
             apply Reach_lit in H; destruct H as [_ [_ ?]]
         | H : Reach (chr _) _ _ |- _ =>
             apply Reach_class_inv in H; destruct H as [? [_ [_ [_ ?]]]]
         | H : Reach (Star _ (noneOf _)) _ _ |- _ =>
             apply Reach_star_class in H; destruct H as [? [_ [_ [_ ?]]]]
         | H : Reach (Star _ anyChar) _ _ |- _ =>
             apply Reach_star_class in H; destruct H as [? [_ [_ [_ ?]]]]
         | H : Reach (Star _ space) _ _ |- _ =>
             apply Reach_star_class in H; destruct H as [? [_ [_ [_ ?]]]]
         end.
  repeat match goal with
         | H : Reach (Group _ (plus _ _)) _ _ |- _ =>
             apply Reach_group_plus_class in H;
             destruct H as [? [? [? [_ [_ ?]]]]]
         | H : Reach (Group _ (Star _ _)) _ _ |- _ =>
             apply Reach_group_star_class in H;
             destruct H as [? [? [_ [_ ?]]]]
         end.
  repeat match goal with
         | E : caps ?a = _ |- _ => rewrite E in *; clear E
         end.
  do 4 eexists. split; [reflexivity|]. repeat split; assumption.
Qed.

Lemma firstFourDigits_spec (s y : string) :
  firstFourDigits s = Some y ->
  String.length y = 4 /\ allChars Str.isDigit y = true.
Proof.
  induction s as [| c s IH]; rewrite firstFourDigits_eq.
  - destruct ((String.length (Str.take 4 "") =? 4)
              && allChars Str.isDigit (Str.take 4 "")) eqn:E; [|discriminate].
    intros [= <-]. apply andb_true_iff in E. destruct E as [E1 E2].
    apply Nat.eqb_eq in E1. auto.
  - destruct ((String.length (Str.take 4 (String c s)) =? 4)
              && allChars Str.isDigit (Str.take 4 (String c s))) eqn:E;
      [|exact IH].
    intros [= <-]. apply andb_true_iff in E. destruct E as [E1 E2].
    apply Nat.eqb_eq in E1. auto.
Qed.

(** X16: every entry a search returns has a non-empty URL and a non-empty
    poster, both without a double quote, a title without [<] that is
    trimmed, and as year either null or exactly four digits. *)
Theorem search_entries_wellformed (query : string) (w : world)
    (results : list SearchResult) :
  fst (searchContent query w) = Return results ->
  Forall (fun e =>
            result_url e <> "" /\
            Str.includes (String quote "") (result_url e) = false /\
            poster e <> "" /\
            Str.includes (String quote "") (poster e) = false /\
            Str.includes "<" (title e) = false /\
            Str.trim (title e) = title e /\
            match year e with
            | Some y => String.length y = 4 /\ allChars Str.isDigit y = true
            | None => True
            end) results.
Proof.
  rewrite searchContent_outcome.
  destruct (w (searchRequest query)) as [rep|]; [|discriminate].
  destruct (ok rep); [|discriminate].
  intros [= <-]. apply Forall_forall. intros e He.
  apply in_map_iff in He. destruct He as [m [<- Hm]].
  apply exec_all_sound in Hm. destruct Hm as [p' [s' Hr]].
  apply itemRegex_groups in Hr; [|reflexivity].
  destruct Hr as [u [p [t [i [Hc [Hu [Huq [Hp [Hpq [Ht [Htl Hil]]]]]]]]]]].
  unfold resultOf, group. rewrite Hc.
  cbn [cap_lookup Nat.eqb result_url poster title year].
  split; [exact Hu|].
  split; [exact (@includes_char_absent _ quote u eq_refl Huq)|].
  split; [exact Hp|].
  split; [exact (@includes_char_absent _ quote p eq_refl Hpq)|].
  split.
  { apply (@includes_char_absent (fun c => negb (Str.mem c "<")) "<");
      [reflexivity|]. apply allChars_trim. exact Htl. }
  split; [apply trim_trim|].
  rewrite year_is_first_four_digits.
  destruct (firstFourDigits (Str.trim i)) as [y|] eqn:Hy; [|exact I].
  exact (firstFourDigits_spec _ Hy).
Qed.

Lemma search_entries_wellformed_witness :
  let page := sampleItem "https://hdrezka.me/films/1-x.html" "2019, USA" in
  let results :=
    [MkSearchResult "https://hdrezka.me/films/1-x.html" "Title" movie
       (Some "2019") "p.jpg"] in
  fst (searchContent "x" (upstream 200 page None)) = Return results /\
  Forall (fun e => Str.trim (title e) = title e) results.
Proof.
  cbv zeta.
  assert (H : fst (searchContent "x"
                     (upstream 200
                        (sampleItem "https://hdrezka.me/films/1-x.html"
                           "2019, USA") None))
              = Return [MkSearchResult "https://hdrezka.me/films/1-x.html"
                          "Title" movie (Some "2019") "p.jpg"])
    by (vm_compute; reflexivity).
  split; [exact H|].
  apply (Forall_impl _ (P := fun e =>
            result_url e <> "" /\
            Str.includes (String quote "") (result_url e) = false /\
            poster e <> "" /\
            Str.includes (String quote "") (poster e) = false /\
            Str.includes "<" (title e) = false /\
            Str.trim (title e) = title e /\
            match year e with
            | Some y => String.length y = 4 /\ allChars Str.isDigit y = true
            | None => True
            end)).
  - intros e He. exact (proj1 (proj2 (proj2 (proj2 (proj2 (proj2 He)))))).
  - exact (@search_entries_wellformed "x" _ _ H).
Defined.

(** ** When an id is found *)

Lemma includes_at (P s : string) :
  Str.includes P s = true <->
  exists n, Str.startsWith P (Str.drop n s) = true.
Proof.
  split.
  - induction s as [| c s IH]; cbn [Str.includes]; intros H;
      apply orb_true_iff in H; destruct H as [H | H];
      try (exists 0; exact H); try discriminate.
    destruct (IH H) as [n Hn]. exists (S n). exact Hn.
  - intros [n Hn]. revert n Hn. induction s as [| c s IH]; intros n Hn.
    + destruct n; cbn [Str.drop] in Hn; cbn [Str.includes]; rewrite Hn;
        reflexivity.
    + cbn [Str.includes]. destruct n as [| n]; cbn [Str.drop] in Hn.
      * rewrite Hn. reflexivity.
      * rewrite (IH n Hn). apply orb_true_r.
Qed.

Lemma drop_drop (n m : nat) (s : string) :
  Str.drop m (Str.drop n s) = Str.drop (n + m) s.
Proof.
  revert s. induction n as [| n IH]; intros s; [reflexivity|].
  destruct s as [| c s]; cbn [Str.drop Nat.add].
  - destruct m; reflexivity.
  - apply IH.
Qed.

(** The leftmost scan finds a match whenever there is one somewhere. *)
Lemma exec_from_complete (r : regex) (s : string) (p n : nat) (st : mstate) :
  n <= String.length s ->
  rmatch r Some (MState (p + n) (Str.drop n s) []) = Some st ->
  exists f, exec_from r p s = Some f.
Proof.
  revert p n. induction s as [| c s IH]; intros p n Hn Hm.
  - cbn [String.length] in Hn. assert (n = 0) by lia. subst n.
    rewrite Nat.add_0_r in Hm. cbn [Str.drop] in Hm.
    cbn [exec_from]. rewrite Hm. eauto.
  - cbn [exec_from]. destruct n as [| n].
    + rewrite Nat.add_0_r in Hm. cbn [Str.drop] in Hm. rewrite Hm. eauto.
    + destruct (rmatch r Some (MState p (String c s) [])); [eauto|].
      cbn [Str.drop] in Hm. replace (p + S n) with (S p + n) in Hm by lia.
      apply (IH (S p) n); [cbn [String.length] in Hn; lia | exact Hm].
Qed.

(** Every match of a global scan is a match at some place of the text. *)
Lemma exec_all_from_sound_at (r : regex) (fuel p : nat) (s : string)
    (f : found) :
  In f (exec_all_from r fuel p s) ->
  exists n, Reach r (MState (p + n) (Str.drop n s) []) (stop f).
Proof.
  revert p s. induction fuel as [| fuel IH]; intros p s; [intros []|].
  cbn [exec_all_from].
  destruct (exec_from r p s) as [f0|] eqn:He; [|intros []].
  pose proof (exec_from_sound_at _ _ _ He) as [n0 H0].
  assert (Hfirst : In f [f0] ->
            exists n, Reach r (MState (p + n) (Str.drop n s) []) (stop f)).
  { intros [<- | []]. eauto. }
  destruct (start f0 <? pos (stop f0)); [|exact Hfirst].
  intros [<- | Hin]; [eauto|].
  apply IH in Hin. destruct Hin as [n' Hn'].
  destruct (Reach_advance H0) as [w [Hrest Hpos]]. cbn [rest pos] in Hrest, Hpos.
  assert (Hd : rest (stop f0) = Str.drop (n0 + String.length w) s).
  { rewrite <- drop_drop, Hrest. symmetry. apply drop_append. }
  exists (n0 + String.length w + n').
  rewrite Hd, drop_drop, Hpos in Hn'.
  replace (p + (n0 + String.length w + n'))
    with (p + n0 + String.length w + n') by lia.
  exact Hn'.
Qed.

Lemma startsWith_drop_length (P s : string) (n : nat) :
  P <> "" -> Str.startsWith P (Str.drop n s) = true -> n <= String.length s.
Proof.
  intros HP. revert n. induction s as [| c s IH]; intros n H.
  - destruct n; cbn [Str.drop] in H; destruct P; try congruence; discriminate.
  - destruct n as [| n]; cbn [String.length]; [lia|].
    cbn [Str.drop] in H. specialize (IH n H). lia.
Qed.

(** A match of the pattern of a numeric attribute reads the attribute. *)
Lemma numberAttr_reach (prefix : string) (st st' : mstate) :
  Reach (numberAttr prefix) st st' -> caps st = [] ->
  exists ds,
    caps st' = [(1, ds)] /\ ds <> "" /\ allChars Str.isDigit ds = true /\
    rest st = (prefix ++ String quote (ds ++ String quote (rest st')))%string.
Proof.
  unfold numberAttr. cbn [cat]. intros H Hc.
  apply Reach_cat_inv in H. destruct H as [s1 [H1 H]].
  apply Reach_lit in H1. destruct H1 as [R1 [_ C1]].
  apply Reach_cat_inv in H. destruct H as [s2 [H2 H]].
  apply Reach_class_inv in H2. destruct H2 as [c2 [R2 [Q2 [_ C2]]]].
  apply Reach_cat_inv in H. destruct H as [s3 [H3 H]].
  apply Reach_group_plus_class in H3. destruct H3 as [ds [N [A [R3 [_ C3]]]]].
  apply Reach_class_inv in H. destruct H as [c4 [R4 [Q4 [_ C4]]]].
  apply Ascii.eqb_eq in Q2, Q4. subst c2 c4.
  exists ds. rewrite C4, C3, C2, C1, Hc, R1, R2, R3, R4. auto.
Qed.

(** The pattern of a numeric attribute matches where the attribute
    stands. *)
Lemma numberAttr_hit (prefix ds tail : string) (n : nat) :
  ds <> "" -> allChars Str.isDigit ds = true ->
  exists st,
    rmatch (numberAttr prefix) Some
      (MState n (prefix ++ String quote (ds ++ String quote tail)) [])
    = Some st /\ caps st = [(1, ds)].
Proof.
  intros Hne Hds. eexists. split.
  - unfold numberAttr. cbn [cat]. unfold chr, digit.
    rewrite rmatch_cat, rmatch_lit_hit.
    rewrite rmatch_cat, rmatch_class_hit by reflexivity.
    rewrite rmatch_cat.
    apply greedy_group_run; [assumption | assumption | reflexivity |].
    rewrite rmatch_class_hit by reflexivity. reflexivity.
  - reflexivity.
Qed.

Lemma attr_shape (name ds tail : string) :
  (attr name ds ++ tail)%string
  = ((name ++ "=") ++ String quote (ds ++ String quote tail))%string.
Proof.
  unfold attr. rewrite !append_assoc. cbn [append]. rewrite ?append_assoc.
  reflexivity.
Qed.

(** The first group of the leftmost match of a numeric attribute. *)
Lemma numberAttr_found (name html : string) :
  (forall c, firstGroup (exec (numberAttr (name ++ "=")) html) = Some c ->
     c <> "" /\ allChars Str.isDigit c = true /\
     Str.includes (attr name c) html = true) /\
  (firstGroup (exec (numberAttr (name ++ "=")) html) = None <->
   forall ds, ds <> "" -> allChars Str.isDigit ds = true ->
              Str.includes (attr name ds) html = false).
Proof.
  assert (Hsound : forall c,
    firstGroup (exec (numberAttr (name ++ "=")) html) = Some c ->
    c <> "" /\ allChars Str.isDigit c = true /\
    Str.includes (attr name c) html = true).
  { intros c. unfold exec.
    destruct (exec_from _ 0 html) as [f|] eqn:He; [|discriminate].
    cbn [firstGroup]. intros [= <-].
    apply exec_from_sound_at in He. destruct He as [n Hr].
    apply numberAttr_reach in Hr; [|reflexivity].
    destruct Hr as [ds [Hc [Hne [Hds Hrest]]]]. cbn [rest] in Hrest.
    unfold group. rewrite Hc. cbn [cap_lookup Nat.eqb].
    split; [exact Hne|]. split; [exact Hds|].
    apply includes_at. exists n. rewrite Hrest, <- attr_shape.
    apply startsWith_append. }
  split; [exact Hsound|]. split.
  - intros Hnone ds Hne Hds.
    destruct (Str.includes (attr name ds) html) eqn:Hi; [|reflexivity].
    exfalso. apply includes_at in Hi. destruct Hi as [n Hn].
    assert (Hlen : n <= String.length html).
    { apply (@startsWith_drop_length (attr name ds) html n); [|exact Hn].
      unfold attr. destruct name; discriminate. }
    apply startsWith_split in Hn. rewrite attr_shape in Hn.
    destruct (@numberAttr_hit (name ++ "=") ds
                (Str.drop (String.length (attr name ds)) (Str.drop n html))
                (0 + n) Hne Hds) as [st [Hst _]].
    rewrite <- Hn in Hst.
    destruct (exec_from_complete _ _ _ Hlen Hst) as [f Hf].
    unfold exec in Hnone. rewrite Hf in Hnone. discriminate.
  - intros Hall.
    destruct (firstGroup (exec (numberAttr (name ++ "=")) html)) as [c|] eqn:E;
      [|reflexivity].
    destruct (Hsound c eq_refl) as [Hne [Hds Hi]].
    rewrite (Hall c Hne Hds) in Hi. discriminate.
Qed.

(** A match of the translator pattern stands on a translator attribute. *)
Lemma transRegex_attr (st st' : mstate) :
  Reach transRegex st st' ->
  exists ds tail,
    ds <> "" /\ allChars Str.isDigit ds = true /\
    rest st = (attr "data-translator_id" ds ++ tail)%string.
Proof.
  unfold transRegex. cbn [cat]. intros H.
  apply Reach_cat_inv in H. destruct H as [s1 [H1 H]].
  apply Reach_lit in H1. destruct H1 as [R1 _].
  apply Reach_cat_inv in H. destruct H as [s2 [H2 H]].
  apply Reach_class_inv in H2. destruct H2 as [c2 [R2 [Q2 _]]].
  apply Reach_cat_inv in H. destruct H as [s3 [H3 H]].
  apply Reach_group_plus_class in H3. destruct H3 as [ds [N [A [R3 _]]]].
  apply Reach_cat_inv in H. destruct H as [s4 [H4 _]].
  apply Reach_class_inv in H4. destruct H4 as [c4 [R4 [Q4 _]]].
  apply Ascii.eqb_eq in Q2, Q4. subst c2 c4.
  exists ds, (rest s4). split; [exact N|]. split; [exact A|].
  rewrite attr_shape, R1, R2, R3, R4. reflexivity.
Qed.

(** X17: the content id [getContentInfo] returns is null exactly when the
    page holds no [data-id] attribute whose value, between double quotes,
    is a non-empty run of digits; when it is not null it is such a run and
    the page holds the attribute with that value.  The same goes for the
    primary translator id and the [data-translator_id] attribute; and a
    page for which that id is null lists no translator. *)
Theorem ids_found_iff (url html : string) :
  let info := pageInfo url html in
  (forall c, id info = Some c ->
     c <> "" /\ allChars Str.isDigit c = true /\
     Str.includes (attr "data-id" c) html = true) /\
  (id info = None <->
   forall ds, ds <> "" -> allChars Str.isDigit ds = true ->
              Str.includes (attr "data-id" ds) html = false) /\
  (forall c, translatorId info = Some c ->
     c <> "" /\ allChars Str.isDigit c = true /\
     Str.includes (attr "data-translator_id" c) html = true) /\
  (translatorId info = None <->
   forall ds, ds <> "" -> allChars Str.isDigit ds = true ->
              Str.includes (attr "data-translator_id" ds) html = false) /\
  (translatorId info = None -> translators info = []).
Proof.
  cbv zeta. unfold pageInfo. cbn [id translatorId translators].
  change idRegex with (numberAttr ("data-id" ++ "=")).
  change translatorRegex with (numberAttr ("data-translator_id" ++ "=")).
  destruct (numberAttr_found "data-id" html) as [I1 I2].
  destruct (numberAttr_found "data-translator_id" html) as [T1 T2].
  split; [exact I1|]. split; [exact I2|]. split; [exact T1|].
  split; [exact T2|].
  intros Hnone.
  destruct (exec_all transRegex html) as [| f fs] eqn:He; [reflexivity|].
  exfalso.
  assert (Hin : In f (exec_all transRegex html)) by (rewrite He; left; reflexivity).
  unfold exec_all in Hin. apply exec_all_from_sound_at in Hin.
  destruct Hin as [n Hr]. apply transRegex_attr in Hr.
  destruct Hr as [ds [tail [Hne [Hds Hrest]]]]. cbn [rest] in Hrest.
  assert (Hi : Str.includes (attr "data-translator_id" ds) html = true).
  { apply includes_at. exists n. rewrite Hrest. apply startsWith_append. }
  rewrite (proj1 T2 Hnone ds Hne Hds) in Hi. discriminate.
Qed.

Lemma ids_found_iff_witness :
  let html := ("<a " ++ attr "data-id" "" ++ " "
                 ++ attr "data-id" "123" ++ ">")%string in
  id (pageInfo "https://hdrezka.me/x.html" html) = Some "123" /\
  Str.includes (attr "data-id" "123") html = true.
Proof.
  cbv zeta.
  assert (H : id (pageInfo "https://hdrezka.me/x.html"
                    ("<a " ++ attr "data-id" "" ++ " "
                       ++ attr "data-id" "123" ++ ">"))
              = Some "123") by (vm_compute; reflexivity).
  split; [exact H|].
  exact (proj2 (proj2 (proj1 (ids_found_iff _ _) "123" H))).
Defined.

(** ** What the junk pattern matches *)

(** X18: at a place of a token, the junk pattern matches exactly when the
    text there begins with one of the junk markers, or with [#h] at the
    very start of the token; the match is that marker and nothing more. *)
Theorem trash_match_at (p : nat) (s : string) (st' : mstate) :
  rmatch TRASH_PATTERN Some (MState p s []) = Some st' <->
  exists m,
    ((m = "#h" /\ p = 0) \/ In m junkMarkers) /\
    s = (m ++ rest st')%string /\
    pos st' = p + String.length m /\ caps st' = [].
Proof.
  split; [apply trash_match_is_marker|].
  intros [m [[[-> ->] | Hin] [-> [Hpos Hcaps]]]].
  - destruct st' as [p' r' c']. cbn [pos rest caps] in *. subst.
    reflexivity.
  - rewrite (trash_at_marker Hin). destruct st' as [p' r' c'].
    cbn [pos rest caps] in *. subst. f_equal. f_equal. lia.
Qed.

Lemma trash_match_at_witness :
  rmatch TRASH_PATTERN Some (MState 3 "QEBe-rest" [])
  = Some (MState 7 "-rest" []).
Proof.
  apply (proj2 (trash_match_at 3 "QEBe-rest" (MState 7 "-rest" []))).
  exists "QEBe". split; [right; apply in_junkMarkers; vm_compute; reflexivity|].
  split; [reflexivity|]. split; reflexivity.
Defined.

(** ** Deobfuscation of any base64 text *)

Lemma atob_short (body : string) :
  allChars isAlphabet body = true ->
  String.length body mod 4 = 1 ->
  atob body = None.
Proof.
  intros Ha Hlen. unfold atob.
  rewrite removeWhitespace_clean by (apply alphabet_clean; assumption).
  assert (Hs : stripPadding body = body).
  { unfold stripPadding.
    destruct (alphabet_no_padding_at_end body Ha) as [H1 H2].
    rewrite H1, H2. destruct (_ =? 0); reflexivity. }
  rewrite Hs, Hlen. reflexivity.
Qed.

Lemma sextets_of_alphabet (t : string) :
  allChars isAlphabet t = true ->
  exists l, sextets t = Some l /\ List.length l = String.length t.
Proof.
  induction t as [| c t IH]; [exists []; auto|].
  change (isAlphabet c && allChars isAlphabet t = true -> 
          exists l, sextets (String c t) = Some l
                    /\ List.length l = String.length (String c t)).
  intros H. apply andb_true_iff in H. destruct H as [Hc Ht].
  destruct (IH Ht) as [l [Hl Hn]]. unfold isAlphabet in Hc.
  cbn [sextets]. destruct (sextet c) as [v|]; [|discriminate].
  rewrite Hl. exists (v :: l). cbn [List.length String.length]. auto.
Qed.

Lemma bytesOf_length (l : list N) :
  String.length (bytesOf l)
  = 3 * (List.length l / 4) + (List.length l mod 4 - 1).
Proof.
  assert (G : forall l : list N,
    String.length (bytesOf l)
    = 3 * (List.length l / 4) + (List.length l mod 4 - 1) /\
    (forall a, String.length (bytesOf (a :: l))
               = 3 * (S (List.length l) / 4) + (S (List.length l) mod 4 - 1)) /\
    (forall a b, String.length (bytesOf (a :: b :: l))
                 = 3 * (S (S (List.length l)) / 4)
                   + (S (S (List.length l)) mod 4 - 1)) /\
    (forall a b c, String.length (bytesOf (a :: b :: c :: l))
                   = 3 * (S (S (S (List.length l))) / 4)
                     + (S (S (S (List.length l))) mod 4 - 1))).
  { induction l0 as [| x l0 [I0 [I1 [I2 I3]]]].
    - repeat split; intros; reflexivity.
    - split; [apply I1|]. split; [intros a; apply I2|].
      split; [intros a b; apply I3|].
      intros a b c. cbn [bytesOf String.length List.length]. rewrite I0.
      set (n := List.length l0). divmod. }
  apply G.
Qed.

(** X19: when what the junk removal leaves of a token holds only
    characters of the base64 alphabet, the deobfuscator returns the empty
    string if the length of that text is 1 modulo 4, and otherwise the
    bytes the text decodes to, three for every four characters and one or
    two for a last group of two or three characters. *)
Theorem clearTrash_of_alphabet (token : string) :
  let cleaned := remove_all TRASH_PATTERN token in
  let n := String.length cleaned in
  allChars isAlphabet cleaned = true ->
  (n mod 4 = 1 -> clearTrash token = "") /\
  (n mod 4 <> 1 ->
   decodeBody cleaned = Some (clearTrash token) /\
   String.length (clearTrash token) = 3 * (n / 4) + (n mod 4 - 1)).
Proof.
  cbv zeta. unfold clearTrash.
  set (cleaned := remove_all TRASH_PATTERN token). intros Ha.
  assert (Hr : String.length cleaned mod 4 < 4)
    by (apply Nat.mod_upper_bound; lia).
  destruct (sextets_of_alphabet cleaned Ha) as [l [Hl Hn]].
  assert (Hd : decodeBody cleaned = Some (bytesOf l))
    by (unfold decodeBody; rewrite Hl; reflexivity).
  assert (Hlen : String.length (bytesOf l)
                 = 3 * (String.length cleaned / 4)
                   + (String.length cleaned mod 4 - 1))
    by (rewrite bytesOf_length, Hn; reflexivity).
  split.
  - intros H1.
    rewrite atob_misplaced_padding, (@atob_short cleaned Ha H1);
      try assumption; try reflexivity; try discriminate.
    rewrite length_append. simpl String.length. divmod.
  - intros H1.
    destruct (Nat.eq_dec (String.length cleaned mod 4) 2) as [H2 | H2].
    + rewrite atob_padded, Hd; auto.
      rewrite length_append. simpl String.length. divmod.
    + rewrite atob_misplaced_padding, (@atob_body cleaned Ha H1), Hd;
        try assumption; try reflexivity; try discriminate; auto.
      rewrite length_append. simpl String.length. divmod.
Qed.

Lemma clearTrash_of_alphabet_witness :
  clearTrash "QUJD//_//R" = "" /\
  String.length (clearTrash "QUJD//_//RA")
  = 3 * (String.length (remove_all TRASH_PATTERN "QUJD//_//RA") / 4)
    + (String.length (remove_all TRASH_PATTERN "QUJD//_//RA") mod 4 - 1).
Proof.
  assert (A1 : allChars isAlphabet (remove_all TRASH_PATTERN "QUJD//_//R")
               = true) by (vm_compute; reflexivity).
  assert (A2 : allChars isAlphabet (remove_all TRASH_PATTERN "QUJD//_//RA")
               = true) by (vm_compute; reflexivity).
  assert (L1 : String.length (remove_all TRASH_PATTERN "QUJD//_//R") mod 4 = 1)
    by (vm_compute; reflexivity).
  assert (L2 : String.length (remove_all TRASH_PATTERN "QUJD//_//RA") mod 4
               <> 1) by (vm_compute; discriminate).
  split.
  - exact (proj1 (clearTrash_of_alphabet "QUJD//_//R" A1) L1).
  - exact (proj2 (proj2 (clearTrash_of_alphabet "QUJD//_//RA" A2) L2)).
Defined.
